(** * Ajax UART bridge: line parser and command/response sessions

    A shallow embedding of [custom_components/ajax_uart/parser.py] and of the
    session engine of [custom_components/ajax_uart/__init__.py] (pairing,
    deletion, parameter update, device-list refresh), with the properties
    of the specification stated over it.

    Conventions of the embedding
    - a Python [str] is a [string]; the hub protocol is ASCII text, and the
      case mapping and whitespace classes below are the ASCII ones;
    - a Python [dict] with string keys is a [gmap string _];
    - an exception is a value of [exn]; code that may raise returns a
      [result], and code that mutates objects runs in the monad [M] over
      the bridge state;
    - [asyncio] timers, sleeping tasks and futures are entries of tables
      held by the bridge state; the wire is the log of commands written. *)

From Stdlib Require Import ZArith Ascii String.
From stdpp Require Import gmap strings list pretty.

Open Scope string_scope.

(** ** Python strings *)

Module PyStr.

Definition is_lower (c : ascii) : bool :=
  let n := nat_of_ascii c in (97 <=? n)%nat && (n <=? 122)%nat.

Definition upper_char (c : ascii) : ascii :=
  if is_lower c then ascii_of_nat (nat_of_ascii c - 32) else c.

(** [s.upper()] *)
Fixpoint upper (s : string) : string :=
  match s with
  | EmptyString => EmptyString
  | String c r => String (upper_char c) (upper r)
  end.

(** The characters [str.strip()] removes: TAB, LF, VT, FF, CR, the four
    separators 0x1c..0x1f and the space. *)
Definition is_space (c : ascii) : bool :=
  let n := nat_of_ascii c in
  ((9 <=? n)%nat && (n <=? 13)%nat) || ((28 <=? n)%nat && (n <=? 32)%nat).

Fixpoint lstrip (s : string) : string :=
  match s with
  | EmptyString => EmptyString
  | String c r => if is_space c then lstrip r else s
  end.

Fixpoint rstrip (s : string) : string :=
  match s with
  | EmptyString => EmptyString
  | String c r =>
      match rstrip r with
      | EmptyString => if is_space c then EmptyString else String c EmptyString
      | r' => String c r'
      end
  end.

(** [s.strip()] *)
Definition strip (s : string) : string := rstrip (lstrip s).

(** [s.split(sep)] for a one-character separator: the piece before the
    first separator, and the pieces after it. *)
Fixpoint split_pieces (sep : ascii) (s : string) : string * list string :=
  match s with
  | EmptyString => (EmptyString, [])
  | String c r =>
      let '(h, t) := split_pieces sep r in
      if decide (c = sep) then (EmptyString, h :: t) else (String c h, t)
  end.

Definition split (sep : ascii) (s : string) : list string :=
  let '(h, t) := split_pieces sep s in h :: t.

(** [sep in s] *)
Fixpoint contains (sep : ascii) (s : string) : bool :=
  match s with
  | EmptyString => false
  | String c r => bool_decide (c = sep) || contains sep r
  end.

(** [s.split(sep, 1)]: cut at the first separator only. *)
Fixpoint split_first (sep : ascii) (s : string) : string * option string :=
  match s with
  | EmptyString => (EmptyString, None)
  | String c r =>
      if decide (c = sep) then (EmptyString, Some r)
      else let '(h, t) := split_first sep r in (String c h, t)
  end.

Definition digit_val (c : ascii) : option Z :=
  let n := nat_of_ascii c in
  if (48 <=? n)%nat && (n <=? 57)%nat then Some (Z.of_nat (n - 48)) else None.

(** Decimal digits with single underscores between digits, as [int()]
    accepts them; [prev] tells whether the previous character was a
    digit. *)
Fixpoint int_digits (acc : Z) (prev : bool) (s : string) : option Z :=
  match s with
  | EmptyString => if prev then Some acc else None
  | String c r =>
      match digit_val c with
      | Some d => int_digits (10 * acc + d)%Z true r
      | None =>
          if decide (c = "_"%char) then
            if prev then int_digits acc false r else None
          else None
      end
  end.

(** [int(s)] in base 10: [None] stands for the [ValueError]. *)
Definition py_int (s : string) : option Z :=
  match strip s with
  | String "+"%char r => int_digits 0 false r
  | String "-"%char r => Z.opp <$> int_digits 0 false r
  | t => int_digits 0 false t
  end.

End PyStr.

(** ** Values, dictionaries and exceptions *)

(** The values the parser stores in a record.  A float is kept as the text
    it was converted from. *)
Inductive pyval :=
| PNone
| PStr (s : string)
| PInt (z : Z)
| PFloat (src : string)
| PList (l : list string).

#[global] Instance pyval_eq_dec : EqDecision pyval.
Proof. solve_decision. Defined.

Abbreviation pydict := (gmap string pyval).

(** Python truthiness of a value: [None], the empty string, zero and the
    empty list are false. *)
Definition truthy (v : pyval) : bool :=
  match v with
  | PNone => false
  | PStr s => negb (bool_decide (s = ""))
  | PInt z => negb (bool_decide (z = 0%Z))
  | PFloat _ => true
  | PList l => negb (bool_decide (l = []))
  end.

Inductive exn :=
| IndexError
| UnpackError          (* the ValueError of a failed tuple unpacking *)
| TypeError (msg : string)
| AttributeError (msg : string)
| CancelledError
| TimeoutError
| InvalidStateError
| PairingError (reason : string)
| PairingTimeoutError (reason : string)
| PairingCancelledError (reason : string)
| HomeAssistantError (msg : string).

#[global] Instance exn_eq_dec : EqDecision exn.
Proof. solve_decision. Defined.

(** [str(e)] *)
Definition str_exn (e : exn) : string :=
  match e with
  | IndexError => "list index out of range"
  | UnpackError => "too many values to unpack (expected 2)"
  | TypeError m => m
  | AttributeError m => m
  | CancelledError => ""
  | TimeoutError => ""
  | InvalidStateError => "invalid state"
  | PairingError r | PairingTimeoutError r | PairingCancelledError r => r
  | HomeAssistantError m => m
  end.

Inductive result (A : Type) :=
| Ok (a : A)
| Raise (e : exn).
Arguments Ok {A} a.
Arguments Raise {A} e.

#[global] Instance result_bind : MBind result := λ A B k r,
  match r with
  | Ok a => k a
  | Raise e => Raise e
  end.

#[global] Instance result_ret : MRet result := λ A a, Ok a.

(** ** The line parser ([parser.py]) *)

Module Parser.

(** [fields[i]] *)
Definition index (fields : list string) (i : nat) : result string :=
  match fields !! i with
  | Some s => Ok s
  | None => Raise IndexError
  end.

(** [fields[i] if len(fields) > i else None] *)
Definition field_or_none (fields : list string) (i : nat) : pyval :=
  if decide (i < length fields) then
    match fields !! i with Some s => PStr s | None => PNone end
  else PNone.

(** [fields[i].upper() if len(fields) > i else None] *)
Definition upper_field_or_none (fields : list string) (i : nat) : pyval :=
  if decide (i < length fields) then
    match fields !! i with Some s => PStr (PyStr.upper s) | None => PNone end
  else PNone.

Definition parse_alarm (fields : list string) : result pydict :=
  t ← index fields 1;
  d ← index fields 2;
  Ok (<["code" := field_or_none fields 3]>
      (<["device_id" := PStr (PyStr.upper d)]>
       (<["type_code" := PStr t]> ∅))).

Definition _maybe_int (value : string) : pyval :=
  match PyStr.py_int value with
  | Some z => PInt z
  | None => PNone
  end.

Section WithFloat.

(** Whether [float(s)] succeeds; the builtin's grammar is left open. *)
Variable float_ok : string → bool.

(** The [try] block of [parse_status]: both floats are stored, or
    neither. *)
Definition with_floats (fields : list string) (parsed : pydict) : pydict :=
  if decide (8 < length fields) then
    match fields !! 7, fields !! 8 with
    | Some f7, Some f8 =>
        if float_ok f7 && float_ok f8 then
          <["loc_rssi" := PFloat f8]> (<["loc_noise" := PFloat f7]> parsed)
        else parsed
    | _, _ => parsed
    end
  else parsed.

(** [if len(fields) > i: parsed[key] = _maybe_int(fields[i])] *)
Definition with_setting_byte (key : string) (i : nat) (fields : list string)
    (parsed : pydict) : pydict :=
  if decide (i < length fields) then
    match fields !! i with
    | Some f => <[key := _maybe_int f]> parsed
    | None => parsed
    end
  else parsed.

Definition parse_status (fields : list string) : result pydict :=
  let parsed : pydict :=
    <["signal" := field_or_none fields 5]>
    (<["battery" := field_or_none fields 4]>
     (<["device_id" := upper_field_or_none fields 2]>
      (<["type_code" := field_or_none fields 1]> ∅))) in
  let parsed := with_floats fields parsed in
  let parsed := with_setting_byte "setting_byte_1" 10 fields parsed in
  let parsed := with_setting_byte "setting_byte_2" 11 fields parsed in
  Ok parsed.

(** The loop of [parse_rstate]: [k, v = kv.split("=")] raises unless the
    token holds exactly one [=]. *)
Fixpoint rstate_pairs (out : pydict) (kvs : list string) : result pydict :=
  match kvs with
  | [] => Ok out
  | kv :: rest =>
      if PyStr.contains "="%char kv then
        match PyStr.split "="%char kv with
        | [k; v] => rstate_pairs (<[k := PStr v]> out) rest
        | _ => Raise UnpackError
        end
      else rstate_pairs out rest
  end.

Definition parse_rstate (fields : list string) : result pydict :=
  d ← index fields 1;
  rstate_pairs {[ "device_id" := PStr (PyStr.upper d) ]} (drop 2 fields).

Definition parse_list (fields : list string) : result pydict :=
  Ok (<["type_code" := field_or_none fields 4]>
      (<["device_id" := upper_field_or_none fields 3]>
       (<["slot" := field_or_none fields 2]>
        (<["sequence" := field_or_none fields 1]> ∅)))).

Definition parse_result (fields : list string) : result pydict :=
  Ok (<["code" := field_or_none fields 2]>
      (<["status" := field_or_none fields 1]> ∅)).

Definition known_tags : list string :=
  ["ALARM"; "STATUS"; "RSTATE"; "EVENT"; "LIST"; "RESULT"].

(** The fields a tag adds: the [if]/[elif] chain inside the [try]. *)
Definition tag_fields (tag : string) (parts : list string) : result pydict :=
  if decide (tag = "ALARM") then parse_alarm parts
  else if decide (tag = "STATUS") then parse_status parts
  else if decide (tag = "RSTATE") then parse_rstate parts
  else if decide (tag = "EVENT") then Ok {[ "event" := PList (drop 1 parts) ]}
  else if decide (tag = "LIST") then parse_list parts
  else if decide (tag = "RESULT") then parse_result parts
  else Ok ∅.

(** [parsed.update(d)]: the keys of [d] override. *)
Definition update (parsed d : pydict) : pydict := d ∪ parsed.

(** The tag of a line, [parts[0].upper()], and the record of a line before
    the fields of its tag are added. *)
Definition tag_of (line : string) : string :=
  PyStr.upper (default "" (head (PyStr.split ";"%char line))).

Definition bare_record (line : string) : pydict :=
  <["raw" := PStr line]> {[ "tag" := PStr (tag_of line) ]}.

Definition parse_line (line : string) : result pydict :=
  let parts := PyStr.split ";"%char line in
  p0 ← index parts 0;
  let tag := PyStr.upper p0 in
  let parsed : pydict := <["raw" := PStr line]> {[ "tag" := PStr tag ]} in
  Ok (match tag_fields tag parts with
      | Ok d => update parsed d
      | Raise e => <["error" := PStr (str_exn e)]> parsed
      end).

End WithFloat.

End Parser.

(** ** The collaborators outside the core

    The device catalogue is loaded from a JSON file, the registry belongs
    to the host platform, and the texts of [float()] and of [str()] on
    floats and lists are the interpreter's: they are parameters. *)

Record Library := mkLibrary {
  (** whether [float(s)] succeeds *)
  float_ok : string → bool;
  (** [DEVICE_LIBRARY.device_model(type_code)] *)
  device_model : option string → option string;
  (** [DEVICE_LIBRARY.params_template_name(type_code)] *)
  params_template_name : option string → option string;
  (** the id of the entry [device_registry.async_get_or_create] returns
      for a unique name *)
  registry_entry_id : string → string;
  (** [str(v)] for a float or a list *)
  py_repr : pyval → string
}.

(** [str(v)] *)
Definition py_str (lib : Library) (v : pyval) : string :=
  match v with
  | PNone => "None"
  | PStr s => s
  | PInt z => pretty z
  | _ => py_repr lib v
  end.

(** ** Devices, candidates, futures and timers *)

Module Meta.

(** The dictionary kept per device under [entry_data["devices"]]; an
    absent key is [None]. *)
Record t := mk {
  type_code : option string;
  type_name : option string;
  sequence : option pyval;
  slot : option pyval;
  params_template : option string;
  params_state : option (gmap string string);
  unique_name : option string;
  name : option string;
  device_registry_id : option string
}.

Definition set_type_code (v : option string) (r : t) : t :=
  mk v (type_name r) (sequence r) (slot r) (params_template r)
    (params_state r) (unique_name r) (name r) (device_registry_id r).
Definition set_type_name (v : option string) (r : t) : t :=
  mk (type_code r) v (sequence r) (slot r) (params_template r)
    (params_state r) (unique_name r) (name r) (device_registry_id r).
Definition set_sequence (v : option pyval) (r : t) : t :=
  mk (type_code r) (type_name r) v (slot r) (params_template r)
    (params_state r) (unique_name r) (name r) (device_registry_id r).
Definition set_slot (v : option pyval) (r : t) : t :=
  mk (type_code r) (type_name r) (sequence r) v (params_template r)
    (params_state r) (unique_name r) (name r) (device_registry_id r).
Definition set_params_template (v : option string) (r : t) : t :=
  mk (type_code r) (type_name r) (sequence r) (slot r) v (params_state r)
    (unique_name r) (name r) (device_registry_id r).
Definition set_params_state (v : option (gmap string string)) (r : t) : t :=
  mk (type_code r) (type_name r) (sequence r) (slot r) (params_template r) v
    (unique_name r) (name r) (device_registry_id r).
Definition set_unique_name (v : option string) (r : t) : t :=
  mk (type_code r) (type_name r) (sequence r) (slot r) (params_template r)
    (params_state r) v (name r) (device_registry_id r).
Definition set_name (v : option string) (r : t) : t :=
  mk (type_code r) (type_name r) (sequence r) (slot r) (params_template r)
    (params_state r) (unique_name r) v (device_registry_id r).
Definition set_device_registry_id (v : option string) (r : t) : t :=
  mk (type_code r) (type_name r) (sequence r) (slot r) (params_template r)
    (params_state r) (unique_name r) (name r) v.

Definition empty : t := mk None None None None None None None None None.

#[global] Instance eq_dec : EqDecision t.
Proof.
  intros [a1 b1 c1 d1 e1 f1 g1 h1 i1] [a2 b2 c2 d2 e2 f2 g2 h2 i2].
  destruct (decide (a1 = a2)); [|right; congruence].
  destruct (decide (b1 = b2)); [|right; congruence].
  destruct (decide (c1 = c2)); [|right; congruence].
  destruct (decide (d1 = d2)); [|right; congruence].
  destruct (decide (e1 = e2)); [|right; congruence].
  destruct (decide (f1 = f2)); [|right; congruence].
  destruct (decide (g1 = g2)); [|right; congruence].
  destruct (decide (h1 = h2)); [|right; congruence].
  destruct (decide (i1 = i2)); [|right; congruence].
  left; congruence.
Defined.

End Meta.

(** The dictionary built by [_build_candidate_details]. *)
Record candidate := mkCandidate {
  c_device_id : string;
  c_type_code : option string;
  c_firmware : option string;
  c_raw : gmap string string;
  c_type_name : option string
}.

#[global] Instance candidate_eq_dec : EqDecision candidate.
Proof.
  intros [a1 b1 c1 d1 e1] [a2 b2 c2 d2 e2].
  destruct (decide (a1 = a2)); [|right; congruence].
  destruct (decide (b1 = b2)); [|right; congruence].
  destruct (decide (c1 = c2)); [|right; congruence].
  destruct (decide (d1 = d2)); [|right; congruence].
  destruct (decide (e1 = e2)); [|right; congruence].
  left; congruence.
Defined.

(** What a future is resolved with. *)
Inductive fval :=
| VCandidate (c : option candidate)
| VTrue.

#[global] Instance fval_eq_dec : EqDecision fval.
Proof. solve_decision. Defined.

Inductive fstate :=
| FPending
| FResult (v : fval)
| FException (e : exn)
| FCancelled.

#[global] Instance fstate_eq_dec : EqDecision fstate.
Proof. solve_decision. Defined.

(** The coordinator that created a future (bookkeeping of the model). *)
Inductive owner := OwnPairing | OwnDeletion | OwnParameter.

#[global] Instance owner_eq_dec : EqDecision owner.
Proof. solve_decision. Defined.

Record future := mkFuture {
  f_owner : owner;
  f_state : fstate
}.

(** [fut.done()] *)
Definition done (f : future) : bool :=
  match f_state f with FPending => false | _ => true end.

(** What the event loop runs when a [call_later] handle or a sleeping task
    becomes due. *)
Inductive callback :=
| PairingOnTimeout                    (* AjaxPairingCoordinator._on_timeout *)
| PairingWrkFallback                  (* ._send_wrk_fallback *)
| PairingExitSend (command : string)  (* the closure of ._send_exit_command *)
| SendCmd (cmd : string)              (* protocol.send_cmd, cmd *)
| ListSendWrk                         (* the closure of _schedule_wrk_send *)
| ListTimeout                         (* _async_device_list_timeout, after its sleep *)
| DelayedStop                         (* _delayed_stop, after its sleep *)
| RefreshThenExit                     (* _refresh_then_exit, after its sleep *)
| PostDeleteRefresh                   (* the end of async_delete, after its sleep *)
| DeleteWaitTimeout                   (* the 15 s of wait_for in async_delete *)
| ParameterWaitTimeout.               (* the 15 s of wait_for in async_set *)

Record timer := mkTimer {
  t_callback : callback;
  t_live : bool        (* neither cancelled nor run yet *)
}.

Module Pairing.

Inductive stage :=
| await_stop_result
| await_stop_clear
| await_add_result
| await_device
| await_confirmation
| waiting_finalize.

Inductive exit_stage :=
| await_stt_result
| await_wrk_result.

#[global] Instance stage_eq_dec : EqDecision stage.
Proof. solve_decision. Defined.

#[global] Instance exit_stage_eq_dec : EqDecision exit_stage.
Proof. solve_decision. Defined.

(** The attributes of [AjaxPairingCoordinator]; handles and futures are
    indices into the tables of the event loop. *)
Record t := mk {
  _active : bool;
  _flow_id : option string;
  _stage : option stage;
  _timeout_handle : option nat;
  _search_future : option nat;
  _finalize_future : option nat;
  _candidate : option candidate;
  _in_engineering : bool;
  _exit_pending : bool;
  _exit_stage : option exit_stage;
  _exit_timeout_handle : option nat;
  _exit_command_handle : option nat;
  _stop_retries : nat;
  _requested_stop : bool
}.

Definition set_active (v : bool) (r : t) : t :=
  mk v (_flow_id r) (_stage r) (_timeout_handle r) (_search_future r)
    (_finalize_future r) (_candidate r) (_in_engineering r) (_exit_pending r)
    (_exit_stage r) (_exit_timeout_handle r) (_exit_command_handle r)
    (_stop_retries r) (_requested_stop r).
Definition set_flow_id (v : option string) (r : t) : t :=
  mk (_active r) v (_stage r) (_timeout_handle r) (_search_future r)
    (_finalize_future r) (_candidate r) (_in_engineering r) (_exit_pending r)
    (_exit_stage r) (_exit_timeout_handle r) (_exit_command_handle r)
    (_stop_retries r) (_requested_stop r).
Definition set_stage (v : option stage) (r : t) : t :=
  mk (_active r) (_flow_id r) v (_timeout_handle r) (_search_future r)
    (_finalize_future r) (_candidate r) (_in_engineering r) (_exit_pending r)
    (_exit_stage r) (_exit_timeout_handle r) (_exit_command_handle r)
    (_stop_retries r) (_requested_stop r).
Definition set_timeout_handle (v : option nat) (r : t) : t :=
  mk (_active r) (_flow_id r) (_stage r) v (_search_future r)
    (_finalize_future r) (_candidate r) (_in_engineering r) (_exit_pending r)
    (_exit_stage r) (_exit_timeout_handle r) (_exit_command_handle r)
    (_stop_retries r) (_requested_stop r).
Definition set_search_future (v : option nat) (r : t) : t :=
  mk (_active r) (_flow_id r) (_stage r) (_timeout_handle r) v
    (_finalize_future r) (_candidate r) (_in_engineering r) (_exit_pending r)
    (_exit_stage r) (_exit_timeout_handle r) (_exit_command_handle r)
    (_stop_retries r) (_requested_stop r).
Definition set_finalize_future (v : option nat) (r : t) : t :=
  mk (_active r) (_flow_id r) (_stage r) (_timeout_handle r)
    (_search_future r) v (_candidate r) (_in_engineering r) (_exit_pending r)
    (_exit_stage r) (_exit_timeout_handle r) (_exit_command_handle r)
    (_stop_retries r) (_requested_stop r).
Definition set_candidate (v : option candidate) (r : t) : t :=
  mk (_active r) (_flow_id r) (_stage r) (_timeout_handle r)
    (_search_future r) (_finalize_future r) v (_in_engineering r)
    (_exit_pending r) (_exit_stage r) (_exit_timeout_handle r)
    (_exit_command_handle r) (_stop_retries r) (_requested_stop r).
Definition set_in_engineering (v : bool) (r : t) : t :=
  mk (_active r) (_flow_id r) (_stage r) (_timeout_handle r)
    (_search_future r) (_finalize_future r) (_candidate r) v
    (_exit_pending r) (_exit_stage r) (_exit_timeout_handle r)
    (_exit_command_handle r) (_stop_retries r) (_requested_stop r).
Definition set_exit_pending (v : bool) (r : t) : t :=
  mk (_active r) (_flow_id r) (_stage r) (_timeout_handle r)
    (_search_future r) (_finalize_future r) (_candidate r)
    (_in_engineering r) v (_exit_stage r) (_exit_timeout_handle r)
    (_exit_command_handle r) (_stop_retries r) (_requested_stop r).
Definition set_exit_stage (v : option exit_stage) (r : t) : t :=
  mk (_active r) (_flow_id r) (_stage r) (_timeout_handle r)
    (_search_future r) (_finalize_future r) (_candidate r)
    (_in_engineering r) (_exit_pending r) v (_exit_timeout_handle r)
    (_exit_command_handle r) (_stop_retries r) (_requested_stop r).
Definition set_exit_timeout_handle (v : option nat) (r : t) : t :=
  mk (_active r) (_flow_id r) (_stage r) (_timeout_handle r)
    (_search_future r) (_finalize_future r) (_candidate r)
    (_in_engineering r) (_exit_pending r) (_exit_stage r) v
    (_exit_command_handle r) (_stop_retries r) (_requested_stop r).
Definition set_exit_command_handle (v : option nat) (r : t) : t :=
  mk (_active r) (_flow_id r) (_stage r) (_timeout_handle r)
    (_search_future r) (_finalize_future r) (_candidate r)
    (_in_engineering r) (_exit_pending r) (_exit_stage r)
    (_exit_timeout_handle r) v (_stop_retries r) (_requested_stop r).
Definition set_stop_retries (v : nat) (r : t) : t :=
  mk (_active r) (_flow_id r) (_stage r) (_timeout_handle r)
    (_search_future r) (_finalize_future r) (_candidate r)
    (_in_engineering r) (_exit_pending r) (_exit_stage r)
    (_exit_timeout_handle r) (_exit_command_handle r) v (_requested_stop r).
Definition set_requested_stop (v : bool) (r : t) : t :=
  mk (_active r) (_flow_id r) (_stage r) (_timeout_handle r)
    (_search_future r) (_finalize_future r) (_candidate r)
    (_in_engineering r) (_exit_pending r) (_exit_stage r)
    (_exit_timeout_handle r) (_exit_command_handle r) (_stop_retries r) v.

(** [__init__] *)
Definition init : t :=
  mk false None None None None None None false false None None None 0 false.

End Pairing.

Module Deletion.

Inductive stage := await_stop | await_delete | await_wrk.

#[global] Instance stage_eq_dec : EqDecision stage.
Proof. solve_decision. Defined.

(** The attributes of [AjaxDeletionCoordinator].  [waiter] is the
    [async_delete] coroutine suspended in [wait_for]: the future it awaits,
    the handle of its timeout and its device id; [_lock] is held exactly
    while it exists. *)
Record t := mk {
  _future : option nat;
  _stage : option stage;
  _device_id : option string;
  waiter : option (nat * nat * string)
}.

Definition set_future (v : option nat) (r : t) : t :=
  mk v (_stage r) (_device_id r) (waiter r).
Definition set_stage (v : option stage) (r : t) : t :=
  mk (_future r) v (_device_id r) (waiter r).
Definition set_device_id (v : option string) (r : t) : t :=
  mk (_future r) (_stage r) v (waiter r).
Definition set_waiter (v : option (nat * nat * string)) (r : t) : t :=
  mk (_future r) (_stage r) (_device_id r) v.

Definition init : t := mk None None None None.

(** [busy] *)
Definition busy (d : t) : bool := bool_decide (_future d ≠ None).

(** [self._lock.locked()] *)
Definition locked (d : t) : bool := bool_decide (waiter d ≠ None).

End Deletion.

Module ParamUpdate.

Inductive stage := await_stop | await_command | await_wrk.

#[global] Instance stage_eq_dec : EqDecision stage.
Proof. solve_decision. Defined.

(** The attributes of [AjaxParameterCoordinator]; [waiter] is the suspended
    [async_set] coroutine (future awaited, handle of its timeout). *)
Record t := mk {
  _future : option nat;
  _stage : option stage;
  _device_id : option string;
  _command : option string;
  waiter : option (nat * nat)
}.

Definition set_future (v : option nat) (r : t) : t :=
  mk v (_stage r) (_device_id r) (_command r) (waiter r).
Definition set_stage (v : option stage) (r : t) : t :=
  mk (_future r) v (_device_id r) (_command r) (waiter r).
Definition set_device_id (v : option string) (r : t) : t :=
  mk (_future r) (_stage r) v (_command r) (waiter r).
Definition set_command (v : option string) (r : t) : t :=
  mk (_future r) (_stage r) (_device_id r) v (waiter r).
Definition set_waiter (v : option (nat * nat)) (r : t) : t :=
  mk (_future r) (_stage r) (_device_id r) (_command r) v.

Definition init : t := mk None None None None None.

Definition busy (d : t) : bool := bool_decide (_future d ≠ None).

Definition locked (d : t) : bool := bool_decide (waiter d ≠ None).

End ParamUpdate.

(** The values of [entry_data["list_stage"]]. *)
Inductive refresh_stage := stage_stop | stage_lst | stage_wrk.

#[global] Instance refresh_stage_eq_dec : EqDecision refresh_stage.
Proof. solve_decision. Defined.

Module EntryData.

(** The keys of the shared [entry_data] dictionary the core reads and
    writes.  [protocol] tells whether the key holds the open connection. *)
Record t := mk {
  protocol : bool;
  devices : gmap string Meta.t;
  allowed_ids : gset string;
  list_active : bool;
  list_stage : option refresh_stage;
  list_retries : nat;
  list_pending : option (gmap string Meta.t);
  devices_snapshot : option (gmap string Meta.t);
  list_timeout_task : option nat;
  list_wrk_handle : option nat;
  hub_device_code : option string
}.

Definition set_protocol (v : bool) (r : t) : t :=
  mk v (devices r) (allowed_ids r) (list_active r) (list_stage r)
    (list_retries r) (list_pending r) (devices_snapshot r)
    (list_timeout_task r) (list_wrk_handle r) (hub_device_code r).
Definition set_devices (v : gmap string Meta.t) (r : t) : t :=
  mk (protocol r) v (allowed_ids r) (list_active r) (list_stage r)
    (list_retries r) (list_pending r) (devices_snapshot r)
    (list_timeout_task r) (list_wrk_handle r) (hub_device_code r).
Definition set_allowed_ids (v : gset string) (r : t) : t :=
  mk (protocol r) (devices r) v (list_active r) (list_stage r)
    (list_retries r) (list_pending r) (devices_snapshot r)
    (list_timeout_task r) (list_wrk_handle r) (hub_device_code r).
Definition set_list_active (v : bool) (r : t) : t :=
  mk (protocol r) (devices r) (allowed_ids r) v (list_stage r)
    (list_retries r) (list_pending r) (devices_snapshot r)
    (list_timeout_task r) (list_wrk_handle r) (hub_device_code r).
Definition set_list_stage (v : option refresh_stage) (r : t) : t :=
  mk (protocol r) (devices r) (allowed_ids r) (list_active r) v
    (list_retries r) (list_pending r) (devices_snapshot r)
    (list_timeout_task r) (list_wrk_handle r) (hub_device_code r).
Definition set_list_retries (v : nat) (r : t) : t :=
  mk (protocol r) (devices r) (allowed_ids r) (list_active r) (list_stage r)
    v (list_pending r) (devices_snapshot r) (list_timeout_task r)
    (list_wrk_handle r) (hub_device_code r).
Definition set_list_pending (v : option (gmap string Meta.t)) (r : t) : t :=
  mk (protocol r) (devices r) (allowed_ids r) (list_active r) (list_stage r)
    (list_retries r) v (devices_snapshot r) (list_timeout_task r)
    (list_wrk_handle r) (hub_device_code r).
Definition set_devices_snapshot (v : option (gmap string Meta.t)) (r : t) : t :=
  mk (protocol r) (devices r) (allowed_ids r) (list_active r) (list_stage r)
    (list_retries r) (list_pending r) v (list_timeout_task r)
    (list_wrk_handle r) (hub_device_code r).
Definition set_list_timeout_task (v : option nat) (r : t) : t :=
  mk (protocol r) (devices r) (allowed_ids r) (list_active r) (list_stage r)
    (list_retries r) (list_pending r) (devices_snapshot r) v
    (list_wrk_handle r) (hub_device_code r).
Definition set_list_wrk_handle (v : option nat) (r : t) : t :=
  mk (protocol r) (devices r) (allowed_ids r) (list_active r) (list_stage r)
    (list_retries r) (list_pending r) (devices_snapshot r)
    (list_timeout_task r) v (hub_device_code r).
Definition set_hub_device_code (v : option string) (r : t) : t :=
  mk (protocol r) (devices r) (allowed_ids r) (list_active r) (list_stage r)
    (list_retries r) (list_pending r) (devices_snapshot r)
    (list_timeout_task r) (list_wrk_handle r) v.

(** As [async_setup_entry] creates it. *)
Definition init : t :=
  mk false ∅ ∅ false None 0 None None None None None.

End EntryData.

Module World.

(** The bridge: [entry_data] with its three coordinators, the tables of the
    event loop, the commands written to the wire so far, the ids of the
    registry entries removed so far and the events passed on to the
    presentation layer. *)
Record t := mk {
  entry_data : EntryData.t;
  pairing_manager : Pairing.t;
  delete_manager : Deletion.t;
  parameter_coordinator : ParamUpdate.t;
  timers : list timer;
  futures : list future;
  wire : list string;
  registry_removed : gset string;
  dispatched : list pydict
}.

Definition set_entry_data (v : EntryData.t) (r : t) : t :=
  mk v (pairing_manager r) (delete_manager r) (parameter_coordinator r)
    (timers r) (futures r) (wire r) (registry_removed r) (dispatched r).
Definition set_pairing_manager (v : Pairing.t) (r : t) : t :=
  mk (entry_data r) v (delete_manager r) (parameter_coordinator r) (timers r)
    (futures r) (wire r) (registry_removed r) (dispatched r).
Definition set_delete_manager (v : Deletion.t) (r : t) : t :=
  mk (entry_data r) (pairing_manager r) v (parameter_coordinator r)
    (timers r) (futures r) (wire r) (registry_removed r) (dispatched r).
Definition set_parameter_coordinator (v : ParamUpdate.t) (r : t) : t :=
  mk (entry_data r) (pairing_manager r) (delete_manager r) v (timers r)
    (futures r) (wire r) (registry_removed r) (dispatched r).
Definition set_timers (v : list timer) (r : t) : t :=
  mk (entry_data r) (pairing_manager r) (delete_manager r)
    (parameter_coordinator r) v (futures r) (wire r) (registry_removed r)
    (dispatched r).
Definition set_futures (v : list future) (r : t) : t :=
  mk (entry_data r) (pairing_manager r) (delete_manager r)
    (parameter_coordinator r) (timers r) v (wire r) (registry_removed r)
    (dispatched r).
Definition set_wire (v : list string) (r : t) : t :=
  mk (entry_data r) (pairing_manager r) (delete_manager r)
    (parameter_coordinator r) (timers r) (futures r) v (registry_removed r)
    (dispatched r).
Definition set_registry_removed (v : gset string) (r : t) : t :=
  mk (entry_data r) (pairing_manager r) (delete_manager r)
    (parameter_coordinator r) (timers r) (futures r) (wire r) v
    (dispatched r).
Definition set_dispatched (v : list pydict) (r : t) : t :=
  mk (entry_data r) (pairing_manager r) (delete_manager r)
    (parameter_coordinator r) (timers r) (futures r) (wire r)
    (registry_removed r) v.

Definition init : t :=
  mk EntryData.init Pairing.init Deletion.init ParamUpdate.init [] [] [] ∅ [].

End World.

(** ** Computations over the bridge

    A method runs on the bridge and returns a value or raises; what it
    changed before raising stays changed. *)

Definition M (A : Type) : Type := World.t → result A * World.t.

#[global] Instance M_bind : MBind M := λ A B k m w,
  match m w with
  | (Ok a, w') => k a w'
  | (Raise e, w') => (Raise e, w')
  end.

#[global] Instance M_ret : MRet M := λ A a w, (Ok a, w).

Definition raise {A} (e : exn) : M A := λ w, (Raise e, w).

Definition lift {A} (r : result A) : M A := λ w, (r, w).

Definition modify (f : World.t → World.t) : M unit := λ w, (Ok tt, f w).

(** [try: m except Exception: h]; [CancelledError] is no [Exception]. *)
Definition try_except {A} (m : M A) (h : exn → M A) : M A := λ w,
  match m w with
  | (Raise CancelledError, w') => (Raise CancelledError, w')
  | (Raise e, w') => h e w'
  | r => r
  end.

Definition when (b : bool) (m : M unit) : M unit :=
  if b then m else mret tt.

Definition the_pairing : M Pairing.t := λ w, (Ok (World.pairing_manager w), w).
Definition the_deletion : M Deletion.t := λ w, (Ok (World.delete_manager w), w).
Definition the_parameter : M ParamUpdate.t :=
  λ w, (Ok (World.parameter_coordinator w), w).
Definition the_entry_data : M EntryData.t := λ w, (Ok (World.entry_data w), w).
Definition the_futures : M (list future) := λ w, (Ok (World.futures w), w).

Definition on_pairing (f : Pairing.t → Pairing.t) : M unit :=
  modify (λ w, World.set_pairing_manager (f (World.pairing_manager w)) w).
Definition on_deletion (f : Deletion.t → Deletion.t) : M unit :=
  modify (λ w, World.set_delete_manager (f (World.delete_manager w)) w).
Definition on_parameter (f : ParamUpdate.t → ParamUpdate.t) : M unit :=
  modify (λ w,
    World.set_parameter_coordinator (f (World.parameter_coordinator w)) w).
Definition on_entry_data (f : EntryData.t → EntryData.t) : M unit :=
  modify (λ w, World.set_entry_data (f (World.entry_data w)) w).

(** *** The wire, timers and futures *)

(** [protocol.send_cmd(cmd)] *)
Definition send_cmd (cmd : string) : M unit :=
  modify (λ w, World.set_wire (World.wire w ++ [cmd]) w).

(** [loop.call_later(delay, cb)], and a task that starts with a sleep: the
    new handle is the next index of the table. *)
Definition call_later (cb : callback) : M nat := λ w,
  (Ok (length (World.timers w)),
   World.set_timers (World.timers w ++ [mkTimer cb true]) w).

(** [handle.cancel()] *)
Definition cancel_handle (h : nat) : M unit :=
  modify (λ w,
    World.set_timers
      (alter (λ t, mkTimer (t_callback t) false) h (World.timers w)) w).

(** [if handle: handle.cancel()] *)
Definition cancel_if_set (h : option nat) : M unit :=
  match h with
  | Some i => cancel_handle i
  | None => mret tt
  end.

(** [loop.create_future()] *)
Definition create_future (o : owner) : M nat := λ w,
  (Ok (length (World.futures w)),
   World.set_futures (World.futures w ++ [mkFuture o FPending]) w).

(** [fut.done()] *)
Definition future_done (i : nat) : M bool := λ w,
  (Ok (default true (done <$> World.futures w !! i)), w).

(** [fut.set_result(v)] and [fut.set_exception(e)]: asyncio raises
    [InvalidStateError] on a future that is done. *)
Definition resolve (i : nat) (st : fstate) : M unit := λ w,
  match World.futures w !! i with
  | Some f =>
      if done f then (Raise InvalidStateError, w)
      else (Ok tt,
            World.set_futures
              (<[i := mkFuture (f_owner f) st]> (World.futures w)) w)
  | None => (Raise InvalidStateError, w)
  end.

Definition set_result (i : nat) (v : fval) : M unit := resolve i (FResult v).
Definition set_exception (i : nat) (e : exn) : M unit :=
  resolve i (FException e).

(** [fut.cancel()]: nothing happens to a future that is done. *)
Definition future_cancel (i : nat) : M unit :=
  modify (λ w,
    World.set_futures
      (alter (λ f, if done f then f else mkFuture (f_owner f) FCancelled) i
         (World.futures w)) w).

(** [fut and not fut.done()] *)
Definition is_pending (fut : option nat) : M bool :=
  match fut with
  | Some i => d ← future_done i; mret (negb d)
  | None => mret false
  end.

(** [fut.set_exception(e)] and [fut.set_result(v)] on an attribute that
    holds a future. *)
Definition set_exception_on (fut : option nat) (e : exn) : M unit :=
  match fut with
  | Some i => set_exception i e
  | None => raise (AttributeError "set_exception")
  end.

Definition set_result_on (fut : option nat) (v : fval) : M unit :=
  match fut with
  | Some i => set_result i v
  | None => raise (AttributeError "set_result")
  end.

(** *** Reading an event *)

(** [event.get(k) or ""] *)
Definition get_or_empty (event : pydict) (k : string) : pyval :=
  match event !! k with
  | Some v => if truthy v then v else PStr ""
  | None => PStr ""
  end.

(** [v.upper()] and [v.strip()]: only a [str] has the method. *)
Definition val_upper (v : pyval) : result string :=
  match v with
  | PStr s => Ok (PyStr.upper s)
  | _ => Raise (AttributeError "upper")
  end.

Definition val_strip (v : pyval) : result string :=
  match v with
  | PStr s => Ok (PyStr.strip s)
  | _ => Raise (AttributeError "strip")
  end.

Fixpoint chars (s : string) : list string :=
  match s with
  | EmptyString => []
  | String c r => String c EmptyString :: chars r
  end.

(** The items of [event.get("event") or []] when it is iterated: the
    tokens of a list, the characters of a string. *)
Definition iter_tokens (event : pydict) : result (list string) :=
  match event !! "event" with
  | Some (PList l) => Ok l
  | Some (PStr s) => Ok (chars s)
  | Some v => if truthy v then Raise (TypeError "object is not iterable") else Ok []
  | None => Ok []
  end.

(** [str(event.get("device_id", "")).upper()] *)
Definition event_device_id (lib : Library) (event : pydict) : string :=
  PyStr.upper (py_str lib (default (PStr "") (event !! "device_id"))).

(** The set [{"", "0", "2"}] of codes that accompany [OK]. *)
Definition ok_codes : list string := [""; "0"; "2"].

Definition is_in (s : string) (l : list string) : bool := bool_decide (s ∈ l).

(** ** The pairing coordinator *)

(** [_parse_event_tokens]: the attributes of the tokens after the first. *)
Fixpoint event_attributes (attributes : gmap string string)
    (tokens : list string) : gmap string string :=
  match tokens with
  | [] => attributes
  | token :: rest =>
      let token := PyStr.strip token in
      if bool_decide (token = "") then event_attributes attributes rest
      else if negb (PyStr.contains "="%char token) then
        event_attributes attributes rest
      else
        let '(key, value) := PyStr.split_first "="%char token in
        event_attributes
          (<[PyStr.upper key := default "" value]> attributes) rest
  end.

Definition _parse_event_tokens (tokens : list string)
    : option string * gmap string string :=
  match tokens with
  | [] => (None, ∅)
  | first :: rest =>
      (Some (PyStr.upper (PyStr.strip first)), event_attributes ∅ rest)
  end.

(** Truthiness of [attributes.get(k)] *)
Definition attr_set (attributes : gmap string string) (k : string) : bool :=
  match attributes !! k with
  | Some v => negb (bool_decide (v = ""))
  | None => false
  end.

Definition nonempty (o : option string) : bool :=
  match o with
  | Some s => negb (bool_decide (s = ""))
  | None => false
  end.

Definition _build_candidate_details (lib : Library) (device_id : string)
    (attrs : gmap string string) : candidate :=
  let type_code := attrs !! "TYP" in
  mkCandidate device_id type_code (attrs !! "VER") attrs
    (if nonempty type_code then
       match device_model lib type_code with
       | Some m => if bool_decide (m = "") then type_code else Some m
       | None => type_code
       end
     else None).

Module AjaxPairingCoordinator.

Definition _cancel_exit_command : M unit :=
  p ← the_pairing;
  cancel_if_set (Pairing._exit_command_handle p);;
  on_pairing (Pairing.set_exit_command_handle None).

Definition _reset_timeout : M unit :=
  p ← the_pairing;
  cancel_if_set (Pairing._timeout_handle p);;
  h ← call_later PairingOnTimeout;
  on_pairing (Pairing.set_timeout_handle (Some h)).

(** The delay is the time after which the loop runs the closure; also
    with a delay of [0.0] that is a later turn of the loop. *)
Definition _send_exit_command (command : string) (stage : Pairing.exit_stage)
    : M unit :=
  on_pairing (Pairing.set_exit_stage (Some stage));;
  _cancel_exit_command;;
  h ← call_later (PairingExitSend command);
  on_pairing (Pairing.set_exit_command_handle (Some h)).

Definition _restart_wrk_fallback_timer : M unit :=
  p ← the_pairing;
  cancel_if_set (Pairing._exit_timeout_handle p);;
  h ← call_later PairingWrkFallback;
  on_pairing (Pairing.set_exit_timeout_handle (Some h)).

Definition _complete_exit_success : M unit :=
  on_pairing (Pairing.set_exit_pending false);;
  on_pairing (Pairing.set_exit_stage None);;
  on_pairing (Pairing.set_in_engineering false);;
  on_pairing (Pairing.set_candidate None);;
  p ← the_pairing;
  match Pairing._exit_timeout_handle p with
  | Some h =>
      cancel_handle h;; on_pairing (Pairing.set_exit_timeout_handle None)
  | None => mret tt
  end;;
  _cancel_exit_command;;
  on_pairing (Pairing.set_requested_stop false).

Definition early_stage (s : option Pairing.stage) : bool :=
  match s with
  | Some Pairing.await_stop_result | Some Pairing.await_stop_clear
  | Some Pairing.await_add_result | Some Pairing.await_device => true
  | _ => false
  end.

Definition _cleanup (send_wrk force_exit : bool) : M unit :=
  p ← the_pairing;
  match Pairing._timeout_handle p with
  | Some h => cancel_handle h;; on_pairing (Pairing.set_timeout_handle None)
  | None => mret tt
  end;;
  ed ← the_entry_data;
  let protocol := EntryData.protocol ed in
  p ← the_pairing;
  let should_exit :=
    send_wrk && protocol &&
    (force_exit || Pairing._in_engineering p || Pairing._requested_stop p
     || early_stage (Pairing._stage p)) in
  (if should_exit && protocol then
     on_pairing (Pairing.set_exit_pending true);;
     cancel_if_set (Pairing._exit_timeout_handle p);;
     h ← call_later PairingWrkFallback;
     on_pairing (Pairing.set_exit_timeout_handle (Some h));;
     _send_exit_command "stt" Pairing.await_stt_result
   else
     on_pairing (Pairing.set_exit_pending false);;
     on_pairing (Pairing.set_exit_stage None);;
     on_pairing (Pairing.set_in_engineering false);;
     match Pairing._exit_timeout_handle p with
     | Some h =>
         cancel_handle h;; on_pairing (Pairing.set_exit_timeout_handle None)
     | None => mret tt
     end;;
     _cancel_exit_command);;
  on_pairing (Pairing.set_active false);;
  on_pairing (Pairing.set_stage None);;
  on_pairing (Pairing.set_flow_id None);;
  on_pairing (Pairing.set_candidate None);;
  on_pairing (Pairing.set_search_future None);;
  on_pairing (Pairing.set_finalize_future None);;
  p ← the_pairing;
  when (negb (Pairing._exit_pending p))
    (on_pairing (Pairing.set_in_engineering false);;
     on_pairing (Pairing.set_requested_stop false)).

Definition start_search (flow_id : string) : M nat :=
  p ← the_pairing;
  if Pairing._active p then raise (PairingError "busy")
  else if Pairing._exit_pending p then raise (PairingError "busy")
  else
    ed ← the_entry_data;
    if EntryData.list_active ed then raise (PairingError "busy")
    else if negb (EntryData.protocol ed) then raise (PairingError "not_ready")
    else
      match Pairing._exit_timeout_handle p with
      | Some h =>
          cancel_handle h;; on_pairing (Pairing.set_exit_timeout_handle None)
      | None => mret tt
      end;;
      _cancel_exit_command;;
      on_pairing (Pairing.set_exit_pending false);;
      on_pairing (Pairing.set_exit_stage None);;
      on_pairing (Pairing.set_active true);;
      on_pairing (Pairing.set_flow_id (Some flow_id));;
      on_pairing (Pairing.set_stage (Some Pairing.await_stop_result));;
      on_pairing (Pairing.set_candidate None);;
      on_pairing (Pairing.set_finalize_future None);;
      fut ← create_future OwnPairing;
      on_pairing (Pairing.set_search_future (Some fut));;
      on_pairing (Pairing.set_in_engineering false);;
      on_pairing (Pairing.set_stop_retries 0);;
      _reset_timeout;;
      send_cmd "stop";;
      on_pairing (Pairing.set_requested_stop true);;
      mret fut.

(** [cancel(reason=..., immediate=...)] *)
Definition cancel (reason : string) (immediate : bool) : M unit :=
  p ← the_pairing;
  if negb (Pairing._active p) && negb immediate then mret tt
  else
    let exc :=
      if bool_decide (reason = "timeout") then PairingTimeoutError reason
      else PairingCancelledError reason in
    b ← is_pending (Pairing._finalize_future p);
    when b (set_exception_on (Pairing._finalize_future p) exc);;
    b ← is_pending (Pairing._search_future p);
    when b (set_exception_on (Pairing._search_future p) exc);;
    _cleanup true immediate.

Definition confirm_candidate (flow_id : string) : M nat :=
  p ← the_pairing;
  if negb (Pairing._active p)
     || negb (bool_decide (Some flow_id = Pairing._flow_id p)) then
    raise (PairingError "no_session")
  else if bool_decide (Pairing._candidate p = None) then
    raise (PairingError "no_candidate")
  else if negb (bool_decide
                  (Pairing._stage p = Some Pairing.await_confirmation)) then
    raise (PairingError "invalid_stage")
  else
    ed ← the_entry_data;
    if negb (EntryData.protocol ed) then raise (PairingError "not_ready")
    else
      on_pairing (Pairing.set_stage (Some Pairing.waiting_finalize));;
      fut ← create_future OwnPairing;
      on_pairing (Pairing.set_finalize_future (Some fut));;
      _reset_timeout;;
      send_cmd "y";;
      mret fut.

Definition force_cleanup : M unit :=
  p ← the_pairing;
  match Pairing._timeout_handle p with
  | Some h => cancel_handle h;; on_pairing (Pairing.set_timeout_handle None)
  | None => mret tt
  end;;
  match Pairing._exit_timeout_handle p with
  | Some h =>
      cancel_handle h;; on_pairing (Pairing.set_exit_timeout_handle None)
  | None => mret tt
  end;;
  match Pairing._exit_command_handle p with
  | Some h =>
      cancel_handle h;; on_pairing (Pairing.set_exit_command_handle None)
  | None => mret tt
  end;;
  b ← is_pending (Pairing._search_future p);
  when b (set_exception_on (Pairing._search_future p)
            (PairingCancelledError "cancelled"));;
  b ← is_pending (Pairing._finalize_future p);
  when b (set_exception_on (Pairing._finalize_future p)
            (PairingCancelledError "cancelled"));;
  on_pairing (Pairing.set_active false);;
  on_pairing (Pairing.set_stage None);;
  on_pairing (Pairing.set_flow_id None);;
  on_pairing (Pairing.set_candidate None);;
  on_pairing (Pairing.set_search_future None);;
  on_pairing (Pairing.set_finalize_future None);;
  on_pairing (Pairing.set_in_engineering false);;
  on_pairing (Pairing.set_requested_stop false).

Definition _fail (reason : string) : M unit :=
  let exc := PairingError reason in
  p ← the_pairing;
  b ← is_pending (Pairing._finalize_future p);
  when b (set_exception_on (Pairing._finalize_future p) exc);;
  b ← is_pending (Pairing._search_future p);
  when b (set_exception_on (Pairing._search_future p) exc);;
  _cleanup true false.

Definition _on_timeout : M unit :=
  p ← the_pairing;
  if negb (Pairing._active p) then mret tt
  else
    let exc := PairingTimeoutError "timeout" in
    b ← is_pending (Pairing._finalize_future p);
    (if (b : bool) then set_exception_on (Pairing._finalize_future p) exc
     else
       b ← is_pending (Pairing._search_future p);
       when b (set_exception_on (Pairing._search_future p) exc));;
    _cleanup true false.

(** [_finalize_success(self, *, refresh)]: [refresh] is keyword-only and has no
    default. *)
Definition _finalize_success (refresh : bool) : M unit :=
  p ← the_pairing;
  let candidate := Pairing._candidate p in
  b ← is_pending (Pairing._finalize_future p);
  (if (b : bool) then
     set_result_on (Pairing._finalize_future p) (VCandidate candidate)
   else
     b ← is_pending (Pairing._search_future p);
     when b (set_result_on (Pairing._search_future p) (VCandidate candidate)));;
  on_pairing (Pairing.set_active false);;
  on_pairing (Pairing.set_stage None);;
  on_pairing (Pairing.set_flow_id None);;
  on_pairing (Pairing.set_search_future None);;
  on_pairing (Pairing.set_finalize_future None);;
  if refresh then
    on_pairing (Pairing.set_candidate candidate);;
    _ ← call_later RefreshThenExit;
    mret tt
  else
    on_pairing (Pairing.set_candidate None);;
    _cleanup true false.

(** The call [self._finalize_success()] of [_handle_result] passes no
    [refresh]: the call itself raises. *)
Definition _finalize_success_without_refresh : M unit :=
  raise (TypeError
    "_finalize_success() missing 1 required keyword-only argument: 'refresh'").

Definition _handle_exit_result (status code : string) : M bool :=
  p ← the_pairing;
  if bool_decide (Pairing._exit_stage p = Some Pairing.await_stt_result) then
    if bool_decide (status = "OK") && is_in code ok_codes then
      _restart_wrk_fallback_timer;;
      _send_exit_command "wrk" Pairing.await_wrk_result;;
      mret true
    else if bool_decide (status = "NAK") && bool_decide (code = "2") then
      _send_exit_command "stt" Pairing.await_stt_result;;
      mret true
    else
      _send_exit_command "stt" Pairing.await_stt_result;;
      mret true
  else if bool_decide (Pairing._exit_stage p = Some Pairing.await_wrk_result)
  then
    if bool_decide (status = "OK") && is_in code ok_codes then
      _complete_exit_success;;
      mret true
    else
      _restart_wrk_fallback_timer;;
      _send_exit_command "wrk" Pairing.await_wrk_result;;
      mret true
  else mret false.

Definition _send_wrk_fallback : M unit :=
  p ← the_pairing;
  if negb (Pairing._exit_pending p) then mret tt
  else
    _restart_wrk_fallback_timer;;
    _send_exit_command "wrk" Pairing.await_wrk_result.

(** The closure [_send] of [_send_exit_command]. *)
Definition exit_send (command : string) : M unit :=
  p ← the_pairing;
  if negb (Pairing._exit_pending p) then mret tt
  else
    ed ← the_entry_data;
    if negb (EntryData.protocol ed) then mret tt
    else send_cmd command.

(** [payload[0]] of [_handle_exit_event], when the payload is truthy. *)
Definition first_item (event : pydict) : result (option string) :=
  match event !! "event" with
  | Some (PList l) => Ok (head l)
  | Some (PStr s) => Ok (head (chars s))
  | Some v =>
      if truthy v then Raise (TypeError "object is not subscriptable")
      else Ok None
  | None => Ok None
  end.

Definition _handle_exit_event (event : pydict) : M unit :=
  p ← the_pairing;
  if negb (bool_decide
             (Pairing._exit_stage p = Some Pairing.await_stt_result)) then
    mret tt
  else
    payload ← lift (first_item event);
    match payload with
    | None => mret tt
    | Some first =>
        if bool_decide (PyStr.upper (PyStr.strip first) = "SYSTEM") then
          _send_exit_command "stt" Pairing.await_stt_result
        else mret tt
    end.

Definition _handle_result (event : pydict) : M bool :=
  status ← lift (val_upper (get_or_empty event "status"));
  code ← lift (val_strip (get_or_empty event "code"));
  ed ← the_entry_data;
  let protocol := EntryData.protocol ed in
  p ← the_pairing;
  if Pairing._exit_pending p then _handle_exit_result status code
  else
    match Pairing._stage p with
    | Some Pairing.await_stop_result =>
        if bool_decide (status = "OK") && is_in code ok_codes then
          on_pairing (Pairing.set_stage (Some Pairing.await_add_result));;
          on_pairing (Pairing.set_in_engineering true);;
          _reset_timeout;;
          when protocol (send_cmd "add");;
          mret true
        else if bool_decide (status = "NAK") && bool_decide (code = "2") then
          if (3 <=? Pairing._stop_retries p)%nat then
            _fail "busy";; mret true
          else
            on_pairing
              (Pairing.set_stop_retries (Pairing._stop_retries p + 1));;
            on_pairing (Pairing.set_stage (Some Pairing.await_stop_clear));;
            _reset_timeout;;
            when protocol (send_cmd "stt");;
            mret true
        else if bool_decide (status = "NAK") && bool_decide (code = "0") then
          if (3 <=? Pairing._stop_retries p)%nat then
            _fail "stop_failed";; mret true
          else
            on_pairing
              (Pairing.set_stop_retries (Pairing._stop_retries p + 1));;
            on_pairing (Pairing.set_stage (Some Pairing.await_stop_result));;
            _reset_timeout;;
            when protocol (send_cmd "stop");;
            mret true
        else
          _fail "stop_failed";; mret true
    | Some Pairing.await_stop_clear =>
        if is_in status ["OK"; "NAK"] && is_in code ok_codes then
          on_pairing (Pairing.set_stage (Some Pairing.await_stop_result));;
          _reset_timeout;;
          when protocol (send_cmd "stop");;
          mret true
        else
          _fail "stop_failed";; mret true
    | Some Pairing.await_add_result =>
        (if bool_decide (status = "OK") then
           on_pairing (Pairing.set_stage (Some Pairing.await_device));;
           _reset_timeout
         else _fail "add_failed");;
        mret true
    | Some Pairing.waiting_finalize =>
        (if bool_decide (status = "OK") then
           _finalize_success_without_refresh
         else _fail "confirm_failed");;
        mret true
    | _ => mret false
    end.

Section WithLibrary.

Variable lib : Library.

Definition _handle_event_line (event : pydict) : M bool :=
  tokens ← lift (iter_tokens event);
  if bool_decide (tokens = []) then mret false
  else
    let '(device_id, attributes) := _parse_event_tokens tokens in
    match device_id with
    | None => mret false
    | Some device_id =>
        if bool_decide (device_id = "") then mret false
        else
          p ← the_pairing;
          if bool_decide (Pairing._stage p = Some Pairing.await_device) then
            if bool_decide (attributes !! "NEW" = Some "1")
               && attr_set attributes "WFA" then
              let candidate :=
                _build_candidate_details lib device_id attributes in
              on_pairing (Pairing.set_candidate (Some candidate));;
              on_pairing (Pairing.set_stage (Some Pairing.await_confirmation));;
              _reset_timeout;;
              b ← is_pending (Pairing._search_future p);
              when b (set_result_on (Pairing._search_future p)
                        (VCandidate (Some candidate)));;
              mret true
            else mret false
          else
            match Pairing._candidate p with
            | Some c =>
                if bool_decide
                     (Pairing._stage p = Some Pairing.waiting_finalize)
                   && bool_decide (device_id = c_device_id c) then
                  if attr_set attributes "STR" && attr_set attributes "SLT"
                  then _finalize_success true;; mret true
                  else if bool_decide (attributes !! "NEW" = Some "1")
                          && negb (attr_set attributes "WFA")
                  then _finalize_success false;; mret true
                  else mret false
                else mret false
            | None => mret false
            end
    end.

(** The sub-event [_handle_event_dispatch] builds from a run of tokens. *)
Definition sub_event (event : pydict) (current : list string) : pydict :=
  <["raw" := default PNone (event !! "raw")]>
  (<["event" := PList current]> {[ "tag" := PStr "EVENT" ]}).

(** The [for token in tokens] loop of [_handle_event_dispatch] and the
    statements after it. *)
Fixpoint dispatch_tokens (event : pydict) (tokens current : list string)
    (consumed : bool) : M bool :=
  match tokens with
  | [] =>
      if bool_decide (current = []) then mret consumed
      else
        c ← _handle_event_line (sub_event event current);
        mret (consumed || c)
  | token :: rest =>
      if bool_decide (PyStr.upper token = "EVENT") then
        if bool_decide (current = []) then
          dispatch_tokens event rest current consumed
        else
          c ← _handle_event_line (sub_event event current);
          dispatch_tokens event rest [] (consumed || c)
      else dispatch_tokens event rest (current ++ [token]) consumed
  end.

Definition _handle_event_dispatch (event : pydict) : M bool :=
  tokens ← lift (iter_tokens event);
  if negb (bool_decide ("EVENT" ∈ tokens)) then _handle_event_line event
  else dispatch_tokens event tokens [] false.

Definition handle_event (event : pydict) : M bool :=
  let tag := event !! "tag" in
  p ← the_pairing;
  taken ←
    (if Pairing._exit_pending p then
       if bool_decide (tag = Some (PStr "RESULT")) then
         status ← lift (val_upper (get_or_empty event "status"));
         code ← lift (val_strip (get_or_empty event "code"));
         r ← _handle_exit_result status code;
         mret (Some r)
       else if bool_decide (tag = Some (PStr "EVENT")) then
         _handle_exit_event event;;
         mret (Some true)
       else mret None
     else mret None);
  match taken with
  | Some r => mret r
  | None =>
      if negb (Pairing._active p) then mret false
      else if bool_decide (tag = Some (PStr "RESULT")) then
        _handle_result event
      else if bool_decide (tag = Some (PStr "EVENT")) then
        _handle_event_dispatch event
      else mret false
  end.

End WithLibrary.

End AjaxPairingCoordinator.

(** ** The device-list refresh *)

(** [s.replace(" ", "")], [s.replace("_", " ")] and [s.replace("__", "_")] *)
Fixpoint remove_spaces (s : string) : string :=
  match s with
  | EmptyString => EmptyString
  | String c r =>
      if decide (c = " "%char) then remove_spaces r
      else String c (remove_spaces r)
  end.

Fixpoint underscores_to_spaces (s : string) : string :=
  match s with
  | EmptyString => EmptyString
  | String c r =>
      String (if decide (c = "_"%char) then " "%char else c)
        (underscores_to_spaces r)
  end.

Fixpoint merge_double_underscores (s : string) : string :=
  match s with
  | EmptyString => EmptyString
  | String c r =>
      match r with
      | String c' r' =>
          if decide (c = "_"%char ∧ c' = "_"%char) then
            String "_"%char (merge_double_underscores r')
          else String c (merge_double_underscores r)
      | EmptyString => String c EmptyString
      end
  end.

Definition or_else (a b : option string) : option string :=
  if nonempty a then a else b.

(** [_ensure_device_identity(entry, device_id)]; the vendor slug is the
    first word of [MANUFACTURER]. *)
Definition _ensure_device_identity (lib : Library) (entry : Meta.t)
    (device_id : string) : Meta.t :=
  let type_code := Meta.type_code entry in
  let type_name := or_else (Meta.type_name entry) (device_model lib type_code) in
  let entry := Meta.set_type_name type_name entry in
  let params_template := params_template_name lib type_code in
  let entry :=
    if nonempty params_template then
      Meta.set_params_state
        (Some (default ∅ (Meta.params_state entry)))
        (Meta.set_params_template params_template entry)
    else Meta.set_params_state None (Meta.set_params_template None entry) in
  let type_token :=
    remove_spaces (default "Device" (or_else type_name (Some "Device"))) in
  let unique_name :=
    merge_double_underscores ("Ajax_" +:+ type_token +:+ "_" +:+ device_id) in
  let entry := Meta.set_unique_name (Some unique_name) entry in
  match Meta.name entry with
  | Some _ => entry
  | None => Meta.set_name (Some (underscores_to_spaces unique_name)) entry
  end.

Definition _schedule_wrk_cancel : M unit :=
  ed ← the_entry_data;
  on_entry_data (EntryData.set_list_wrk_handle None);;
  cancel_if_set (EntryData.list_wrk_handle ed).

Definition _schedule_wrk_send : M unit :=
  ed ← the_entry_data;
  cancel_if_set (EntryData.list_wrk_handle ed);;
  if negb (EntryData.protocol ed) then mret tt
  else
    h ← call_later ListSendWrk;
    on_entry_data (EntryData.set_list_wrk_handle (Some h)).

(** The closure [_send_wrk] of [_schedule_wrk_send]. *)
Definition _send_wrk : M unit :=
  on_entry_data (EntryData.set_list_wrk_handle None);;
  ed ← the_entry_data;
  if negb (EntryData.list_active ed) then mret tt
  else
    on_entry_data (EntryData.set_list_stage (Some stage_wrk));;
    send_cmd "wrk".

Definition _async_refresh_device_list : M unit :=
  ed ← the_entry_data;
  if EntryData.list_active ed then mret tt
  else if negb (EntryData.protocol ed) then mret tt
  else
    on_entry_data
      (EntryData.set_devices_snapshot (Some (EntryData.devices ed)));;
    on_entry_data (EntryData.set_list_pending (Some ∅));;
    on_entry_data (EntryData.set_list_active true);;
    on_entry_data (EntryData.set_list_stage None);;
    on_entry_data (EntryData.set_list_retries 0);;
    h ← call_later ListTimeout;
    on_entry_data (EntryData.set_list_timeout_task (Some h));;
    _ ← call_later DelayedStop;
    mret tt.

(** [_delayed_stop], after its sleep. *)
Definition _delayed_stop : M unit :=
  ed ← the_entry_data;
  if negb (EntryData.list_active ed) then mret tt
  else
    on_entry_data (EntryData.set_list_stage (Some stage_stop));;
    send_cmd "stop".

Definition is_none (v : option pyval) : bool :=
  match v with
  | None | Some PNone => true
  | _ => false
  end.

Section Refresh.

Variable lib : Library.

Definition _handle_list_entry (event : pydict) : M unit :=
  ed ← the_entry_data;
  if negb (EntryData.list_active ed) then mret tt
  else
    let pending := default ∅ (EntryData.list_pending ed) in
    on_entry_data (EntryData.set_list_pending (Some pending));;
    let device_id := event_device_id lib event in
    if bool_decide (device_id = "") then mret tt
    else
      let type_code := event !! "type_code" in
      let entry := default Meta.empty (pending !! device_id) in
      let entry :=
        if is_none type_code then entry
        else
          let type_code := PyStr.strip (py_str lib (default PNone type_code)) in
          if bool_decide (type_code = "") then entry
          else
            Meta.set_type_name (device_model lib (Some type_code))
              (Meta.set_type_code (Some type_code) entry) in
      let entry :=
        match Meta.sequence entry with
        | Some _ => entry
        | None =>
            Meta.set_sequence (Some (default PNone (event !! "sequence"))) entry
        end in
      let entry :=
        match Meta.slot entry with
        | Some _ => entry
        | None => Meta.set_slot (Some (default PNone (event !! "slot"))) entry
        end in
      let entry := _ensure_device_identity lib entry device_id in
      on_entry_data
        (EntryData.set_list_pending (Some (<[device_id := entry]> pending)));;
      if bool_decide (EntryData.list_stage ed = Some stage_lst) then
        _schedule_wrk_send
      else mret tt.

(** The body of the loop over [new_devices.items()]. *)
Definition finalized_meta (snapshot : gmap string Meta.t) (device_id : string)
    (meta : Meta.t) : Meta.t :=
  let meta := _ensure_device_identity lib meta device_id in
  let previous_meta := default Meta.empty (snapshot !! device_id) in
  let previous_state := default ∅ (Meta.params_state previous_meta) in
  let meta :=
    if bool_decide (previous_state = ∅) then meta
    else
      Meta.set_params_state
        (Some (previous_state ∪ default ∅ (Meta.params_state meta))) meta in
  Meta.set_device_registry_id
    (Some (registry_entry_id lib (default "" (Meta.unique_name meta)))) meta.

(** The ids [_finalize_device_list] reports as removed. *)
Definition removed_ids (snapshot new_devices : gmap string Meta.t)
    : gset string :=
  dom snapshot ∖ dom new_devices.

(** Those of them whose entry the registry removes: the ones with a
    [device_registry_id]. *)
Definition registry_removals (snapshot : gmap string Meta.t)
    (removed : gset string) : gset string :=
  filter
    (λ id, nonempty (snapshot !! id ≫= Meta.device_registry_id) = true)
    removed.

(** [_finalize_device_list(hass, entry_data, success=...)].  When
    [devices_snapshot] is missing, [snapshot] is the [devices] dictionary
    itself, which [devices.clear()] empties.  The calls to the
    presentation managers are not part of the core. *)
Definition _finalize_device_list (success : bool) : M unit :=
  ed ← the_entry_data;
  on_entry_data (EntryData.set_list_timeout_task None);;
  cancel_if_set (EntryData.list_timeout_task ed);;
  _schedule_wrk_cancel;;
  let pending := default ∅ (EntryData.list_pending ed) in
  on_entry_data (EntryData.set_list_pending None);;
  let snapshot := default ∅ (EntryData.devices_snapshot ed) in
  on_entry_data (EntryData.set_devices_snapshot None);;
  let new_devices :=
    if success && negb (bool_decide (pending = ∅)) then pending
    else snapshot in
  let removed := removed_ids snapshot new_devices in
  on_entry_data
    (EntryData.set_devices (map_imap (λ id meta,
       Some (finalized_meta snapshot id meta)) new_devices));;
  modify (λ w,
    World.set_registry_removed
      (World.registry_removed w ∪ registry_removals snapshot removed) w);;
  on_entry_data (EntryData.set_allowed_ids (dom new_devices));;
  on_entry_data (EntryData.set_list_active false);;
  on_entry_data (EntryData.set_list_stage None);;
  on_entry_data (EntryData.set_list_retries 0).

Definition LIST_MAX_RETRIES : nat := 5.

Definition _process_list_result (event : pydict) : M unit :=
  status ← lift (val_upper (get_or_empty event "status"));
  ed ← the_entry_data;
  let protocol := EntryData.protocol ed in
  match EntryData.list_stage ed with
  | None => mret tt
  | Some stage =>
      if negb (bool_decide (status = "OK")) then
        let code := py_str lib (get_or_empty event "code") in
        if bool_decide (stage = stage_stop) && bool_decide (status = "NAK")
           && is_in code ["0"; ""]
           && (EntryData.list_retries ed <? LIST_MAX_RETRIES)%nat then
          on_entry_data
            (EntryData.set_list_retries (EntryData.list_retries ed + 1));;
          if protocol then _ ← call_later (SendCmd "stop"); mret tt
          else mret tt
        else if bool_decide (stage = stage_lst) && bool_decide (status = "NAK")
                && is_in code ["0"; ""]
                && (EntryData.list_retries ed <? LIST_MAX_RETRIES)%nat then
          on_entry_data
            (EntryData.set_list_retries (EntryData.list_retries ed + 1));;
          if protocol then
            _schedule_wrk_cancel;;
            on_entry_data (EntryData.set_list_stage (Some stage_stop));;
            _ ← call_later (SendCmd "stop");
            mret tt
          else mret tt
        else
          when protocol (send_cmd "wrk");;
          _finalize_device_list false
      else
        match stage with
        | stage_stop =>
            on_entry_data (EntryData.set_list_retries 0);;
            on_entry_data (EntryData.set_list_stage (Some stage_lst));;
            if protocol then send_cmd "lst";; _schedule_wrk_send
            else mret tt
        | stage_lst =>
            on_entry_data (EntryData.set_list_stage (Some stage_wrk));;
            when protocol (send_cmd "wrk");;
            _schedule_wrk_cancel
        | stage_wrk => _finalize_device_list true
        end
  end.

(** [_async_device_list_timeout], after its sleep. *)
Definition _async_device_list_timeout : M unit :=
  ed ← the_entry_data;
  if negb (EntryData.list_active ed) then mret tt
  else
    when (EntryData.protocol ed) (send_cmd "wrk");;
    let pending := default ∅ (EntryData.list_pending ed) in
    _finalize_device_list (negb (bool_decide (pending = ∅))).

(** [_handle_hub_rstate]: the hub's own code is recorded; the rest of the
    function fills in presentation metadata. *)
Definition _handle_hub_rstate (event : pydict) : M unit :=
  let device_id := event_device_id lib event in
  if bool_decide (device_id = "") then mret tt
  else
    on_entry_data (EntryData.set_hub_device_code (Some device_id));;
    ed ← the_entry_data;
    on_entry_data
      (EntryData.set_allowed_ids ({[device_id]} ∪ EntryData.allowed_ids ed)).

End Refresh.

(** ** The deletion coordinator *)

(** What a call of [async_delete] or [async_set] has done when it first
    suspends: it waits for its future, or it still waits for the lock
    another call holds. *)
Inductive suspended :=
| AwaitingFuture (fut : nat)
| AwaitingLock.

Module AjaxDeletionCoordinator.

Definition cancel : M unit :=
  d ← the_deletion;
  b ← is_pending (Deletion._future d);
  when b (match Deletion._future d with
          | Some i => future_cancel i
          | None => mret tt
          end);;
  on_deletion (Deletion.set_future None);;
  on_deletion (Deletion.set_stage None);;
  on_deletion (Deletion.set_device_id None).

Definition _fail (reason : string) : M unit :=
  d ← the_deletion;
  b ← is_pending (Deletion._future d);
  when b (set_exception_on (Deletion._future d) (HomeAssistantError reason));;
  ed ← the_entry_data;
  when (EntryData.protocol ed) (send_cmd "wrk");;
  cancel.

(** [async_delete], up to its [await asyncio.wait_for(self._future, 15)]. *)
Definition async_delete (device_id : string) : M suspended :=
  let device_id := PyStr.upper device_id in
  ed ← the_entry_data;
  if bool_decide (device_id = "")
     || bool_decide (Some device_id = EntryData.hub_device_code ed) then
    raise (HomeAssistantError "Invalid device id")
  else
    d ← the_deletion;
    if Deletion.locked d then mret AwaitingLock
    else if bool_decide (Deletion._future d ≠ None) then
      raise (HomeAssistantError "Another delete operation is running")
    else if negb (EntryData.protocol ed) then
      raise (HomeAssistantError "Bridge connection not ready")
    else if bool_decide (EntryData.devices ed !! device_id = None) then
      raise (HomeAssistantError ("Unknown device id " +:+ device_id))
    else if EntryData.list_active ed then
      raise (HomeAssistantError "Device list refresh in progress")
    else
      p ← the_pairing;
      if Pairing._active p || Pairing._exit_pending p then
        raise (HomeAssistantError "Pairing operation in progress")
      else
        on_deletion (Deletion.set_stage (Some Deletion.await_stop));;
        on_deletion (Deletion.set_device_id (Some device_id));;
        fut ← create_future OwnDeletion;
        on_deletion (Deletion.set_future (Some fut));;
        send_cmd "stop";;
        h ← call_later DeleteWaitTimeout;
        on_deletion (Deletion.set_waiter (Some (fut, h, device_id)));;
        mret (AwaitingFuture fut).

(** The [finally] clause of [async_delete] and the release of the lock. *)
Definition leave : M unit :=
  on_deletion (Deletion.set_stage None);;
  on_deletion (Deletion.set_device_id None);;
  on_deletion (Deletion.set_future None);;
  on_deletion (Deletion.set_waiter None).

(** [async_delete] after the lock is released, up to its
    [await asyncio.sleep(0.5)]. *)
Definition after_delete (device_id : string) : M unit :=
  ed ← the_entry_data;
  match EntryData.devices ed !! device_id with
  | Some device_meta =>
      if bool_decide (device_meta = Meta.empty) then mret tt
      else
        when (nonempty (Meta.device_registry_id device_meta))
          (modify (λ w,
             World.set_registry_removed
               ({[device_id]} ∪ World.registry_removed w) w));;
        on_entry_data
          (EntryData.set_devices (delete device_id (EntryData.devices ed)));;
        on_entry_data
          (EntryData.set_allowed_ids (EntryData.allowed_ids ed ∖ {[device_id]}))
  | None => mret tt
  end;;
  _ ← call_later PostDeleteRefresh;
  mret tt.

(** [async_delete] when [wait_for] returns or raises because the future is
    done. *)
Definition resume : M unit :=
  d ← the_deletion;
  match Deletion.waiter d with
  | None => mret tt
  | Some (fut, h, device_id) =>
      w ← (λ w, (Ok w, w));
      match f_state <$> World.futures w !! fut with
      | Some (FResult _) =>
          cancel_handle h;; leave;; after_delete device_id
      | Some (FException e) => cancel_handle h;; leave;; raise e
      | Some FCancelled => cancel_handle h;; leave;; raise CancelledError
      | _ => mret tt
      end
  end.

(** [async_delete] when the 15 seconds of [wait_for] are over: [wait_for]
    cancels the future and raises [TimeoutError]. *)
Definition wait_timeout : M unit :=
  d ← the_deletion;
  match Deletion.waiter d with
  | None => mret tt
  | Some (fut, h, device_id) =>
      b ← is_pending (Some fut);
      if (b : bool) then
        future_cancel fut;;
        _fail "Deletion timed out";;
        leave;;
        raise (HomeAssistantError "Deletion timed out")
      else mret tt
  end.

Definition handle_event (event : pydict) : M bool :=
  d ← the_deletion;
  if bool_decide (Deletion._future d = None)
     || negb (bool_decide (event !! "tag" = Some (PStr "RESULT"))) then
    mret false
  else
    status ← lift (val_upper (get_or_empty event "status"));
    code ← lift (val_strip (get_or_empty event "code"));
    ed ← the_entry_data;
    let protocol := EntryData.protocol ed in
    match Deletion._stage d with
    | Some Deletion.await_stop =>
        if bool_decide (status = "OK") && is_in code ok_codes then
          when protocol
            (send_cmd ("del " +:+ default "None" (Deletion._device_id d)));;
          on_deletion (Deletion.set_stage (Some Deletion.await_delete));;
          mret true
        else if bool_decide (status = "NAK") && bool_decide (code = "2") then
          when protocol (send_cmd "stop");;
          mret true
        else
          _fail ("stop_failed status=" +:+ status +:+ " code=" +:+ code);;
          mret true
    | Some Deletion.await_delete =>
        if bool_decide (status = "OK") && is_in code ok_codes then
          when protocol (send_cmd "wrk");;
          on_deletion (Deletion.set_stage (Some Deletion.await_wrk));;
          mret true
        else
          _fail ("delete_failed status=" +:+ status +:+ " code=" +:+ code);;
          mret true
    | Some Deletion.await_wrk =>
        if bool_decide (status = "OK") && is_in code ok_codes then
          b ← is_pending (Deletion._future d);
          when b (set_result_on (Deletion._future d) VTrue);;
          mret true
        else if bool_decide (status = "NAK") && bool_decide (code = "2") then
          when protocol (send_cmd "wrk");;
          mret true
        else
          _fail ("wrk_failed status=" +:+ status +:+ " code=" +:+ code);;
          mret true
    | None => mret false
    end.

End AjaxDeletionCoordinator.

(** ** The parameter coordinator *)

Module AjaxParameterCoordinator.

Definition cancel : M unit :=
  d ← the_parameter;
  b ← is_pending (ParamUpdate._future d);
  when b (match ParamUpdate._future d with
          | Some i => future_cancel i
          | None => mret tt
          end);;
  on_parameter (ParamUpdate.set_future None);;
  on_parameter (ParamUpdate.set_stage None);;
  on_parameter (ParamUpdate.set_device_id None);;
  on_parameter (ParamUpdate.set_command None).

Definition _fail (reason : string) : M unit :=
  d ← the_parameter;
  b ← is_pending (ParamUpdate._future d);
  when b (set_exception_on (ParamUpdate._future d) (HomeAssistantError reason));;
  ed ← the_entry_data;
  when (EntryData.protocol ed) (send_cmd "wrk");;
  cancel.

(** [async_set], up to its [await asyncio.wait_for(self._future, 15)]. *)
Definition async_set (device_id command : string) : M suspended :=
  let device_id := PyStr.upper device_id in
  d ← the_parameter;
  if ParamUpdate.locked d then mret AwaitingLock
  else if bool_decide (ParamUpdate._future d ≠ None) then
    raise (HomeAssistantError "Another parameter update is running")
  else
    ed ← the_entry_data;
    if negb (EntryData.protocol ed) then
      raise (HomeAssistantError "Bridge connection not ready")
    else if EntryData.list_active ed then
      raise (HomeAssistantError "Device list refresh in progress")
    else
      del ← the_deletion;
      if Deletion.busy del then
        raise (HomeAssistantError "Device deletion in progress")
      else
        p ← the_pairing;
        if Pairing._active p || Pairing._exit_pending p then
          raise (HomeAssistantError "Pairing operation in progress")
        else
          on_parameter (ParamUpdate.set_stage (Some ParamUpdate.await_stop));;
          on_parameter (ParamUpdate.set_device_id (Some device_id));;
          on_parameter (ParamUpdate.set_command (Some command));;
          fut ← create_future OwnParameter;
          on_parameter (ParamUpdate.set_future (Some fut));;
          send_cmd "stop";;
          h ← call_later ParameterWaitTimeout;
          on_parameter (ParamUpdate.set_waiter (Some (fut, h)));;
          mret (AwaitingFuture fut).

(** The [finally] clause of [async_set] and the release of the lock. *)
Definition leave : M unit :=
  on_parameter (ParamUpdate.set_stage None);;
  on_parameter (ParamUpdate.set_device_id None);;
  on_parameter (ParamUpdate.set_command None);;
  on_parameter (ParamUpdate.set_future None);;
  on_parameter (ParamUpdate.set_waiter None).

Definition resume : M unit :=
  d ← the_parameter;
  match ParamUpdate.waiter d with
  | None => mret tt
  | Some (fut, h) =>
      w ← (λ w, (Ok w, w));
      match f_state <$> World.futures w !! fut with
      | Some (FResult _) => cancel_handle h;; leave
      | Some (FException e) => cancel_handle h;; leave;; raise e
      | Some FCancelled => cancel_handle h;; leave;; raise CancelledError
      | _ => mret tt
      end
  end.

Definition wait_timeout : M unit :=
  d ← the_parameter;
  match ParamUpdate.waiter d with
  | None => mret tt
  | Some (fut, h) =>
      b ← is_pending (Some fut);
      if (b : bool) then
        future_cancel fut;;
        _fail "Parameter update timed out";;
        leave;;
        raise (HomeAssistantError "Parameter update timed out")
      else mret tt
  end.

Definition handle_event (event : pydict) : M bool :=
  d ← the_parameter;
  if bool_decide (ParamUpdate._future d = None)
     || negb (bool_decide (event !! "tag" = Some (PStr "RESULT"))) then
    mret false
  else
    status ← lift (val_upper (get_or_empty event "status"));
    code ← lift (val_strip (get_or_empty event "code"));
    ed ← the_entry_data;
    let protocol := EntryData.protocol ed in
    match ParamUpdate._stage d with
    | Some ParamUpdate.await_stop =>
        if bool_decide (status = "OK") && is_in code ok_codes then
          when (protocol && nonempty (ParamUpdate._command d))
            (send_cmd (default "" (ParamUpdate._command d)));;
          on_parameter (ParamUpdate.set_stage (Some ParamUpdate.await_command));;
          mret true
        else if bool_decide (status = "NAK") && bool_decide (code = "2") then
          when protocol (send_cmd "stop");;
          mret true
        else
          _fail ("stop_failed status=" +:+ status +:+ " code=" +:+ code);;
          mret true
    | Some ParamUpdate.await_command =>
        if bool_decide (status = "OK") && is_in code ok_codes then
          when protocol (send_cmd "wrk");;
          on_parameter (ParamUpdate.set_stage (Some ParamUpdate.await_wrk));;
          mret true
        else
          _fail ("par_failed status=" +:+ status +:+ " code=" +:+ code);;
          mret true
    | Some ParamUpdate.await_wrk =>
        if bool_decide (status = "OK") && is_in code ok_codes then
          b ← is_pending (ParamUpdate._future d);
          when b (set_result_on (ParamUpdate._future d) VTrue);;
          mret true
        else if bool_decide (status = "NAK") && bool_decide (code = "2") then
          when protocol (send_cmd "wrk");;
          mret true
        else
          _fail ("wrk_failed status=" +:+ status +:+ " code=" +:+ code);;
          mret true
    | None => mret false
    end.

End AjaxParameterCoordinator.

(** ** The dispatcher, the event loop and the operations of the bridge *)

Section Bridge.

Variable lib : Library.

(** [_refresh_then_exit], after its sleep. *)
Definition _refresh_then_exit : M unit :=
  failed ← try_except (_async_refresh_device_list;; mret false)
                      (λ _, mret true);
  if (failed : bool) then
    on_pairing (Pairing.set_candidate None);;
    AjaxPairingCoordinator._cleanup true false
  else
    on_pairing (Pairing.set_candidate None);;
    on_pairing (Pairing.set_exit_pending false);;
    on_pairing (Pairing.set_exit_stage None);;
    on_pairing (Pairing.set_in_engineering false);;
    on_pairing (Pairing.set_requested_stop false).

(** The closure [_handle_event] of [_async_start_bridge].  Its last part
    warns once about the placeholder id, which changes nothing else. *)
Definition _handle_event (event : pydict) : M unit :=
  taken ← AjaxDeletionCoordinator.handle_event event;
  if (taken : bool) then mret tt
  else
    taken ← AjaxParameterCoordinator.handle_event event;
    if (taken : bool) then mret tt
    else
      taken ← AjaxPairingCoordinator.handle_event lib event;
      if (taken : bool) then mret tt
      else
        let tag := event !! "tag" in
        ed ← the_entry_data;
        if bool_decide (tag = Some (PStr "LIST")) then
          _handle_list_entry lib event
        else if bool_decide (tag = Some (PStr "RESULT"))
                && EntryData.list_active ed then
          _process_list_result lib event
        else if bool_decide (tag = Some (PStr "RSTATE")) then
          _handle_hub_rstate lib event
        else
          let device_id := event_device_id lib event in
          if negb (bool_decide (EntryData.allowed_ids ed = ∅))
             && negb (bool_decide (device_id = ""))
             && negb (bool_decide (device_id ∈ EntryData.allowed_ids ed))
             && negb (bool_decide
                        (Some device_id = EntryData.hub_device_code ed))
          then mret tt
          else
            modify (λ w, World.set_dispatched (World.dispatched w ++ [event]) w).

(** One line of [AjaxProtocol.data_received]: the dispatcher's exceptions
    are logged and dropped. *)
Definition data_received (line : string) : M unit :=
  let line := PyStr.strip line in
  if bool_decide (line = "") then mret tt
  else
    parsed ← lift (Parser.parse_line (float_ok lib) line);
    try_except (_handle_event parsed) (λ _, mret tt).

Definition run_callback (cb : callback) : M unit :=
  match cb with
  | PairingOnTimeout => AjaxPairingCoordinator._on_timeout
  | PairingWrkFallback => AjaxPairingCoordinator._send_wrk_fallback
  | PairingExitSend command => AjaxPairingCoordinator.exit_send command
  | SendCmd cmd => send_cmd cmd
  | ListSendWrk => _send_wrk
  | ListTimeout => _async_device_list_timeout lib
  | DelayedStop => _delayed_stop
  | RefreshThenExit => _refresh_then_exit
  | PostDeleteRefresh => _async_refresh_device_list
  | DeleteWaitTimeout => AjaxDeletionCoordinator.wait_timeout
  | ParameterWaitTimeout => AjaxParameterCoordinator.wait_timeout
  end.

(** The loop runs the callback of a handle that is due, unless the handle
    was cancelled or has run. *)
Definition fire (h : nat) : M unit := λ w,
  match World.timers w !! h with
  | Some t =>
      if t_live t then
        run_callback (t_callback t)
          (World.set_timers
             (<[h := mkTimer (t_callback t) false]> (World.timers w)) w)
      else (Ok tt, w)
  | None => (Ok tt, w)
  end.

(** [_async_start_bridge]: the connection sends its three init commands,
    the protocol is stored and the first refresh is started. *)
Definition _async_start_bridge : M unit :=
  send_cmd "ech 0";;
  send_cmd "inf 1";;
  send_cmd "ext 1";;
  on_entry_data (EntryData.set_protocol true);;
  _async_refresh_device_list.

(** What happens to the bridge: a line from the hub, a handle of the loop
    that is due, and the calls of the callers. *)
Inductive action :=
| StartBridge
| HubLine (line : string)
| Due (handle : nat)
| StartSearch (flow_id : string)
| ConfirmCandidate (flow_id : string)
| Cancel (reason : string) (immediate : bool)
| ForceCleanup
| DropHandle (fut : nat)     (* a caller cancels a pairing future it holds *)
| Delete (device_id : string)
| DeleteResumes
| SetParameters (device_id command : string)
| SetParametersResumes.

Definition drop_handle (fut : nat) : M unit := λ w,
  match World.futures w !! fut with
  | Some f =>
      if bool_decide (f_owner f = OwnPairing) then future_cancel fut w
      else (Ok tt, w)
  | None => (Ok tt, w)
  end.

Definition step (a : action) : M unit :=
  match a with
  | StartBridge => _async_start_bridge
  | HubLine line => data_received line
  | Due h => fire h
  | StartSearch flow_id => AjaxPairingCoordinator.start_search flow_id;; mret tt
  | ConfirmCandidate flow_id =>
      AjaxPairingCoordinator.confirm_candidate flow_id;; mret tt
  | Cancel reason immediate => AjaxPairingCoordinator.cancel reason immediate
  | ForceCleanup => AjaxPairingCoordinator.force_cleanup
  | DropHandle fut => drop_handle fut
  | Delete device_id => AjaxDeletionCoordinator.async_delete device_id;; mret tt
  | DeleteResumes => AjaxDeletionCoordinator.resume
  | SetParameters device_id command =>
      AjaxParameterCoordinator.async_set device_id command;; mret tt
  | SetParametersResumes => AjaxParameterCoordinator.resume
  end.

(** The bridge after a sequence of actions; an action that raises leaves
    the bridge as it was when it raised. *)
Definition run (w : World.t) (actions : list action) : World.t :=
  foldl (λ w a, (step a w).2) w actions.

(** The states the bridge can be in. *)
Inductive reachable : World.t → Prop :=
| reachable_init : reachable World.init
| reachable_step w a : reachable w → reachable (step a w).2.

End Bridge.

(** ** Vocabulary of the statements *)

(** An event that reads as a RESULT with the given status and code, the
    way every handler reads it: [(event.get("status") or "").upper()] and
    [(event.get("code") or "").strip()]. *)
Definition is_result (event : pydict) (status code : string) : Prop :=
  event !! "tag" = Some (PStr "RESULT")
  ∧ val_upper (get_or_empty event "status") = Ok status
  ∧ val_strip (get_or_empty event "code") = Ok code.

(** A line of the hub that the parser turns into such an event. *)
Definition result_line (lib : Library) (line status code : string) : Prop :=
  PyStr.strip line ≠ ""
  ∧ ∃ event, Parser.parse_line (float_ok lib) (PyStr.strip line) = Ok event
           ∧ is_result event status code.

(** A LIST line for the device [device_id]. *)
Definition list_line (lib : Library) (line device_id : string) : Prop :=
  PyStr.strip line ≠ ""
  ∧ ∃ event, Parser.parse_line (float_ok lib) (PyStr.strip line) = Ok event
           ∧ event !! "tag" = Some (PStr "LIST")
           ∧ event_device_id lib event = device_id.

(** The four busy flags the callers test. *)
Definition deletion_busy (w : World.t) : bool :=
  Deletion.busy (World.delete_manager w).

Definition parameter_busy (w : World.t) : bool :=
  ParamUpdate.busy (World.parameter_coordinator w).

Definition pairing_busy (w : World.t) : bool :=
  Pairing._active (World.pairing_manager w)
  || Pairing._exit_pending (World.pairing_manager w).

Definition refresh_busy (w : World.t) : bool :=
  EntryData.list_active (World.entry_data w).

Definition busy_count (w : World.t) : nat :=
  Nat.b2n (deletion_busy w) + Nat.b2n (parameter_busy w)
  + Nat.b2n (pairing_busy w) + Nat.b2n (refresh_busy w).

(** ** A sample bridge *)

(** A catalogue that knows no model, a registry that derives the entry id
    from the unique name, and [float()] accepting integer literals. *)
Definition sample_library : Library :=
  mkLibrary (λ s, bool_decide (is_Some (PyStr.py_int s)))
    (λ _, None) (λ _, None) (λ n, "entry-" +:+ n) (λ _, "").

(** A bridge that is connected, knows the device AB12CD and has no session
    running. *)
Definition sample_ready : World.t :=
  World.set_entry_data
    (EntryData.set_allowed_ids {[ "AB12CD" ]}
       (EntryData.set_devices
          {[ "AB12CD" :=
               Meta.set_device_registry_id (Some "entry-1")
                 (Meta.set_type_code (Some "FE") Meta.empty) ]}
          (EntryData.set_protocol true EntryData.init)))
    World.init.

(** The bridge after a pairing search was started and cancelled, and
    [force_cleanup] was called: what [async_unload_entry] does. *)
Definition after_force_cleanup : World.t :=
  run sample_library sample_ready
    [StartSearch "flow"; Cancel "cancelled" false; ForceCleanup].

(** The bridge after its start, a first refresh that listed AB12CD, the
    start of a parameter update and the start of a pairing search. *)
Definition two_sessions : World.t :=
  run sample_library World.init
    [StartBridge; Due 1; HubLine "RESULT;OK;0"; HubLine "LIST;1;2;ab12cd;FE";
     HubLine "RESULT;OK;0"; HubLine "RESULT;OK;0";
     SetParameters "ab12cd" "par AB12CD,1"; StartSearch "flow"].


(** The sample bridge while a device-list refresh is active. *)
Definition sample_refreshing : World.t :=
  World.set_entry_data
    (EntryData.set_list_active true (World.entry_data sample_ready))
    sample_ready.

(** ** Properties kept by every operation *)

(** A computation keeps a property of the bridge, whether it returns or
    raises. *)
Definition preserves {A} (I : World.t → Prop) (m : M A) : Prop :=
  ∀ w, I w → I (m w).2.

(** The two retry counters are within their maxima. *)
Definition retries_bounded (w : World.t) : Prop :=
  (Pairing._stop_retries (World.pairing_manager w) ≤ 3)%nat
  ∧ (EntryData.list_retries (World.entry_data w) ≤ LIST_MAX_RETRIES)%nat.

(** A pairing search is under way for the future [fut], at [stage] with
    [retries] counted, and no deletion or parameter update would take the
    hub's RESULT lines first. *)
Definition searching (w : World.t) (fut retries : nat) (stage : Pairing.stage)
    : Prop :=
  Pairing._active (World.pairing_manager w) = true
  ∧ Pairing._exit_pending (World.pairing_manager w) = false
  ∧ Pairing._stage (World.pairing_manager w) = Some stage
  ∧ Pairing._stop_retries (World.pairing_manager w) = retries
  ∧ Pairing._search_future (World.pairing_manager w) = Some fut
  ∧ Pairing._finalize_future (World.pairing_manager w) = None
  ∧ Pairing._requested_stop (World.pairing_manager w) = true
  ∧ deletion_busy w = false
  ∧ parameter_busy w = false
  ∧ EntryData.protocol (World.entry_data w) = true
  ∧ World.futures w !! fut = Some (mkFuture OwnPairing FPending).

(** A reply that the stage [await_stop_clear] accepts: a RESULT whose status
    is OK or NAK and whose code is empty, 0 or 2. *)
Definition clear_reply (lib : Library) (line : string) : Prop :=
  ∃ status code, result_line lib line status code
    ∧ status ∈ ["OK"; "NAK"] ∧ code ∈ [""; "0"; "2"].

(** A device-list refresh is at [stage] with [retries] counted, and neither
    a deletion, a parameter update nor pairing would take the hub's RESULT
    lines first. *)
Definition refreshing (w : World.t) (stage : refresh_stage) (retries : nat)
    : Prop :=
  EntryData.list_active (World.entry_data w) = true
  ∧ EntryData.list_stage (World.entry_data w) = Some stage
  ∧ EntryData.list_retries (World.entry_data w) = retries
  ∧ EntryData.protocol (World.entry_data w) = true
  ∧ deletion_busy w = false
  ∧ parameter_busy w = false
  ∧ Pairing._active (World.pairing_manager w) = false
  ∧ Pairing._exit_pending (World.pairing_manager w) = false.

(** A line of the hub that reads as RESULT NAK and whose code, as
    [_process_list_result] reads it ([str(event.get("code") or "")]), is
    [code]. *)
Definition nak_line (lib : Library) (line code : string) : Prop :=
  PyStr.strip line ≠ ""
  ∧ ∃ event, Parser.parse_line (float_ok lib) (PyStr.strip line) = Ok event
           ∧ event !! "tag" = Some (PStr "RESULT")
           ∧ val_upper (get_or_empty event "status") = Ok "NAK"
           ∧ py_str lib (get_or_empty event "code") = code.

(** The number of times the command [cmd] was sent to the hub. *)
Definition times_sent (cmd : string) (w : World.t) : nat :=
  length (filter (λ c, c = cmd) (World.wire w)).

(** The bound on resends as the specification words it: however many times
    the hub repeats the reply [line], the command [cmd] is sent at most
    [max] times, for some [max]. *)
Definition resends_bounded (lib : Library) (cmd line : string) (w : World.t)
    : Prop :=
  ∃ max : nat, ∀ n : nat,
    (times_sent cmd (run lib w (replicate n (HubLine line))) ≤ max)%nat.

(** The sample bridge in a refresh whose [stop] was refused five times. *)
Definition sample_stop_refused : World.t :=
  World.set_entry_data
    (EntryData.set_list_retries 5
       (EntryData.set_list_stage (Some stage_stop)
          (World.entry_data sample_refreshing)))
    sample_refreshing.

(** The sample bridge after a deletion of AB12CD was requested, and after a
    parameter update of it was. *)
Definition sample_deleting : World.t :=
  run sample_library sample_ready [Delete "ab12cd"].

Definition sample_updating : World.t :=
  run sample_library sample_ready [SetParameters "ab12cd" "par AB12CD,1"].

(** Every future of [w0] is still a future of [w], of the same owner, and
    unchanged if it was done in [w0]. *)
Definition futures_kept (w0 w : World.t) : Prop :=
  ∀ i f, World.futures w0 !! i = Some f →
    ∃ f', World.futures w !! i = Some f'
          ∧ f_owner f' = f_owner f
          ∧ (done f = true → f' = f).

(** Every handle of [w0] is still a handle of [w], for the same callback,
    and unchanged if it was cancelled or had run in [w0]. *)
Definition timers_kept (w0 w : World.t) : Prop :=
  ∀ h t, World.timers w0 !! h = Some t →
    ∃ t', World.timers w !! h = Some t'
          ∧ t_callback t' = t_callback t
          ∧ (t_live t = false → t' = t).

(** Pairing waits for the hub to finish a pairing the caller has confirmed:
    the finalize future [fut] is pending, and no deletion or parameter
    update would take the hub's RESULT lines first. *)
Definition finalizing (w : World.t) (fut : nat) : Prop :=
  Pairing._active (World.pairing_manager w) = true
  ∧ Pairing._exit_pending (World.pairing_manager w) = false
  ∧ Pairing._stage (World.pairing_manager w) = Some Pairing.waiting_finalize
  ∧ Pairing._finalize_future (World.pairing_manager w) = Some fut
  ∧ deletion_busy w = false
  ∧ parameter_busy w = false
  ∧ World.futures w !! fut = Some (mkFuture OwnPairing FPending).

(** The exception [cancel(reason=...)] sets on the futures. *)
Definition cancel_exception (reason : string) : exn :=
  if bool_decide (reason = "timeout") then PairingTimeoutError reason
  else PairingCancelledError reason.

(** The sample bridge after a pairing search was started, and after the
    hub accepted [stop] and [add], announced the new device AB12EF and the
    caller confirmed it. *)
Definition sample_searching : World.t :=
  run sample_library sample_ready [StartSearch "flow"].

Definition sample_confirmed : World.t :=
  run sample_library sample_ready
    [StartSearch "flow"; HubLine "RESULT;OK;0"; HubLine "RESULT;OK;0";
     HubLine "EVENT;ab12ef;NEW=1;WFA=1"; ConfirmCandidate "flow"].

(** The bridge is connected and nothing runs: no refresh, no deletion, no
    parameter update, no pairing and no exit from engineering mode. *)
Definition idle (w : World.t) : Prop :=
  EntryData.list_active (World.entry_data w) = false
  ∧ EntryData.protocol (World.entry_data w) = true
  ∧ deletion_busy w = false
  ∧ parameter_busy w = false
  ∧ Pairing._active (World.pairing_manager w) = false
  ∧ Pairing._exit_pending (World.pairing_manager w) = false.

(** A refresh is at [stage]: [snapshot] was taken at its start, [pending]
    holds the LIST entries received so far, and [wire] and [removed] are
    the commands sent and the registry entries removed so far. *)
Definition listing (w : World.t) (stage : option refresh_stage)
    (snapshot pending : gmap string Meta.t) (wire : list string)
    (removed : gset string) : Prop :=
  EntryData.list_active (World.entry_data w) = true
  ∧ EntryData.list_stage (World.entry_data w) = stage
  ∧ EntryData.protocol (World.entry_data w) = true
  ∧ deletion_busy w = false
  ∧ parameter_busy w = false
  ∧ Pairing._active (World.pairing_manager w) = false
  ∧ Pairing._exit_pending (World.pairing_manager w) = false
  ∧ EntryData.devices_snapshot (World.entry_data w) = Some snapshot
  ∧ EntryData.list_pending (World.entry_data w) = Some pending
  ∧ World.wire w = wire
  ∧ World.registry_removed w = removed.

(** The bridge after its start, when the hub has accepted the [stop] and
    the [lst] of the first refresh and has listed nothing. *)
Definition sample_listed_nothing : World.t :=
  run sample_library World.init
    [StartBridge; Due 1; HubLine "RESULT;OK;0"; HubLine "RESULT;OK;0"].

(** A parameter update waits at [stage] for the hub: its future [fut] is
    pending, the handle [h] of its timeout is live, and no deletion would
    take the hub's RESULT lines first. *)
Definition updating (w : World.t) (fut h : nat) (stage : ParamUpdate.stage)
    (command : string) : Prop :=
  ParamUpdate._future (World.parameter_coordinator w) = Some fut
  ∧ ParamUpdate._stage (World.parameter_coordinator w) = Some stage
  ∧ ParamUpdate._command (World.parameter_coordinator w) = Some command
  ∧ ParamUpdate.waiter (World.parameter_coordinator w) = Some (fut, h)
  ∧ deletion_busy w = false
  ∧ EntryData.protocol (World.entry_data w) = true
  ∧ World.futures w !! fut = Some (mkFuture OwnParameter FPending)
  ∧ World.timers w !! h = Some (mkTimer ParameterWaitTimeout true).

(** A deletion of [device_id] waits at [stage] for the hub: its future
    [fut] is pending and the handle [h] of its timeout is live. *)
Definition deleting (w : World.t) (fut h : nat) (stage : Deletion.stage)
    (device_id : string) : Prop :=
  Deletion._future (World.delete_manager w) = Some fut
  ∧ Deletion._stage (World.delete_manager w) = Some stage
  ∧ Deletion._device_id (World.delete_manager w) = Some device_id
  ∧ Deletion.waiter (World.delete_manager w) = Some (fut, h, device_id)
  ∧ EntryData.protocol (World.entry_data w) = true
  ∧ World.futures w !! fut = Some (mkFuture OwnDeletion FPending)
  ∧ World.timers w !! h = Some (mkTimer DeleteWaitTimeout true).

(** A line of the hub that the parser turns into an EVENT with the given
    tokens. *)
Definition event_line (lib : Library) (line : string) (tokens : list string)
    : Prop :=
  PyStr.strip line ≠ ""
  ∧ ∃ event, Parser.parse_line (float_ok lib) (PyStr.strip line) = Ok event
           ∧ event !! "tag" = Some (PStr "EVENT")
           ∧ event !! "event" = Some (PList tokens).

(** Pairing has found the candidate [c] in the session of [flow_id] and
    waits for the caller to confirm it. *)
Definition confirmable (w : World.t) (flow_id : string) (c : candidate)
    : Prop :=
  Pairing._active (World.pairing_manager w) = true
  ∧ Pairing._exit_pending (World.pairing_manager w) = false
  ∧ Pairing._flow_id (World.pairing_manager w) = Some flow_id
  ∧ Pairing._stage (World.pairing_manager w) = Some Pairing.await_confirmation
  ∧ Pairing._candidate (World.pairing_manager w) = Some c
  ∧ Pairing._finalize_future (World.pairing_manager w) = None
  ∧ Pairing._requested_stop (World.pairing_manager w) = true
  ∧ deletion_busy w = false
  ∧ parameter_busy w = false
  ∧ EntryData.protocol (World.entry_data w) = true.

(** The sample bridge when the search has found the candidate AB12EF, and
    that candidate. *)
Definition sample_candidate_found : World.t :=
  run sample_library sample_ready
    [StartSearch "flow"; HubLine "RESULT;OK;0"; HubLine "RESULT;OK;0";
     HubLine "EVENT;ab12ef;NEW=1;WFA=1"].

Definition sample_candidate : candidate :=
  _build_candidate_details sample_library "AB12EF"
    (event_attributes ∅ ["NEW=1"; "WFA=1"]).

(** Pairing is leaving engineering mode: no session is active, the exit is
    at [stage], and the command of the stage is scheduled under the live
    handle [h]. *)
Definition exiting (w : World.t) (stage : Pairing.exit_stage)
    (command : string) (h : nat) : Prop :=
  Pairing._active (World.pairing_manager w) = false
  ∧ Pairing._exit_pending (World.pairing_manager w) = true
  ∧ Pairing._exit_stage (World.pairing_manager w) = Some stage
  ∧ Pairing._exit_command_handle (World.pairing_manager w) = Some h
  ∧ World.timers w !! h = Some (mkTimer (PairingExitSend command) true)
  ∧ deletion_busy w = false
  ∧ parameter_busy w = false
  ∧ EntryData.protocol (World.entry_data w) = true.

(** The sample bridge after a search was started and cancelled. *)
Definition sample_exiting : World.t :=
  run sample_library sample_ready [StartSearch "flow"; Cancel "cancelled" false].

(** Pairing is leaving engineering mode and waits at [stage] for the hub
    or for a handle of the loop. *)
Definition leaving (w : World.t) (stage : Pairing.exit_stage) : Prop :=
  Pairing._active (World.pairing_manager w) = false
  ∧ Pairing._exit_pending (World.pairing_manager w) = true
  ∧ Pairing._exit_stage (World.pairing_manager w) = Some stage
  ∧ deletion_busy w = false
  ∧ parameter_busy w = false
  ∧ EntryData.protocol (World.entry_data w) = true.

(** ** The framing of the serial line ([uart_transport.py]) *)

Module AjaxProtocol.

Definition CR : ascii := ascii_of_nat 13.
Definition LF : ascii := ascii_of_nat 10.
Definition CRLF : string := String CR (String LF EmptyString).

(** [buf.split("\r\n", 1)] when ["\r\n" in buf], and [None] when not: the
    text before the first CR LF and the text after it. *)
Fixpoint split_crlf (buf : string) : option (string * string) :=
  match buf with
  | EmptyString => None
  | String c r =>
      match r with
      | String c' r' =>
          if bool_decide (c = CR) && bool_decide (c' = LF) then
            Some (EmptyString, r')
          else
            match split_crlf r with
            | Some (line, rest) => Some (String c line, rest)
            | None => None
            end
      | EmptyString => None
      end
  end.

(** The loop [while "\r\n" in self._buf] of [data_received]: the lines cut
    off the buffer, in order, and what is left of it.  Every turn shortens
    the buffer, so its length is fuel enough. *)
Fixpoint drain (fuel : nat) (buf : string) : list string * string :=
  match fuel with
  | 0 => ([], buf)
  | S fuel =>
      match split_crlf buf with
      | Some (line, rest) =>
          let '(ls, rest') := drain fuel rest in (line :: ls, rest')
      | None => ([], buf)
      end
  end.

(** The lines of a buffer and what is left of it. *)
Definition lines (buf : string) : list string * string :=
  drain (String.length buf) buf.

(** [data_received(data)] on the decoded chunk: the chunk is appended to
    [_buf], and every line cut off the buffer is stripped, parsed and
    handed to the dispatcher (the part [data_received] of the bridge
    models).  The state is [_buf] and the bridge. *)
Definition data_received (lib : Library) (chunk : string)
    (state : string * World.t) : string * World.t :=
  let buf := state.1 +:+ chunk in
  let '(ls, rest') := lines buf in
  (rest', run lib state.2 (HubLine <$> ls)).

(** What [send_cmd(cmd)] writes to the transport. *)
Definition frame (cmd : string) : string := cmd +:+ CRLF.

End AjaxProtocol.

(** ** The state of the hub ([_convert_rstate]) *)

(** What [_convert_rstate] stores under a key: the value of the one field
    with this key, or the list of the values of the fields with it. *)
Inductive rstate_value :=
| Single (s : string)
| Several (l : list string).

Definition rstate_pyval (v : rstate_value) : pyval :=
  match v with
  | Single s => PStr s
  | Several l => PList l
  end.

(** One turn of the loop for a field [key=value]: [data.get(key)] is
    [None], a list, or the value stored before. *)
Definition rstate_store (existing : option rstate_value) (value : string)
    : rstate_value :=
  match existing with
  | None => Single value
  | Some (Several l) => Several (l ++ [value])
  | Some (Single s) => Several [s; value]
  end.

(** The loop [for kv in parts[2:]] of [_convert_rstate]. *)
Fixpoint convert_pairs (data : gmap string rstate_value) (kvs : list string)
    : gmap string rstate_value :=
  match kvs with
  | [] => data
  | kv :: rest =>
      if negb (PyStr.contains "="%char kv) then convert_pairs data rest
      else
        let '(key, value) := PyStr.split_first "="%char kv in
        let key := PyStr.upper key in
        convert_pairs
          (<[key := rstate_store (data !! key) (default "" value)]> data) rest
  end.

(** [_convert_rstate(event)]: without a raw line the event is copied;
    only a [str] has [split]. *)
Definition _convert_rstate (event : pydict) : result pydict :=
  match event !! "raw" with
  | Some (PStr raw) =>
      if bool_decide (raw = "") then Ok event
      else
        Ok (rstate_pyval <$>
            convert_pairs {[ "raw" := Single raw ]}
              (drop 2 (PyStr.split ";"%char raw)))
  | Some v => if truthy v then Raise (AttributeError "split") else Ok event
  | None => Ok event
  end.

(** The values the fields [kvs] give for [key], in the order of the
    fields: those of the fields that hold [=] and whose text before the
    first [=], in upper case, is [key]. *)
Definition rstate_values (key : string) (kvs : list string) : list string :=
  omap (λ kv,
    if PyStr.contains "="%char kv then
      let '(k, v) := PyStr.split_first "="%char kv in
      if decide (PyStr.upper k = key) then Some (default "" v) else None
    else None) kvs.

(** The sample deletion after the hub accepted [stop] and [del]. *)
Definition sample_delete_accepted : World.t :=
  run sample_library sample_deleting
    [HubLine "RESULT;OK;0"; HubLine "RESULT;OK;0"].

(** ** The futures of pairing and the session that owns them *)

(** The future [i] is one of pairing and is pending. *)
Definition pairing_pending (w : World.t) (i : nat) : Prop :=
  ∃ f, World.futures w !! i = Some f
       ∧ f_owner f = OwnPairing ∧ done f = false.

(** The attribute [fut] holds no future, or one that is done. *)
Definition future_settled (w : World.t) (fut : option nat) : Prop :=
  ∀ i, fut = Some i → ∃ f, World.futures w !! i = Some f ∧ done f = true.

(** Every pending future of pairing is the search future or the finalize
    future of the running session; a finalize future exists only in the
    stage [waiting_finalize]; from the stage [await_confirmation] on the
    search future is done; and the two attributes hold futures of the
    loop. *)
Definition futures_owned (w : World.t) : Prop :=
  let p := World.pairing_manager w in
  (∀ i, pairing_pending w i →
     Pairing._active p = true
     ∧ (Pairing._search_future p = Some i
        ∨ Pairing._finalize_future p = Some i))
  ∧ (Pairing._finalize_future p ≠ None →
     Pairing._stage p = Some Pairing.waiting_finalize)
  ∧ (Pairing._stage p = Some Pairing.await_confirmation
     ∨ Pairing._stage p = Some Pairing.waiting_finalize →
     future_settled w (Pairing._search_future p))
  ∧ (∀ i, Pairing._search_future p = Some i
          ∨ Pairing._finalize_future p = Some i →
          (i < length (World.futures w))%nat).

(** [fut and not fut.done()], as a property of the bridge. *)
Definition pending_at (fut : option nat) (w : World.t) : bool :=
  match fut with
  | Some i => negb (default true (done <$> World.futures w !! i))
  | None => false
  end.

(** The table of futures after the future of the attribute [fut], if it
    is pending, was given the state [st]. *)
Definition settle_at (fut : option nat) (st : fstate) (l : list future)
    : list future :=
  match fut with
  | Some i => alter (λ f, if done f then f else mkFuture (f_owner f) st) i l
  | None => l
  end.

(** The bridge after [_cleanup]. *)
Definition cleaned (send_wrk force_exit : bool) (w : World.t) : World.t :=
  (AjaxPairingCoordinator._cleanup send_wrk force_exit w).2.

(** * Properties of the line parser *)

Lemma split_cons sep s : ∃ h t, PyStr.split sep s = h :: t.
Proof.
  unfold PyStr.split. destruct (PyStr.split_pieces sep s) as [h t]. eauto.
Qed.

Section ParserFacts.

Variable float_ok : string → bool.

Lemma parse_line_unfold line :
  Parser.parse_line float_ok line =
  Ok (match Parser.tag_fields float_ok (Parser.tag_of line)
              (PyStr.split ";"%char line) with
      | Ok d => Parser.update (Parser.bare_record line) d
      | Raise e => <["error" := PStr (str_exn e)]> (Parser.bare_record line)
      end).
Proof.
  unfold Parser.parse_line, Parser.bare_record, Parser.tag_of.
  destruct (split_cons ";"%char line) as (h & t & ->). reflexivity.
Qed.

Lemma tag_fields_unknown tag parts :
  tag ∉ Parser.known_tags → Parser.tag_fields float_ok tag parts = Ok ∅.
Proof.
  intros Hn. unfold Parser.tag_fields.
  repeat case_decide; try reflexivity; subst; exfalso; apply Hn;
    unfold Parser.known_tags; set_solver.
Qed.

Lemma with_floats_other fields parsed k :
  k ≠ "loc_noise" → k ≠ "loc_rssi" →
  Parser.with_floats float_ok fields parsed !! k = parsed !! k.
Proof.
  intros H1 H2. unfold Parser.with_floats.
  case_decide; [|done].
  destruct (fields !! 7); [|done]. destruct (fields !! 8); [|done].
  destruct (float_ok s && float_ok s0); [|done].
  by rewrite !lookup_insert_ne.
Qed.

Lemma with_floats_failed fields parsed f7 f8 k :
  fields !! 7 = Some f7 → fields !! 8 = Some f8 →
  float_ok f7 && float_ok f8 = false →
  Parser.with_floats float_ok fields parsed !! k = parsed !! k.
Proof.
  intros H7 H8 Hf. unfold Parser.with_floats.
  case_decide; [|done]. by rewrite H7, H8, Hf.
Qed.

Lemma with_setting_byte_other key i fields parsed k :
  k ≠ key → Parser.with_setting_byte key i fields parsed !! k = parsed !! k.
Proof.
  intros Hk. unfold Parser.with_setting_byte.
  case_decide; [|done]. destruct (fields !! i); [|done].
  by rewrite lookup_insert_ne.
Qed.

Lemma with_setting_byte_failed key i fields parsed f :
  fields !! i = Some f → PyStr.py_int f = None →
  Parser.with_setting_byte key i fields parsed !! key = Some PNone.
Proof.
  intros Hf Hi. unfold Parser.with_setting_byte.
  rewrite decide_True by (by eapply lookup_lt_Some).
  rewrite Hf. unfold Parser._maybe_int. rewrite Hi. apply lookup_insert_eq.
Qed.

Lemma parse_status_ok fields :
  ∃ d, Parser.parse_status float_ok fields = Ok d.
Proof. unfold Parser.parse_status. eauto. Qed.

Lemma tag_fields_keeps_tag tag parts d k :
  tag ≠ "RSTATE" → k = "tag" ∨ k = "raw" →
  Parser.tag_fields float_ok tag parts = Ok d → d !! k = None.
Proof.
  intros Hr Hk. unfold Parser.tag_fields.
  repeat case_decide; try congruence.
  - unfold Parser.parse_alarm, Parser.index.
    destruct (parts !! 1); simpl; [|done].
    destruct (parts !! 2); simpl; [|done].
    intros [= <-]. destruct Hk as [-> | ->]; by simplify_map_eq.
  - unfold Parser.parse_status. intros [= <-].
    rewrite !with_setting_byte_other, with_floats_other
      by (destruct Hk as [-> | ->]; done).
    destruct Hk as [-> | ->]; by simplify_map_eq.
  - intros [= <-]. destruct Hk as [-> | ->]; by simplify_map_eq.
  - unfold Parser.parse_list. intros [= <-].
    destruct Hk as [-> | ->]; by simplify_map_eq.
  - unfold Parser.parse_result. intros [= <-].
    destruct Hk as [-> | ->]; by simplify_map_eq.
  - intros [= <-]. done.
Qed.



End ParserFacts.




(** * Properties of the sessions *)

Ltac unfold_monad :=
  unfold mbind, M_bind, mret, M_ret, raise, lift, modify, when, try_except,
    the_pairing, the_deletion, the_parameter, the_entry_data, the_futures,
    on_pairing, on_deletion, on_parameter, on_entry_data,
    send_cmd, call_later, cancel_handle, cancel_if_set, create_future,
    future_done, resolve, set_result, set_exception, future_cancel,
    is_pending, set_exception_on, set_result_on in *.

(** Closed decisions are settled by computation. *)
Ltac decide_closed :=
  repeat match goal with
  | |- context [bool_decide ?P] =>
      is_closed_term P;
      let b := eval vm_compute in (bool_decide P) in
      match b with
      | true => change (bool_decide P) with true
      | false => change (bool_decide P) with false
      end
  end.

Ltac mnorm :=
  repeat (first [progress unfold_monad | progress cbn | progress decide_closed]).

(** Redex-free form of a bridge whose records are known. *)
Ltac simpl_world :=
  cbn [
    Pairing._active Pairing.set_active Pairing._flow_id Pairing.set_flow_id
    Pairing._stage Pairing.set_stage Pairing._timeout_handle
    Pairing.set_timeout_handle Pairing._search_future
    Pairing.set_search_future Pairing._finalize_future
    Pairing.set_finalize_future Pairing._candidate Pairing.set_candidate
    Pairing._in_engineering Pairing.set_in_engineering Pairing._exit_pending
    Pairing.set_exit_pending Pairing._exit_stage Pairing.set_exit_stage
    Pairing._exit_timeout_handle Pairing.set_exit_timeout_handle
    Pairing._exit_command_handle Pairing.set_exit_command_handle
    Pairing._stop_retries Pairing.set_stop_retries Pairing._requested_stop
    Pairing.set_requested_stop Deletion._future Deletion.set_future
    Deletion._stage Deletion.set_stage Deletion._device_id
    Deletion.set_device_id Deletion.waiter Deletion.set_waiter
    ParamUpdate._future ParamUpdate.set_future ParamUpdate._stage
    ParamUpdate.set_stage ParamUpdate._device_id ParamUpdate.set_device_id
    ParamUpdate._command ParamUpdate.set_command ParamUpdate.waiter
    ParamUpdate.set_waiter EntryData.protocol EntryData.set_protocol
    EntryData.devices EntryData.set_devices EntryData.allowed_ids
    EntryData.set_allowed_ids EntryData.list_active EntryData.set_list_active
    EntryData.list_stage EntryData.set_list_stage EntryData.list_retries
    EntryData.set_list_retries EntryData.list_pending
    EntryData.set_list_pending EntryData.devices_snapshot
    EntryData.set_devices_snapshot EntryData.list_timeout_task
    EntryData.set_list_timeout_task EntryData.list_wrk_handle
    EntryData.set_list_wrk_handle EntryData.hub_device_code
    EntryData.set_hub_device_code World.entry_data World.set_entry_data
    World.pairing_manager World.set_pairing_manager World.delete_manager
    World.set_delete_manager World.parameter_coordinator
    World.set_parameter_coordinator World.timers World.set_timers
    World.futures World.set_futures World.wire World.set_wire
    World.registry_removed World.set_registry_removed World.dispatched
    World.set_dispatched
  ] in *.

Ltac destruct_world w :=
  let ed := fresh "ed" in
  destruct w as [ed ? ? ? ? ? ? ? ?]; destruct ed; cbn in *; subst.

(** C10.  [async_delete] of the empty id or of the hub's own code raises
    the invalid-device error at once: the bridge is left as it was, so the
    lock is not taken and nothing is written to the wire. *)
Theorem async_delete_refuses_hub (w : World.t) (device_id : string) :
  PyStr.upper device_id = ""
  ∨ EntryData.hub_device_code (World.entry_data w)
    = Some (PyStr.upper device_id) →
  AjaxDeletionCoordinator.async_delete device_id w
  = (Raise (HomeAssistantError "Invalid device id"), w).
Proof.
  intros H. unfold AjaxDeletionCoordinator.async_delete. unfold_monad.
  destruct H as [-> | ->].
  - reflexivity.
  - rewrite (bool_decide_eq_true_2 (Some _ = Some _)) by done.
    by rewrite orb_true_r.
Qed.

Section SessionFacts.

Variable lib : Library.

Lemma run_cons w a l : run lib w (a :: l) = run lib (step lib a w).2 l.
Proof. reflexivity. Qed.

Lemma run_nil w : run lib w [] = w.
Proof. reflexivity. Qed.

Lemma hub_line_result line status code w w' :
  result_line lib line status code →
  (∀ ev, is_result ev status code → _handle_event lib ev w = (Ok tt, w')) →
  (step lib (HubLine line) w).2 = w'.
Proof.
  intros (Hne & ev & Hp & Hr) Hh. cbn. unfold data_received.
  rewrite bool_decide_eq_false_2 by done.
  unfold mbind at 1, M_bind, lift. rewrite Hp.
  unfold try_except. by rewrite (Hh ev Hr).
Qed.

Lemma async_delete_started w device_id fut w0 :
  AjaxDeletionCoordinator.async_delete device_id w
  = (Ok (AwaitingFuture fut), w0) →
  fut = length (World.futures w)
  ∧ w0 = World.set_delete_manager
           (Deletion.mk (Some fut) (Some Deletion.await_stop)
              (Some (PyStr.upper device_id))
              (Some (fut, length (World.timers w), PyStr.upper device_id)))
         (World.set_timers (World.timers w ++ [mkTimer DeleteWaitTimeout true])
         (World.set_wire (World.wire w ++ ["stop"])
         (World.set_futures
            (World.futures w ++ [mkFuture OwnDeletion FPending]) w)))
  ∧ EntryData.protocol (World.entry_data w) = true.
Proof.
  unfold AjaxDeletionCoordinator.async_delete. unfold_monad.
  destruct w as [ed p d pa ti fu wi rr di]. cbn.
  repeat (case_match; cbn; try discriminate).
  intros [= <- <-]; split_and!; try reflexivity.
  by destruct (EntryData.protocol ed).
Qed.

Lemma deletion_stop_ok w ev code fut id wt :
  is_result ev "OK" code → is_in code ok_codes = true →
  World.delete_manager w
  = Deletion.mk (Some fut) (Some Deletion.await_stop) (Some id) wt →
  EntryData.protocol (World.entry_data w) = true →
  _handle_event lib ev w =
  (Ok tt,
   World.set_delete_manager
     (Deletion.mk (Some fut) (Some Deletion.await_delete) (Some id) wt)
     (World.set_wire (World.wire w ++ ["del " +:+ id]) w)).
Proof.
  intros (Ht & Hs & Hc) Hin Hd Hp. destruct_world w.
  unfold _handle_event, AjaxDeletionCoordinator.handle_event.
  unfold_monad. cbn. rewrite Ht, Hs, Hc. cbn. rewrite Hin. reflexivity.
Qed.

Lemma deletion_stop_busy w ev fut id wt :
  is_result ev "NAK" "2" →
  World.delete_manager w
  = Deletion.mk (Some fut) (Some Deletion.await_stop) (Some id) wt →
  EntryData.protocol (World.entry_data w) = true →
  _handle_event lib ev w
  = (Ok tt, World.set_wire (World.wire w ++ ["stop"]) w).
Proof.
  intros (Ht & Hs & Hc) Hd Hp. destruct_world w.
  unfold _handle_event, AjaxDeletionCoordinator.handle_event.
  unfold_monad. cbn. rewrite Ht, Hs, Hc. reflexivity.
Qed.

Lemma deletion_delete_ok w ev code fut id wt :
  is_result ev "OK" code → is_in code ok_codes = true →
  World.delete_manager w
  = Deletion.mk (Some fut) (Some Deletion.await_delete) (Some id) wt →
  EntryData.protocol (World.entry_data w) = true →
  _handle_event lib ev w =
  (Ok tt,
   World.set_delete_manager
     (Deletion.mk (Some fut) (Some Deletion.await_wrk) (Some id) wt)
     (World.set_wire (World.wire w ++ ["wrk"]) w)).
Proof.
  intros (Ht & Hs & Hc) Hin Hd Hp. destruct_world w.
  unfold _handle_event, AjaxDeletionCoordinator.handle_event.
  unfold_monad. cbn. rewrite Ht, Hs, Hc. cbn. rewrite Hin. reflexivity.
Qed.

Lemma deletion_delete_nak w ev status code fut id wt f :
  is_result ev status code →
  bool_decide (status = "OK") && is_in code ok_codes = false →
  World.delete_manager w
  = Deletion.mk (Some fut) (Some Deletion.await_delete) (Some id) wt →
  EntryData.protocol (World.entry_data w) = true →
  World.futures w !! fut = Some f → f_state f = FPending →
  _handle_event lib ev w =
  (Ok tt,
   World.set_delete_manager (Deletion.mk None None None wt)
     (World.set_wire (World.wire w ++ ["wrk"])
        (World.set_futures
           (<[fut := mkFuture (f_owner f)
                       (FException (HomeAssistantError
                          ("delete_failed status=" +:+ status
                           +:+ " code=" +:+ code)))]> (World.futures w)) w))).
Proof.
  intros (Ht & Hs & Hc) Hin Hd Hp Hf Hpend. destruct_world w.
  unfold _handle_event, AjaxDeletionCoordinator.handle_event,
    AjaxDeletionCoordinator._fail, AjaxDeletionCoordinator.cancel.
  destruct f as [o st]; cbn in *; subst st.
  pose proof (lookup_lt_Some _ _ _ Hf) as Hlt.
  repeat first
    [ progress mnorm | rewrite Ht | rewrite Hs | rewrite Hc | rewrite Hin
    | rewrite Hf | rewrite (list_lookup_insert_eq _ _ _ Hlt) | progress unfold done ].
  reflexivity.
Qed.

Lemma deletion_wrk_ok w ev code fut id wt f :
  is_result ev "OK" code → is_in code ok_codes = true →
  World.delete_manager w
  = Deletion.mk (Some fut) (Some Deletion.await_wrk) (Some id) wt →
  World.futures w !! fut = Some f → f_state f = FPending →
  _handle_event lib ev w =
  (Ok tt,
   World.set_futures
     (<[fut := mkFuture (f_owner f) (FResult VTrue)]> (World.futures w)) w).
Proof.
  intros (Ht & Hs & Hc) Hin Hd Hf Hpend. destruct_world w.
  unfold _handle_event, AjaxDeletionCoordinator.handle_event.
  destruct f as [o st]; cbn in *; subst st.
  repeat first
    [ progress mnorm | rewrite Ht | rewrite Hs | rewrite Hc | rewrite Hin
    | rewrite Hf | progress unfold done ].
  reflexivity.
Qed.

Lemma deletion_resume_result w fu st dv fut h id o v :
  World.delete_manager w = Deletion.mk fu st dv (Some (fut, h, id)) →
  World.futures w !! fut = Some (mkFuture o (FResult v)) →
  World.wire (AjaxDeletionCoordinator.resume w).2 = World.wire w
  ∧ World.delete_manager (AjaxDeletionCoordinator.resume w).2 = Deletion.init.
Proof.
  intros Hd Hf. destruct_world w.
  unfold AjaxDeletionCoordinator.resume, AjaxDeletionCoordinator.leave,
    AjaxDeletionCoordinator.after_delete.
  repeat first [ progress mnorm | rewrite Hf ].
  destruct (devices !! id) as [m|]; mnorm; [|done].
  destruct (bool_decide (m = Meta.empty)); mnorm; [done|].
  destruct (nonempty (Meta.device_registry_id m)); mnorm; done.
Qed.

Lemma ok_code_is_in code : code ∈ ok_codes → is_in code ok_codes = true.
Proof. intros H. by apply bool_decide_eq_true_2. Qed.

(** C3.  A deletion that has started, for the device id [id]:
    (1) when the hub answers the three commands with RESULT OK (with one of
    the accepted codes), the future is resolved with [True] and the
    commands written are exactly [stop], [del id], [wrk]; when the
    coroutine then resumes it writes nothing and the coordinator is idle
    (the refresh it schedules is a session of its own);
    (2) RESULT NAK with code 2 at the stop stage makes the session write
    [stop] again, and it stays pending at that stage;
    (3) RESULT NAK with code 1 at the del stage makes the session write
    [wrk] once and fail the future with the delete_failed error. *)
Theorem deletion_session (w w0 : World.t) (device_id : string) (fut : nat)
    (l1 l2 l3 n2 n1 c1 c2 c3 : string) :
  AjaxDeletionCoordinator.async_delete device_id w
  = (Ok (AwaitingFuture fut), w0) →
  result_line lib l1 "OK" c1 → c1 ∈ ok_codes →
  result_line lib l2 "OK" c2 → c2 ∈ ok_codes →
  result_line lib l3 "OK" c3 → c3 ∈ ok_codes →
  result_line lib n2 "NAK" "2" →
  result_line lib n1 "NAK" "1" →
  let id := PyStr.upper device_id in
  (let w3 := run lib w0 [HubLine l1; HubLine l2; HubLine l3] in
   let w4 := run lib w3 [DeleteResumes] in
   World.wire w3 = (World.wire w ++ ["stop"; "del " +:+ id; "wrk"])%list
   ∧ f_state <$> World.futures w3 !! fut = Some (FResult VTrue)
   ∧ World.wire w4 = World.wire w3
   ∧ Deletion.busy (World.delete_manager w4) = false
   ∧ Deletion.locked (World.delete_manager w4) = false)
  ∧ (let w1 := run lib w0 [HubLine n2] in
     World.wire w1 = (World.wire w ++ ["stop"; "stop"])%list
     ∧ f_state <$> World.futures w1 !! fut = Some FPending
     ∧ Deletion._future (World.delete_manager w1) = Some fut
     ∧ Deletion._stage (World.delete_manager w1) = Some Deletion.await_stop)
  ∧ (let w2 := run lib w0 [HubLine l1; HubLine n1] in
     World.wire w2 = (World.wire w ++ ["stop"; "del " +:+ id; "wrk"])%list
     ∧ f_state <$> World.futures w2 !! fut
       = Some (FException
                 (HomeAssistantError "delete_failed status=NAK code=1"))).
Proof.
  intros Hs H1 Hc1 H2 Hc2 H3 Hc3 Hn2 Hn1 id.
  apply async_delete_started in Hs as (-> & -> & Hp).
  apply ok_code_is_in in Hc1, Hc2, Hc3.
  destruct w as [ed p d pa ti fu wi rr di]. destruct ed. cbn in Hp. subst.
  cbn [World.futures World.timers World.wire World.set_futures World.set_wire
       World.set_timers World.set_delete_manager].
  assert (Hfut : ∀ x, (fu ++ [x])%list !! length fu = Some x).
  { intros x. by rewrite list_lookup_middle. }
  assert (Hlt : length fu < length (fu ++ [mkFuture OwnDeletion FPending])).
  { rewrite length_app. cbn. lia. }
  cbv zeta. split; [|split].
  - rewrite (run_cons _ (HubLine l1)).
    erewrite (hub_line_result l1); [|done|]; cycle 1.
    { intros ev Hev.
      eapply deletion_stop_ok; [done|done|reflexivity|reflexivity]. }
    simpl_world. rewrite (run_cons _ (HubLine l2)).
    erewrite (hub_line_result l2); [|done|]; cycle 1.
    { intros ev Hev.
      eapply deletion_delete_ok; [done|done|reflexivity|reflexivity]. }
    simpl_world. rewrite (run_cons _ (HubLine l3)).
    erewrite (hub_line_result l3); [|done|]; cycle 1.
    { intros ev Hev.
      eapply deletion_wrk_ok; [done|done|reflexivity|apply Hfut|reflexivity]. }
    simpl_world. rewrite run_nil.
    match goal with
    | |- context [run lib ?w3 [DeleteResumes]] =>
        destruct (deletion_resume_result w3 (Some (length fu))
                    (Some Deletion.await_wrk) (Some id) (length fu)
                    (length ti) id OwnDeletion VTrue)
          as [Hw Hd]
    end.
    { reflexivity. }
    { simpl_world. by rewrite list_lookup_insert_eq. }
    rewrite run_cons, run_nil. cbn [step]. rewrite Hw, Hd. simpl_world.
    split_and!; try reflexivity.
    + by rewrite <- !app_assoc.
    + by rewrite list_lookup_insert_eq.
  - rewrite run_cons, run_nil.
    erewrite (hub_line_result n2); [|done|]; cycle 1.
    { intros ev Hev.
      eapply deletion_stop_busy; [done|reflexivity|reflexivity]. }
    simpl_world. split_and!; try reflexivity.
    + by rewrite <- !app_assoc.
    + by rewrite Hfut.
  - rewrite (run_cons _ (HubLine l1)).
    erewrite (hub_line_result l1); [|done|]; cycle 1.
    { intros ev Hev.
      eapply deletion_stop_ok; [done|done|reflexivity|reflexivity]. }
    simpl_world. rewrite run_cons, run_nil.
    erewrite (hub_line_result n1); [|done|]; cycle 1.
    { intros ev Hev.
      eapply deletion_delete_nak;
        [done|done|reflexivity|reflexivity|apply Hfut|reflexivity]. }
    simpl_world. split.
    + by rewrite <- !app_assoc.
    + by rewrite list_lookup_insert_eq.
Qed.

End SessionFacts.

Lemma sample_result_line status code :
  (status, code) ∈ [("OK", "0"); ("NAK", "2"); ("NAK", "1")] →
  result_line sample_library ("RESULT;" +:+ status +:+ ";" +:+ code) status code.
Proof.
  intros H. repeat (apply elem_of_cons in H as [[= -> ->]|H]);
   [| | | by apply elem_of_nil in H].
  all: split; [intros E; discriminate E|];
    eexists; split; [reflexivity|]; repeat split; reflexivity.
Qed.

Lemma sample_ok_code : "0" ∈ ok_codes.
Proof. unfold ok_codes. set_solver. Qed.

Lemma deletion_session_witness :
  ∃ w0,
    AjaxDeletionCoordinator.async_delete "ab12cd" sample_ready
    = (Ok (AwaitingFuture 0), w0)
    ∧ World.wire
        (run sample_library w0
           [HubLine "RESULT;OK;0"; HubLine "RESULT;OK;0"; HubLine "RESULT;OK;0"])
      = (World.wire sample_ready
           ++ ["stop"; "del " +:+ PyStr.upper "ab12cd"; "wrk"])%list.
Proof.
  eexists. split; [vm_compute; reflexivity|].
  refine (proj1 (proj1 (deletion_session sample_library sample_ready _
    "ab12cd" 0
    "RESULT;OK;0" "RESULT;OK;0" "RESULT;OK;0" "RESULT;NAK;2" "RESULT;NAK;1"
    "0" "0" "0" _ _ _ _ _ _ _ _ _))).
  - vm_compute; reflexivity.
  - apply (sample_result_line "OK" "0"). set_solver.
  - apply sample_ok_code.
  - apply (sample_result_line "OK" "0"). set_solver.
  - apply sample_ok_code.
  - apply (sample_result_line "OK" "0"). set_solver.
  - apply sample_ok_code.
  - apply (sample_result_line "NAK" "2"). set_solver.
  - apply (sample_result_line "NAK" "1"). set_solver.
Defined.

Lemma async_delete_refuses_hub_witness :
  AjaxDeletionCoordinator.async_delete ""
    (World.set_entry_data
       (EntryData.set_hub_device_code (Some "00A1B2")
          (World.entry_data sample_ready)) sample_ready)
  = (Raise (HomeAssistantError "Invalid device id"),
     World.set_entry_data
       (EntryData.set_hub_device_code (Some "00A1B2")
          (World.entry_data sample_ready)) sample_ready)
  ∧ AjaxDeletionCoordinator.async_delete "00a1b2"
      (World.set_entry_data
         (EntryData.set_hub_device_code (Some "00A1B2")
            (World.entry_data sample_ready)) sample_ready)
    = (Raise (HomeAssistantError "Invalid device id"),
       World.set_entry_data
         (EntryData.set_hub_device_code (Some "00A1B2")
            (World.entry_data sample_ready)) sample_ready).
Proof.
  split.
  - apply async_delete_refuses_hub. left. reflexivity.
  - apply async_delete_refuses_hub. right. reflexivity.
Defined.

(** C7, at the failing input.  [force_cleanup] sends nothing, cancels the
    three timers and fails the pending future, but it leaves
    [_exit_pending] and [_exit_stage] set: the next [start_search] is
    rejected as busy, and no timer is left that could end the exit. *)
Theorem force_cleanup_blocks_next_search :
  World.wire after_force_cleanup = ["stop"]
  ∧ Forall (λ t, t_live t = false) (World.timers after_force_cleanup)
  ∧ World.futures after_force_cleanup
    = [mkFuture OwnPairing (FException (PairingCancelledError "cancelled"))]
  ∧ Pairing._exit_pending (World.pairing_manager after_force_cleanup) = true
  ∧ Pairing._exit_stage (World.pairing_manager after_force_cleanup)
    = Some Pairing.await_stt_result
  ∧ AjaxPairingCoordinator.start_search "next" after_force_cleanup
    = (Raise (PairingError "busy"), after_force_cleanup).
Proof.
  split_and!; try reflexivity.
  vm_compute. repeat constructor.
Qed.

Lemma run_reachable lib w actions :
  reachable lib w → reachable lib (run lib w actions).
Proof.
  revert w. induction actions as [|a l IH]; intros w Hw; [done|].
  cbn. apply IH. by constructor.
Qed.

(** C1, as the claim states it, fails: a pairing search starts while a
    parameter update is busy, it writes its [stop], and two of the four
    operations are busy in a reachable state. *)
Lemma pairing_starts_during_parameter_update :
  reachable sample_library two_sessions
  ∧ parameter_busy two_sessions = true
  ∧ pairing_busy two_sessions = true
  ∧ busy_count two_sessions = 2
  ∧ World.wire two_sessions
    = ["ech 0"; "inf 1"; "ext 1"; "stop"; "lst"; "wrk"; "stop"; "stop"].
Proof.
  split; [apply run_reachable; constructor|].
  split_and!; reflexivity.
Qed.

(** C4, as the claim states it, fails: after four RESULT NAK 2 replies in a
    row (to [stop], [stt], [stop], [stt]) the session is still active, its
    future is pending and two retries were counted. *)
Lemma four_busy_replies_do_not_fail :
  let w := run sample_library sample_ready
             (StartSearch "flow" :: replicate 4 (HubLine "RESULT;NAK;2")) in
  Pairing._active (World.pairing_manager w) = true
  ∧ World.futures w = [mkFuture OwnPairing FPending]
  ∧ Pairing._stop_retries (World.pairing_manager w) = 2
  ∧ World.wire w = ["stop"; "stt"; "stop"; "stt"; "stop"].
Proof. cbv zeta. split_and!; reflexivity. Qed.

Lemma start_search_busy w flow_id :
  pairing_busy w = true ∨ refresh_busy w = true →
  AjaxPairingCoordinator.start_search flow_id w
  = (Raise (PairingError "busy"), w).
Proof.
  unfold pairing_busy, refresh_busy, AjaxPairingCoordinator.start_search.
  intros H. unfold_monad.
  destruct (Pairing._active (World.pairing_manager w)); [done|].
  destruct (Pairing._exit_pending (World.pairing_manager w)); [done|].
  destruct (EntryData.list_active (World.entry_data w)); [done|].
  cbn in H. by destruct H.
Qed.

Lemma async_delete_blocked w device_id :
  refresh_busy w = true ∨ pairing_busy w = true →
  (AjaxDeletionCoordinator.async_delete device_id w).2 = w
  ∧ ∀ fut, (AjaxDeletionCoordinator.async_delete device_id w).1
           ≠ Ok (AwaitingFuture fut).
Proof.
  unfold pairing_busy, refresh_busy, AjaxDeletionCoordinator.async_delete.
  intros H. unfold_monad.
  repeat match goal with
  | |- context [if ?b then _ else _] =>
      destruct b eqn:?; cbn;
      try (split; [reflexivity|intros ?; cbn; congruence])
  end.
  destruct H as [H|H]; cbn in *; congruence.
Qed.

Lemma async_delete_busy_error w device_id :
  PyStr.upper device_id ≠ "" →
  EntryData.hub_device_code (World.entry_data w) ≠ Some (PyStr.upper device_id) →
  Deletion.locked (World.delete_manager w) = false →
  deletion_busy w = false →
  EntryData.protocol (World.entry_data w) = true →
  EntryData.devices (World.entry_data w) !! PyStr.upper device_id ≠ None →
  refresh_busy w = true ∨ pairing_busy w = true →
  AjaxDeletionCoordinator.async_delete device_id w
  = (Raise (HomeAssistantError
             (if refresh_busy w then "Device list refresh in progress"
              else "Pairing operation in progress")), w).
Proof.
  unfold pairing_busy, refresh_busy, deletion_busy, Deletion.busy,
    AjaxDeletionCoordinator.async_delete.
  intros Hne Hhub Hl Hb Hp Hd H. unfold_monad. cbv beta.
  rewrite (bool_decide_eq_false_2 _ Hne).
  rewrite (bool_decide_eq_false_2 (Some _ = _)) by congruence.
  cbn [orb]. rewrite Hl, Hb, Hp. cbn [negb].
  rewrite (bool_decide_eq_false_2 _ Hd).
  destruct (EntryData.list_active (World.entry_data w)); [done|].
  destruct H as [H|H]; [done|]. by rewrite H.
Qed.

Lemma async_set_blocked w device_id command :
  refresh_busy w = true ∨ deletion_busy w = true ∨ pairing_busy w = true →
  (AjaxParameterCoordinator.async_set device_id command w).2 = w
  ∧ ∀ fut, (AjaxParameterCoordinator.async_set device_id command w).1
           ≠ Ok (AwaitingFuture fut).
Proof.
  unfold pairing_busy, refresh_busy, deletion_busy,
    AjaxParameterCoordinator.async_set.
  intros H. unfold_monad.
  repeat match goal with
  | |- context [if ?b then _ else _] =>
      destruct b eqn:?; cbn;
      try (split; [reflexivity|intros ?; cbn; congruence])
  end.
  destruct H as [H|[H|H]]; cbn in *; congruence.
Qed.

Lemma async_set_busy_error w device_id command :
  ParamUpdate.locked (World.parameter_coordinator w) = false →
  parameter_busy w = false →
  EntryData.protocol (World.entry_data w) = true →
  refresh_busy w = true ∨ deletion_busy w = true ∨ pairing_busy w = true →
  AjaxParameterCoordinator.async_set device_id command w
  = (Raise (HomeAssistantError
             (if refresh_busy w then "Device list refresh in progress"
              else if deletion_busy w then "Device deletion in progress"
              else "Pairing operation in progress")), w).
Proof.
  unfold pairing_busy, refresh_busy, deletion_busy, parameter_busy,
    ParamUpdate.busy, AjaxParameterCoordinator.async_set.
  intros Hl Hb Hp H. unfold_monad. cbv beta.
  rewrite Hl, Hb, Hp. cbn [negb].
  destruct (EntryData.list_active (World.entry_data w)); [done|].
  destruct (Deletion.busy (World.delete_manager w)); [done|].
  destruct H as [H|[H|H]]; [done|done|]. by rewrite H.
Qed.

Lemma refresh_while_active w :
  refresh_busy w = true → _async_refresh_device_list w = (Ok tt, w).
Proof.
  unfold refresh_busy, _async_refresh_device_list. intros H. unfold_monad.
  by rewrite H.
Qed.

(** C1, as the code has it.  The guards the code does have: a pairing
    search is refused with the busy error while pairing is active or
    exiting or a refresh is active; a deletion does not start while a
    refresh is active or pairing is active or exiting; a parameter update
    does not start while a refresh or a deletion is busy or pairing is
    active or exiting; a refresh requested while one is active returns at
    once.  In each case the bridge is left as it was, so nothing is written
    to the wire; for deletion and parameter update the error is the
    in-progress one when the earlier checks (lock, own future, connection,
    known device) pass. *)
Theorem session_start_guards (w : World.t) :
  (∀ flow_id, pairing_busy w = true ∨ refresh_busy w = true →
     AjaxPairingCoordinator.start_search flow_id w
     = (Raise (PairingError "busy"), w))
  ∧ (∀ device_id, refresh_busy w = true ∨ pairing_busy w = true →
       (AjaxDeletionCoordinator.async_delete device_id w).2 = w
       ∧ (∀ fut, (AjaxDeletionCoordinator.async_delete device_id w).1
                 ≠ Ok (AwaitingFuture fut))
       ∧ (PyStr.upper device_id ≠ "" →
          EntryData.hub_device_code (World.entry_data w)
          ≠ Some (PyStr.upper device_id) →
          Deletion.locked (World.delete_manager w) = false →
          deletion_busy w = false →
          EntryData.protocol (World.entry_data w) = true →
          EntryData.devices (World.entry_data w) !! PyStr.upper device_id
          ≠ None →
          AjaxDeletionCoordinator.async_delete device_id w
          = (Raise (HomeAssistantError
                     (if refresh_busy w then "Device list refresh in progress"
                      else "Pairing operation in progress")), w)))
  ∧ (∀ device_id command,
       refresh_busy w = true ∨ deletion_busy w = true ∨ pairing_busy w = true →
       (AjaxParameterCoordinator.async_set device_id command w).2 = w
       ∧ (∀ fut, (AjaxParameterCoordinator.async_set device_id command w).1
                 ≠ Ok (AwaitingFuture fut))
       ∧ (ParamUpdate.locked (World.parameter_coordinator w) = false →
          parameter_busy w = false →
          EntryData.protocol (World.entry_data w) = true →
          AjaxParameterCoordinator.async_set device_id command w
          = (Raise (HomeAssistantError
                     (if refresh_busy w then "Device list refresh in progress"
                      else if deletion_busy w then "Device deletion in progress"
                      else "Pairing operation in progress")), w)))
  ∧ (refresh_busy w = true → _async_refresh_device_list w = (Ok tt, w)).
Proof.
  split_and!.
  - intros flow_id H. by apply start_search_busy.
  - intros device_id H.
    destruct (async_delete_blocked w device_id H) as [H1 H2].
    split_and!; [done|done|]. intros. by apply async_delete_busy_error.
  - intros device_id command H.
    destruct (async_set_blocked w device_id command H) as [H1 H2].
    split_and!; [done|done|]. intros. by apply async_set_busy_error.
  - apply refresh_while_active.
Qed.

Lemma session_start_guards_witness :
  AjaxPairingCoordinator.start_search "flow" sample_refreshing
  = (Raise (PairingError "busy"), sample_refreshing)
  ∧ AjaxDeletionCoordinator.async_delete "ab12cd" sample_refreshing
    = (Raise (HomeAssistantError "Device list refresh in progress"),
       sample_refreshing)
  ∧ AjaxParameterCoordinator.async_set "ab12cd" "par AB12CD,1" sample_refreshing
    = (Raise (HomeAssistantError "Device list refresh in progress"),
       sample_refreshing).
Proof.
  destruct (session_start_guards sample_refreshing) as (Hs & Hd & Hp & _).
  split; [|split].
  - apply Hs. right. reflexivity.
  - refine (proj2 (proj2 (Hd "ab12cd" (or_introl eq_refl))) _ _ _ _ _ _);
      try reflexivity; discriminate.
  - refine (proj2 (proj2 (Hp "ab12cd" "par AB12CD,1" (or_introl eq_refl)))
              _ _ _); reflexivity.
Defined.

(** * Properties kept by every operation *)

Section Preserves.

Context (I : World.t → Prop).

Lemma preserves_bind {A B} (m : M A) (k : A → M B) :
  preserves I m → (∀ a, preserves I (k a)) → preserves I (m ≫= k).
Proof.
  intros Hm Hk w Hw. unfold mbind, M_bind. specialize (Hm w Hw).
  destruct (m w) as [[a|e] w']; cbn in *; [by apply Hk|done].
Qed.

Lemma preserves_ret {A} (a : A) : preserves I (mret a).
Proof. by intros w Hw. Qed.

Lemma preserves_raise {A} (e : exn) : preserves I (raise e : M A).
Proof. by intros w Hw. Qed.

Lemma preserves_lift {A} (r : result A) : preserves I (lift r).
Proof. by intros w Hw. Qed.

Lemma preserves_when (b : bool) (m : M unit) :
  preserves I m → preserves I (when b m).
Proof. intros Hm. destruct b; [done|apply preserves_ret]. Qed.

Lemma preserves_try_except {A} (m : M A) (h : exn → M A) :
  preserves I m → (∀ e, preserves I (h e)) → preserves I (try_except m h).
Proof.
  intros Hm Hh w Hw. unfold try_except. specialize (Hm w Hw).
  destruct (m w) as [[a|e] w']; cbn in *; [done|].
  destruct e; try done; by apply Hh.
Qed.

Lemma preserves_read {A} (f : World.t → A) :
  preserves I (λ w, (Ok (f w), w)).
Proof. by intros w Hw. Qed.

Lemma preserves_modify (f : World.t → World.t) :
  (∀ w, I w → I (f w)) → preserves I (modify f).
Proof. intros Hf w Hw. by apply Hf. Qed.

Lemma preserves_call_later (cb : callback) :
  (∀ w, I w →
     I (World.set_timers (World.timers w ++ [mkTimer cb true]) w)) →
  preserves I (call_later cb).
Proof. intros H w Hw. by apply H. Qed.

Lemma preserves_create_future (o : owner) :
  (∀ w, I w →
     I (World.set_futures (World.futures w ++ [mkFuture o FPending]) w)) →
  preserves I (create_future o).
Proof. intros H w Hw. by apply H. Qed.

Lemma preserves_future_done (i : nat) : preserves I (future_done i).
Proof. by intros w Hw. Qed.

Lemma preserves_resolve (i : nat) (st : fstate) :
  (∀ w f, I w → World.futures w !! i = Some f → done f = false →
     I (World.set_futures
          (<[i := mkFuture (f_owner f) st]> (World.futures w)) w)) →
  preserves I (resolve i st).
Proof.
  intros H w Hw. unfold resolve.
  destruct (World.futures w !! i) as [f|] eqn:Hf; [|done].
  destruct (done f) eqn:Hd; [done|]. by apply H.
Qed.

End Preserves.

(** Proves [preserves I m] by following the structure of [m]: [side]
    settles what a primitive write must keep, [known] the calls of
    operations already treated. *)
Ltac preserves_step side known :=
  first
    [ apply preserves_ret
    | apply preserves_raise
    | apply preserves_lift
    | solve [known]
    | apply preserves_bind; [|intros ?]
    | apply preserves_when
    | apply preserves_try_except; [|intros ?]
    | match goal with
      | |- preserves _ (if ?c then _ else _) => destruct c eqn:?
      | |- preserves _ (match ?x with _ => _ end) => destruct x eqn:?
      | |- preserves _ (let '(_, _) := ?x in _) => destruct x eqn:?
      end
    | progress (unfold the_pairing, the_deletion, the_parameter,
                  the_entry_data, the_futures); apply preserves_read
    | progress (unfold on_pairing, on_deletion, on_parameter, on_entry_data,
                  send_cmd, cancel_handle, future_cancel);
      apply preserves_modify; side
    | apply preserves_modify; side
    | progress (unfold cancel_if_set, is_pending, set_exception_on,
                  set_result_on, set_result, set_exception)
    | apply preserves_future_done
    | apply preserves_call_later; side
    | apply preserves_create_future; side
    | apply preserves_resolve; side
    | match goal with
      | |- preserves _ (let _ := _ in _) => cbv zeta
      end ].

(** ** The retry counters stay within their maxima *)

Ltac bounded_side :=
  intros;
  repeat match goal with
  | H : (_ <=? _)%nat = false |- _ => apply Nat.leb_gt in H
  | H : (_ <? _)%nat = true |- _ => apply Nat.ltb_lt in H
  | H : _ && _ = true |- _ => apply andb_prop in H as [? ?]
  | H : retries_bounded _ |- _ => destruct H
  end;
  unfold retries_bounded, LIST_MAX_RETRIES in *; cbn;
  split; first [assumption | lia].

Create HintDb retries.

Section RetriesBounded.

Variable lib : Library.

Lemma bounded_cancel_exit_command :
  preserves retries_bounded (AjaxPairingCoordinator._cancel_exit_command).
Proof.
  unfold AjaxPairingCoordinator._cancel_exit_command.
  repeat preserves_step ltac:(bounded_side) ltac:(auto with retries nocore).
Qed.

#[local] Hint Resolve bounded_cancel_exit_command : retries.

Lemma bounded_reset_timeout :
  preserves retries_bounded (AjaxPairingCoordinator._reset_timeout).
Proof.
  unfold AjaxPairingCoordinator._reset_timeout.
  repeat preserves_step ltac:(bounded_side) ltac:(auto with retries nocore).
Qed.

#[local] Hint Resolve bounded_reset_timeout : retries.

Lemma bounded_send_exit_command command stage :
  preserves retries_bounded (AjaxPairingCoordinator._send_exit_command command stage).
Proof.
  unfold AjaxPairingCoordinator._send_exit_command.
  repeat preserves_step ltac:(bounded_side) ltac:(auto with retries nocore).
Qed.

#[local] Hint Resolve bounded_send_exit_command : retries.

Lemma bounded_restart_wrk_fallback_timer :
  preserves retries_bounded (AjaxPairingCoordinator._restart_wrk_fallback_timer).
Proof.
  unfold AjaxPairingCoordinator._restart_wrk_fallback_timer.
  repeat preserves_step ltac:(bounded_side) ltac:(auto with retries nocore).
Qed.

#[local] Hint Resolve bounded_restart_wrk_fallback_timer : retries.

Lemma bounded_complete_exit_success :
  preserves retries_bounded (AjaxPairingCoordinator._complete_exit_success).
Proof.
  unfold AjaxPairingCoordinator._complete_exit_success.
  repeat preserves_step ltac:(bounded_side) ltac:(auto with retries nocore).
Qed.

#[local] Hint Resolve bounded_complete_exit_success : retries.

Lemma bounded_cleanup send_wrk force_exit :
  preserves retries_bounded (AjaxPairingCoordinator._cleanup send_wrk force_exit).
Proof.
  unfold AjaxPairingCoordinator._cleanup.
  repeat preserves_step ltac:(bounded_side) ltac:(auto with retries nocore).
Qed.

#[local] Hint Resolve bounded_cleanup : retries.

Lemma bounded_start_search flow_id :
  preserves retries_bounded (AjaxPairingCoordinator.start_search flow_id).
Proof.
  unfold AjaxPairingCoordinator.start_search.
  repeat preserves_step ltac:(bounded_side) ltac:(auto with retries nocore).
Qed.

#[local] Hint Resolve bounded_start_search : retries.

Lemma bounded_pairing_cancel reason immediate :
  preserves retries_bounded (AjaxPairingCoordinator.cancel reason immediate).
Proof.
  unfold AjaxPairingCoordinator.cancel.
  repeat preserves_step ltac:(bounded_side) ltac:(auto with retries nocore).
Qed.

#[local] Hint Resolve bounded_pairing_cancel : retries.

Lemma bounded_confirm_candidate flow_id :
  preserves retries_bounded (AjaxPairingCoordinator.confirm_candidate flow_id).
Proof.
  unfold AjaxPairingCoordinator.confirm_candidate.
  repeat preserves_step ltac:(bounded_side) ltac:(auto with retries nocore).
Qed.

#[local] Hint Resolve bounded_confirm_candidate : retries.

Lemma bounded_force_cleanup :
  preserves retries_bounded (AjaxPairingCoordinator.force_cleanup).
Proof.
  unfold AjaxPairingCoordinator.force_cleanup.
  repeat preserves_step ltac:(bounded_side) ltac:(auto with retries nocore).
Qed.

#[local] Hint Resolve bounded_force_cleanup : retries.

Lemma bounded_pairing_fail reason :
  preserves retries_bounded (AjaxPairingCoordinator._fail reason).
Proof.
  unfold AjaxPairingCoordinator._fail.
  repeat preserves_step ltac:(bounded_side) ltac:(auto with retries nocore).
Qed.

#[local] Hint Resolve bounded_pairing_fail : retries.

Lemma bounded_on_timeout :
  preserves retries_bounded (AjaxPairingCoordinator._on_timeout).
Proof.
  unfold AjaxPairingCoordinator._on_timeout.
  repeat preserves_step ltac:(bounded_side) ltac:(auto with retries nocore).
Qed.

#[local] Hint Resolve bounded_on_timeout : retries.

Lemma bounded_finalize_success refresh :
  preserves retries_bounded (AjaxPairingCoordinator._finalize_success refresh).
Proof.
  unfold AjaxPairingCoordinator._finalize_success.
  repeat preserves_step ltac:(bounded_side) ltac:(auto with retries nocore).
Qed.

#[local] Hint Resolve bounded_finalize_success : retries.

Lemma bounded_finalize_success_without_refresh :
  preserves retries_bounded (AjaxPairingCoordinator._finalize_success_without_refresh).
Proof.
  unfold AjaxPairingCoordinator._finalize_success_without_refresh.
  repeat preserves_step ltac:(bounded_side) ltac:(auto with retries nocore).
Qed.

#[local] Hint Resolve bounded_finalize_success_without_refresh : retries.

Lemma bounded_handle_exit_result status code :
  preserves retries_bounded (AjaxPairingCoordinator._handle_exit_result status code).
Proof.
  unfold AjaxPairingCoordinator._handle_exit_result.
  repeat preserves_step ltac:(bounded_side) ltac:(auto with retries nocore).
Qed.

#[local] Hint Resolve bounded_handle_exit_result : retries.

Lemma bounded_send_wrk_fallback :
  preserves retries_bounded (AjaxPairingCoordinator._send_wrk_fallback).
Proof.
  unfold AjaxPairingCoordinator._send_wrk_fallback.
  repeat preserves_step ltac:(bounded_side) ltac:(auto with retries nocore).
Qed.

#[local] Hint Resolve bounded_send_wrk_fallback : retries.

Lemma bounded_exit_send command :
  preserves retries_bounded (AjaxPairingCoordinator.exit_send command).
Proof.
  unfold AjaxPairingCoordinator.exit_send.
  repeat preserves_step ltac:(bounded_side) ltac:(auto with retries nocore).
Qed.

#[local] Hint Resolve bounded_exit_send : retries.

Lemma bounded_handle_exit_event event :
  preserves retries_bounded (AjaxPairingCoordinator._handle_exit_event event).
Proof.
  unfold AjaxPairingCoordinator._handle_exit_event.
  repeat preserves_step ltac:(bounded_side) ltac:(auto with retries nocore).
Qed.

#[local] Hint Resolve bounded_handle_exit_event : retries.

Lemma bounded_handle_result event :
  preserves retries_bounded (AjaxPairingCoordinator._handle_result event).
Proof.
  unfold AjaxPairingCoordinator._handle_result.
  repeat preserves_step ltac:(bounded_side) ltac:(auto with retries nocore).
Qed.

#[local] Hint Resolve bounded_handle_result : retries.

Lemma bounded_handle_event_line event :
  preserves retries_bounded (AjaxPairingCoordinator._handle_event_line lib event).
Proof.
  unfold AjaxPairingCoordinator._handle_event_line.
  repeat preserves_step ltac:(bounded_side) ltac:(auto with retries nocore).
Qed.

#[local] Hint Resolve bounded_handle_event_line : retries.

Lemma bounded_dispatch_tokens event tokens current consumed :
  preserves retries_bounded
    (AjaxPairingCoordinator.dispatch_tokens lib event tokens current consumed).
Proof.
  revert current consumed.
  induction tokens as [|token rest IH]; intros current consumed; cbn.
  - repeat preserves_step ltac:(bounded_side) ltac:(auto with retries nocore).
  - repeat preserves_step ltac:(bounded_side) ltac:(auto with retries nocore || apply IH).
Qed.

#[local] Hint Resolve bounded_dispatch_tokens : retries.

Lemma bounded_handle_event_dispatch event :
  preserves retries_bounded (AjaxPairingCoordinator._handle_event_dispatch lib event).
Proof.
  unfold AjaxPairingCoordinator._handle_event_dispatch.
  repeat preserves_step ltac:(bounded_side) ltac:(auto with retries nocore).
Qed.

#[local] Hint Resolve bounded_handle_event_dispatch : retries.

Lemma bounded_pairing_handle_event event :
  preserves retries_bounded (AjaxPairingCoordinator.handle_event lib event).
Proof.
  unfold AjaxPairingCoordinator.handle_event.
  repeat preserves_step ltac:(bounded_side) ltac:(auto with retries nocore).
Qed.

#[local] Hint Resolve bounded_pairing_handle_event : retries.

Lemma bounded_schedule_wrk_cancel :
  preserves retries_bounded (_schedule_wrk_cancel).
Proof.
  unfold _schedule_wrk_cancel.
  repeat preserves_step ltac:(bounded_side) ltac:(auto with retries nocore).
Qed.

#[local] Hint Resolve bounded_schedule_wrk_cancel : retries.

Lemma bounded_schedule_wrk_send :
  preserves retries_bounded (_schedule_wrk_send).
Proof.
  unfold _schedule_wrk_send.
  repeat preserves_step ltac:(bounded_side) ltac:(auto with retries nocore).
Qed.

#[local] Hint Resolve bounded_schedule_wrk_send : retries.

Lemma bounded_send_wrk : preserves retries_bounded (_send_wrk).
Proof.
  unfold _send_wrk.
  repeat preserves_step ltac:(bounded_side) ltac:(auto with retries nocore).
Qed.

#[local] Hint Resolve bounded_send_wrk : retries.

Lemma bounded_async_refresh_device_list :
  preserves retries_bounded (_async_refresh_device_list).
Proof.
  unfold _async_refresh_device_list.
  repeat preserves_step ltac:(bounded_side) ltac:(auto with retries nocore).
Qed.

#[local] Hint Resolve bounded_async_refresh_device_list : retries.

Lemma bounded_delayed_stop : preserves retries_bounded (_delayed_stop).
Proof.
  unfold _delayed_stop.
  repeat preserves_step ltac:(bounded_side) ltac:(auto with retries nocore).
Qed.

#[local] Hint Resolve bounded_delayed_stop : retries.

Lemma bounded_handle_list_entry event :
  preserves retries_bounded (_handle_list_entry lib event).
Proof.
  unfold _handle_list_entry.
  repeat preserves_step ltac:(bounded_side) ltac:(auto with retries nocore).
Qed.

#[local] Hint Resolve bounded_handle_list_entry : retries.

Lemma bounded_finalize_device_list success :
  preserves retries_bounded (_finalize_device_list lib success).
Proof.
  unfold _finalize_device_list.
  repeat preserves_step ltac:(bounded_side) ltac:(auto with retries nocore).
Qed.

#[local] Hint Resolve bounded_finalize_device_list : retries.

Lemma bounded_process_list_result event :
  preserves retries_bounded (_process_list_result lib event).
Proof.
  unfold _process_list_result.
  repeat preserves_step ltac:(bounded_side) ltac:(auto with retries nocore).
Qed.

#[local] Hint Resolve bounded_process_list_result : retries.

Lemma bounded_async_device_list_timeout :
  preserves retries_bounded (_async_device_list_timeout lib).
Proof.
  unfold _async_device_list_timeout.
  repeat preserves_step ltac:(bounded_side) ltac:(auto with retries nocore).
Qed.

#[local] Hint Resolve bounded_async_device_list_timeout : retries.

Lemma bounded_handle_hub_rstate event :
  preserves retries_bounded (_handle_hub_rstate lib event).
Proof.
  unfold _handle_hub_rstate.
  repeat preserves_step ltac:(bounded_side) ltac:(auto with retries nocore).
Qed.

#[local] Hint Resolve bounded_handle_hub_rstate : retries.

Lemma bounded_deletion_cancel :
  preserves retries_bounded (AjaxDeletionCoordinator.cancel).
Proof.
  unfold AjaxDeletionCoordinator.cancel.
  repeat preserves_step ltac:(bounded_side) ltac:(auto with retries nocore).
Qed.

#[local] Hint Resolve bounded_deletion_cancel : retries.

Lemma bounded_deletion_fail reason :
  preserves retries_bounded (AjaxDeletionCoordinator._fail reason).
Proof.
  unfold AjaxDeletionCoordinator._fail.
  repeat preserves_step ltac:(bounded_side) ltac:(auto with retries nocore).
Qed.

#[local] Hint Resolve bounded_deletion_fail : retries.

Lemma bounded_async_delete device_id :
  preserves retries_bounded (AjaxDeletionCoordinator.async_delete device_id).
Proof.
  unfold AjaxDeletionCoordinator.async_delete.
  repeat preserves_step ltac:(bounded_side) ltac:(auto with retries nocore).
Qed.

#[local] Hint Resolve bounded_async_delete : retries.

Lemma bounded_deletion_leave :
  preserves retries_bounded (AjaxDeletionCoordinator.leave).
Proof.
  unfold AjaxDeletionCoordinator.leave.
  repeat preserves_step ltac:(bounded_side) ltac:(auto with retries nocore).
Qed.

#[local] Hint Resolve bounded_deletion_leave : retries.

Lemma bounded_after_delete device_id :
  preserves retries_bounded (AjaxDeletionCoordinator.after_delete device_id).
Proof.
  unfold AjaxDeletionCoordinator.after_delete.
  repeat preserves_step ltac:(bounded_side) ltac:(auto with retries nocore).
Qed.

#[local] Hint Resolve bounded_after_delete : retries.

Lemma bounded_deletion_resume :
  preserves retries_bounded (AjaxDeletionCoordinator.resume).
Proof.
  unfold AjaxDeletionCoordinator.resume.
  repeat preserves_step ltac:(bounded_side) ltac:(auto with retries nocore).
Qed.

#[local] Hint Resolve bounded_deletion_resume : retries.

Lemma bounded_deletion_wait_timeout :
  preserves retries_bounded (AjaxDeletionCoordinator.wait_timeout).
Proof.
  unfold AjaxDeletionCoordinator.wait_timeout.
  repeat preserves_step ltac:(bounded_side) ltac:(auto with retries nocore).
Qed.

#[local] Hint Resolve bounded_deletion_wait_timeout : retries.

Lemma bounded_deletion_handle_event event :
  preserves retries_bounded (AjaxDeletionCoordinator.handle_event event).
Proof.
  unfold AjaxDeletionCoordinator.handle_event.
  repeat preserves_step ltac:(bounded_side) ltac:(auto with retries nocore).
Qed.

#[local] Hint Resolve bounded_deletion_handle_event : retries.

Lemma bounded_parameter_cancel :
  preserves retries_bounded (AjaxParameterCoordinator.cancel).
Proof.
  unfold AjaxParameterCoordinator.cancel.
  repeat preserves_step ltac:(bounded_side) ltac:(auto with retries nocore).
Qed.

#[local] Hint Resolve bounded_parameter_cancel : retries.

Lemma bounded_parameter_fail reason :
  preserves retries_bounded (AjaxParameterCoordinator._fail reason).
Proof.
  unfold AjaxParameterCoordinator._fail.
  repeat preserves_step ltac:(bounded_side) ltac:(auto with retries nocore).
Qed.

#[local] Hint Resolve bounded_parameter_fail : retries.

Lemma bounded_async_set device_id command :
  preserves retries_bounded (AjaxParameterCoordinator.async_set device_id command).
Proof.
  unfold AjaxParameterCoordinator.async_set.
  repeat preserves_step ltac:(bounded_side) ltac:(auto with retries nocore).
Qed.

#[local] Hint Resolve bounded_async_set : retries.

Lemma bounded_parameter_leave :
  preserves retries_bounded (AjaxParameterCoordinator.leave).
Proof.
  unfold AjaxParameterCoordinator.leave.
  repeat preserves_step ltac:(bounded_side) ltac:(auto with retries nocore).
Qed.

#[local] Hint Resolve bounded_parameter_leave : retries.

Lemma bounded_parameter_resume :
  preserves retries_bounded (AjaxParameterCoordinator.resume).
Proof.
  unfold AjaxParameterCoordinator.resume.
  repeat preserves_step ltac:(bounded_side) ltac:(auto with retries nocore).
Qed.

#[local] Hint Resolve bounded_parameter_resume : retries.

Lemma bounded_parameter_wait_timeout :
  preserves retries_bounded (AjaxParameterCoordinator.wait_timeout).
Proof.
  unfold AjaxParameterCoordinator.wait_timeout.
  repeat preserves_step ltac:(bounded_side) ltac:(auto with retries nocore).
Qed.

#[local] Hint Resolve bounded_parameter_wait_timeout : retries.

Lemma bounded_parameter_handle_event event :
  preserves retries_bounded (AjaxParameterCoordinator.handle_event event).
Proof.
  unfold AjaxParameterCoordinator.handle_event.
  repeat preserves_step ltac:(bounded_side) ltac:(auto with retries nocore).
Qed.

#[local] Hint Resolve bounded_parameter_handle_event : retries.

Lemma bounded_refresh_then_exit :
  preserves retries_bounded (_refresh_then_exit).
Proof.
  unfold _refresh_then_exit.
  repeat preserves_step ltac:(bounded_side) ltac:(auto with retries nocore).
Qed.

#[local] Hint Resolve bounded_refresh_then_exit : retries.

Lemma bounded_handle_event event :
  preserves retries_bounded (_handle_event lib event).
Proof.
  unfold _handle_event.
  repeat preserves_step ltac:(bounded_side) ltac:(auto with retries nocore).
Qed.

#[local] Hint Resolve bounded_handle_event : retries.

Lemma bounded_data_received line :
  preserves retries_bounded (data_received lib line).
Proof.
  unfold data_received.
  repeat preserves_step ltac:(bounded_side) ltac:(auto with retries nocore).
Qed.

#[local] Hint Resolve bounded_data_received : retries.

Lemma bounded_run_callback cb :
  preserves retries_bounded (run_callback lib cb).
Proof.
  unfold run_callback.
  repeat preserves_step ltac:(bounded_side) ltac:(auto with retries nocore).
Qed.

#[local] Hint Resolve bounded_run_callback : retries.

Lemma bounded_fire h : preserves retries_bounded (fire lib h).
Proof.
  intros w Hw. unfold fire.
  destruct (World.timers w !! h) as [t|]; [|done].
  destruct (t_live t); [|done].
  apply bounded_run_callback. revert w Hw. bounded_side.
Qed.

#[local] Hint Resolve bounded_fire : retries.

Lemma bounded_async_start_bridge :
  preserves retries_bounded (_async_start_bridge).
Proof.
  unfold _async_start_bridge.
  repeat preserves_step ltac:(bounded_side) ltac:(auto with retries nocore).
Qed.

#[local] Hint Resolve bounded_async_start_bridge : retries.

Lemma bounded_drop_handle fut : preserves retries_bounded (drop_handle fut).
Proof.
  intros w Hw. unfold drop_handle.
  destruct (World.futures w !! fut) as [f|]; [|done].
  destruct (bool_decide (f_owner f = OwnPairing)); [|done].
  revert w Hw. unfold future_cancel. apply preserves_modify. bounded_side.
Qed.

#[local] Hint Resolve bounded_drop_handle : retries.

Lemma bounded_step a : preserves retries_bounded (step lib a).
Proof.
  unfold step.
  repeat preserves_step ltac:(bounded_side) ltac:(auto with retries nocore).
Qed.

#[local] Hint Resolve bounded_step : retries.


End RetriesBounded.

(** ** Running an operation on a bridge that is a variable *)

(** One step of a computation applied to a bridge: the operation at its
    head is unfolded there and nowhere else, so that the branches not taken
    are never expanded.  The bridge stays a variable; what is known of it
    are equations on its fields, used as rewrite rules. *)
Ltac simpl_goal :=
  cbn [
    Pairing._active Pairing.set_active Pairing._flow_id Pairing.set_flow_id
    Pairing._stage Pairing.set_stage Pairing._timeout_handle
    Pairing.set_timeout_handle Pairing._search_future
    Pairing.set_search_future Pairing._finalize_future
    Pairing.set_finalize_future Pairing._candidate Pairing.set_candidate
    Pairing._in_engineering Pairing.set_in_engineering Pairing._exit_pending
    Pairing.set_exit_pending Pairing._exit_stage Pairing.set_exit_stage
    Pairing._exit_timeout_handle Pairing.set_exit_timeout_handle
    Pairing._exit_command_handle Pairing.set_exit_command_handle
    Pairing._stop_retries Pairing.set_stop_retries Pairing._requested_stop
    Pairing.set_requested_stop Deletion._future Deletion.set_future
    Deletion._stage Deletion.set_stage Deletion._device_id
    Deletion.set_device_id Deletion.waiter Deletion.set_waiter
    ParamUpdate._future ParamUpdate.set_future ParamUpdate._stage
    ParamUpdate.set_stage ParamUpdate._device_id ParamUpdate.set_device_id
    ParamUpdate._command ParamUpdate.set_command ParamUpdate.waiter
    ParamUpdate.set_waiter EntryData.protocol EntryData.set_protocol
    EntryData.devices EntryData.set_devices EntryData.allowed_ids
    EntryData.set_allowed_ids EntryData.list_active EntryData.set_list_active
    EntryData.list_stage EntryData.set_list_stage EntryData.list_retries
    EntryData.set_list_retries EntryData.list_pending
    EntryData.set_list_pending EntryData.devices_snapshot
    EntryData.set_devices_snapshot EntryData.list_timeout_task
    EntryData.set_list_timeout_task EntryData.list_wrk_handle
    EntryData.set_list_wrk_handle EntryData.hub_device_code
    EntryData.set_hub_device_code World.entry_data World.set_entry_data
    World.pairing_manager World.set_pairing_manager World.delete_manager
    World.set_delete_manager World.parameter_coordinator
    World.set_parameter_coordinator World.timers World.set_timers
    World.futures World.set_futures World.wire World.set_wire
    World.registry_removed World.set_registry_removed World.dispatched
    World.set_dispatched t_callback t_live f_owner f_state
    done fmap option_fmap option_map
    fst snd negb andb orb default from_option Datatypes.id
  ].

Ltac head_of t :=
  lazymatch t with
  | ?f _ => head_of f
  | _ => t
  end.

Ltac unfold_head :=
  match goal with
  | |- context [?m ?w] =>
      lazymatch type of w with World.t => idtac end;
      lazymatch type of (m w) with (result _ * World.t)%type => idtac end;
      let h := head_of m in
      is_const h;
      let t := eval unfold h in (m w) in
      progress change (m w) with t
  end.

Ltac has_var t := match t with context [?v] => is_var v end.

Ltac closed_tests :=
  match goal with
  | |- context [if ?c then _ else _] =>
      tryif has_var c then fail else
      (let b := eval vm_compute in c in
       lazymatch b with
       | true => change c with true
       | false => change c with false
       end)
  end.

Ltac use_fact :=
  match goal with
  | H : ?l = ?r |- context [?l] =>
      pattern l; refine (@eq_ind_r _ r _ _ l H); cbv beta
  end.

(** The same, where the computation is stuck: in what a [match] or an [if]
    examines. *)
Ltac stuck_fact :=
  match goal with
  | |- context [match ?c with _ => _ end] =>
      lazymatch type of c with
      | (result _ * World.t)%type => fail
      | _ => idtac
      end;
      match goal with
      | H : ?l = ?r |- _ =>
          match c with
          | context [l] => pattern l; refine (@eq_ind_r _ r _ _ l H); cbv beta
          end
      end
  end.

Ltac field_of t :=
  lazymatch t with
  | ?f ?x => first [is_var x | field_of x]
  end.

Ltac split_field :=
  match goal with
  | |- context [match ?x with Some _ => _ | None => _ end] =>
      first [is_var x | field_of x]; destruct x eqn:?
  | |- context [if negb ?x then _ else _] =>
      first [is_var x | field_of x]; destruct x eqn:?
  | |- context [if ?x then _ else _] =>
      first [is_var x | field_of x]; destruct x eqn:?
  | |- context [if ?c then _ else _] =>
      match c with
      | context [?x] =>
          lazymatch type of x with bool => idtac end;
          field_of x; destruct x eqn:?
      end
  | |- context [if ?c then _ else _] => destruct c eqn:?
  end.

(** A test that the context settles. *)
Ltac settled_test :=
  match goal with
  | |- context [bool_decide ?P] =>
      first
        [ rewrite (bool_decide_eq_true_2 P) by done
        | rewrite (bool_decide_eq_false_2 P) by done ]
  end.

Lemma lookup_snoc_at {A} (l : list A) (x : A) (n : nat) :
  n = List.length l → (l ++ [x])%list !! n = Some x.
Proof. intros ->. by rewrite lookup_app_r, Nat.sub_diag. Qed.

Ltac list_len :=
  repeat first
    [ rewrite length_alter | rewrite length_app | rewrite length_insert ];
  cbn [length]; lia.

(** A lookup in a table at the index that was just written. *)
Ltac table_lookup :=
  match goal with
  | |- context [<[?i := ?x]> ?l !! ?i] =>
      rewrite (list_lookup_insert_eq l i x) by first [assumption | list_len]
  | |- context [(?l ++ [?x])%list !! length ?l] =>
      rewrite (lookup_snoc_at l x (length l) eq_refl)
  | |- context [alter ?f ?i ?l !! ?i] =>
      rewrite (list_lookup_alter_eq f l i)
  end.

(** A disjunction with a component that is true, a conjunction with one
    that is false. *)
Ltac true_test :=
  match goal with
  | |- context [?b || true] => rewrite (orb_true_r b)
  | |- context [?b && false] => rewrite (andb_false_r b)
  end.

Ltac mrun_step :=
  first
    [ progress simpl_goal
    | stuck_fact
    | table_lookup
    | closed_tests
    | unfold_head
    | settled_test
    | true_test
    | split_field ].

(** The property asked of the final bridge is set aside while the
    operation runs, so that the computation is carried out once. *)
Ltac set_aside Q :=
  match goal with
  | |- context [(?m ?w).2] =>
      lazymatch type of w with World.t => idtac end;
      pattern ((m w).2);
      match goal with |- ?P _ => set (Q := P) end
  end.

Ltac mrun :=
  let Q := fresh "Q" in
  set_aside Q; repeat mrun_step; subst Q; cbv beta; simpl_goal.

(** The same when the goal speaks of the value returned as well. *)
Ltac set_aside_call Q :=
  match goal with
  | |- context [(?m ?w).1] =>
      lazymatch type of w with World.t => idtac end;
      pattern (m w);
      match goal with |- ?P _ => set (Q := P) end
  end.

Ltac mrun_call :=
  let Q := fresh "Q" in
  set_aside_call Q; repeat mrun_step; subst Q; cbv beta; simpl_goal.

Ltac searching_facts Hs :=
  unfold searching, deletion_busy, parameter_busy, Deletion.busy,
    ParamUpdate.busy in *;
  let Hd := fresh "Hd" in
  let Hp := fresh "Hp" in
  destruct Hs as (? & ? & ? & ? & ? & ? & ? & Hd & Hp & ? & ?);
  apply bool_decide_eq_false in Hd, Hp; apply dec_stable in Hd, Hp.

Ltac close_searching :=
  repeat use_fact; split_and!;
  first [ reflexivity | done | lia | by apply bool_decide_eq_false_2; auto ].

Section StopRetries.

Variable lib : Library.

Lemma hub_line_world line status code w :
  result_line lib line status code →
  ∃ ev, is_result ev status code
      ∧ (step lib (HubLine line) w).2 = (_handle_event lib ev w).2.
Proof.
  intros (Hne & ev & Hp & Hr). exists ev. split; [done|].
  cbn. unfold data_received.
  rewrite bool_decide_eq_false_2 by done.
  unfold mbind at 1, M_bind, lift. rewrite Hp. unfold try_except.
  destruct (_handle_event lib ev w) as [[[]|e] w']; [done|].
  by destruct e.
Qed.

Lemma searching_stop_busy w fut r line :
  searching w fut r Pairing.await_stop_result → r < 3 →
  result_line lib line "NAK" "2" →
  searching (step lib (HubLine line) w).2 fut (S r) Pairing.await_stop_clear
  ∧ World.wire (step lib (HubLine line) w).2 = (World.wire w ++ ["stt"])%list.
Proof.
  intros Hs Hr Hl.
  destruct (hub_line_world line "NAK" "2" w Hl) as (ev & (Ht & Hst & Hc) & ->).
  searching_facts Hs.
  assert (Hle : (3 <=? Pairing._stop_retries (World.pairing_manager w))%nat
                = false) by (apply Nat.leb_gt; lia).
  mrun; close_searching.
Qed.

Lemma searching_stop_clear w fut r line :
  searching w fut r Pairing.await_stop_clear →
  clear_reply lib line →
  searching (step lib (HubLine line) w).2 fut r Pairing.await_stop_result
  ∧ World.wire (step lib (HubLine line) w).2 = (World.wire w ++ ["stop"])%list.
Proof.
  intros Hs (status & code & Hl & Hst & Hc).
  destruct (hub_line_world line status code w Hl) as (ev & (Ht & Hs' & Hc') & ->).
  searching_facts Hs.
  repeat (apply elem_of_cons in Hst as [->|Hst]);
    [| |by apply elem_of_nil in Hst].
  all: repeat (apply elem_of_cons in Hc as [->|Hc]);
    [| | |by apply elem_of_nil in Hc].
  all: mrun; close_searching.
Qed.

Lemma searching_stop_exhausted w fut line code reason :
  searching w fut 3 Pairing.await_stop_result →
  (code, reason) ∈ [("2", "busy"); ("0", "stop_failed")] →
  result_line lib line "NAK" code →
  Pairing._active (World.pairing_manager (step lib (HubLine line) w).2) = false
  ∧ Pairing._exit_pending (World.pairing_manager (step lib (HubLine line) w).2)
    = true
  ∧ Pairing._stop_retries (World.pairing_manager (step lib (HubLine line) w).2)
    = 3
  ∧ Pairing._search_future (World.pairing_manager (step lib (HubLine line) w).2)
    = None
  ∧ f_state <$> World.futures (step lib (HubLine line) w).2 !! fut
    = Some (FException (PairingError reason))
  ∧ World.wire (step lib (HubLine line) w).2 = World.wire w.
Proof.
  intros Hs Hcr Hl.
  destruct (hub_line_world line "NAK" code w Hl) as (ev & (Ht & Hst & Hc) & ->).
  searching_facts Hs.
  match goal with H : World.futures w !! fut = _ |- _ =>
    pose proof (lookup_lt_Some _ _ _ H) as Hlt end.
  repeat (apply elem_of_cons in Hcr as [[= -> ->]|Hcr]);
    [| |by apply elem_of_nil in Hcr].
  all: mrun.
  all: repeat first [ use_fact | rewrite (list_lookup_insert_eq _ _ _ Hlt) ].
  all: split_and!; reflexivity.
Qed.

Lemma start_search_searching w flow_id fut w0 :
  deletion_busy w = false → parameter_busy w = false →
  AjaxPairingCoordinator.start_search flow_id w = (Ok fut, w0) →
  searching w0 fut 0 Pairing.await_stop_result
  ∧ World.wire w0 = (World.wire w ++ ["stop"])%list.
Proof.
  unfold searching, deletion_busy, parameter_busy, Deletion.busy,
    ParamUpdate.busy.
  intros Hd Hp.
  apply bool_decide_eq_false in Hd, Hp. apply dec_stable in Hd, Hp.
  repeat mrun_step.
  all: try discriminate.
  all: intros [= <- <-]; simpl_goal.
  all: repeat use_fact; split_and!; try reflexivity; try done.
  all: by rewrite lookup_app_r, Nat.sub_diag by done.
Qed.

End StopRetries.

(** ** The bound on the stop retries of a pairing search *)

Section StopRetryBound.

Variable lib : Library.

(** The stop retries of a pairing search have the maximum 3.  A search
    whose [stop] is answered by RESULT NAK 2 four times, the [stt] sent after
    each of the first three being answered by a reply that the clear stage
    accepts, stays pending through the first six replies, counting one
    retry for each busy reply to [stop]; at the seventh reply (the fourth to
    [stop]) it fails its search future with the error busy, after exactly 3
    retries and without sending a further command. *)
Theorem pairing_stop_retry_bound w flow_id fut w0 s1 c1 s2 c2 s3 c3 s4 :
  deletion_busy w = false → parameter_busy w = false →
  AjaxPairingCoordinator.start_search flow_id w = (Ok fut, w0) →
  Forall (λ l, result_line lib l "NAK" "2") [s1; s2; s3; s4] →
  Forall (clear_reply lib) [c1; c2; c3] →
  let lines := [s1; c1; s2; c2; s3; c3; s4] in
  (∀ k, (k < 7)%nat →
     let wk := run lib w0 (HubLine <$> take k lines) in
     Pairing._active (World.pairing_manager wk) = true
     ∧ World.futures wk !! fut = Some (mkFuture OwnPairing FPending)
     ∧ Pairing._stop_retries (World.pairing_manager wk) = ((k + 1) / 2)%nat)
  ∧ (let w7 := run lib w0 (HubLine <$> lines) in
     Pairing._active (World.pairing_manager w7) = false
     ∧ f_state <$> World.futures w7 !! fut
       = Some (FException (PairingError "busy"))
     ∧ Pairing._stop_retries (World.pairing_manager w7) = 3%nat
     ∧ World.wire w7
       = (World.wire w
            ++ ["stop"; "stt"; "stop"; "stt"; "stop"; "stt"; "stop"])%list).
Proof.
  intros Hd Hp Hstart Hs Hc lines.
  apply Forall_cons in Hs as [Hs1 Hs]. apply Forall_cons in Hs as [Hs2 Hs].
  apply Forall_cons in Hs as [Hs3 Hs]. apply Forall_cons in Hs as [Hs4 _].
  apply Forall_cons in Hc as [Hc1 Hc]. apply Forall_cons in Hc as [Hc2 Hc].
  apply Forall_cons in Hc as [Hc3 _].
  destruct (start_search_searching w flow_id fut w0 Hd Hp Hstart) as [S0 W0].
  destruct (searching_stop_busy lib _ _ _ s1 S0 ltac:(lia) Hs1) as [S1 W1].
  destruct (searching_stop_clear lib _ _ _ c1 S1 Hc1) as [S2 W2].
  destruct (searching_stop_busy lib _ _ _ s2 S2 ltac:(lia) Hs2) as [S3 W3].
  destruct (searching_stop_clear lib _ _ _ c2 S3 Hc2) as [S4 W4].
  destruct (searching_stop_busy lib _ _ _ s3 S4 ltac:(lia) Hs3) as [S5 W5].
  destruct (searching_stop_clear lib _ _ _ c3 S5 Hc3) as [S6 W6].
  destruct (searching_stop_exhausted lib _ _ s4 "2" "busy" S6
              ltac:(set_solver) Hs4) as (A7 & _ & R7 & _ & F7 & W7).
  split.
  - intros k Hk wk. subst wk lines.
    assert (Hpend : ∀ w' r st, searching w' fut r st →
      Pairing._active (World.pairing_manager w') = true
      ∧ World.futures w' !! fut = Some (mkFuture OwnPairing FPending)
      ∧ Pairing._stop_retries (World.pairing_manager w') = r).
    { intros w' r st (? & ? & ? & ? & ? & ? & ? & ? & ? & ? & ?). done. }
    destruct k as [|[|[|[|[|[|[|k]]]]]]]; [..|lia];
      cbn [take fmap list_fmap]; rewrite ?(run_cons lib), (run_nil lib);
      eapply Hpend; eassumption.
  - intros w7. subst w7 lines.
    cbn [fmap list_fmap]. rewrite !(run_cons lib), (run_nil lib).
    split_and!; [done|done|done|].
    rewrite W7, W6, W5, W4, W3, W2, W1, W0. by rewrite <- !app_assoc.
Qed.

End StopRetryBound.

Lemma pairing_stop_retry_bound_witness :
  ∃ w0,
    AjaxPairingCoordinator.start_search "flow" sample_ready = (Ok 0%nat, w0)
    ∧ f_state <$>
        World.futures
          (run sample_library w0
             (HubLine <$> ["RESULT;NAK;2"; "RESULT;OK;0"; "RESULT;NAK;2";
                           "RESULT;NAK;2"; "RESULT;NAK;2"; "RESULT;OK;0";
                           "RESULT;NAK;2"])) !! 0%nat
      = Some (FException (PairingError "busy")).
Proof.
  eexists. split; [vm_compute; reflexivity|].
  refine (proj1 (proj2 (proj2 (pairing_stop_retry_bound sample_library
    sample_ready "flow" 0%nat _
    "RESULT;NAK;2" "RESULT;OK;0" "RESULT;NAK;2" "RESULT;NAK;2" "RESULT;NAK;2"
    "RESULT;OK;0" "RESULT;NAK;2" _ _ _ _ _)))).
  - reflexivity.
  - reflexivity.
  - vm_compute; reflexivity.
  - repeat apply Forall_cons_2; [..|apply Forall_nil_2];
      apply (sample_result_line "NAK" "2"); set_solver.
  - repeat apply Forall_cons_2; [..|apply Forall_nil_2].
    + exists "OK", "0". split; [apply (sample_result_line "OK" "0")|];
        set_solver.
    + exists "NAK", "2". split; [apply (sample_result_line "NAK" "2")|];
        set_solver.
    + exists "OK", "0". split; [apply (sample_result_line "OK" "0")|];
        set_solver.
Defined.

(** ** Retries with and without a maximum *)

Lemma dom_map_imap_total {A B} (f : string → A → B) (m : gmap string A) :
  dom (map_imap (λ k a, Some (f k a)) m) = dom m.
Proof.
  apply set_eq. intros k. rewrite !elem_of_dom, map_lookup_imap.
  destruct (m !! k); cbn; split; intros [? [=]]; eauto.
Qed.

Lemma removed_ids_same (snapshot : gmap string Meta.t) :
  removed_ids snapshot snapshot = ∅.
Proof. unfold removed_ids. apply difference_diag_L. Qed.

Lemma registry_removals_none (snapshot : gmap string Meta.t) :
  registry_removals snapshot ∅ = ∅.
Proof. unfold registry_removals. set_solver. Qed.

Section RetryMaxima.

Variable lib : Library.

Lemma deletion_busy_reply w fut stage cmd line :
  Deletion._future (World.delete_manager w) = Some fut →
  Deletion._stage (World.delete_manager w) = Some stage →
  (stage, cmd) ∈ [(Deletion.await_stop, "stop"); (Deletion.await_wrk, "wrk")] →
  EntryData.protocol (World.entry_data w) = true →
  result_line lib line "NAK" "2" →
  (step lib (HubLine line) w).2 = World.set_wire (World.wire w ++ [cmd]) w.
Proof.
  intros Hf Hs Hin Hp Hl.
  destruct (hub_line_world lib line "NAK" "2" w Hl) as (ev & (Ht & Hst & Hc) & ->).
  repeat (apply elem_of_cons in Hin as [[= -> ->]|Hin]);
    [| |by apply elem_of_nil in Hin].
  all: mrun; reflexivity.
Qed.

Lemma parameter_busy_reply w fut stage cmd line :
  deletion_busy w = false →
  ParamUpdate._future (World.parameter_coordinator w) = Some fut →
  ParamUpdate._stage (World.parameter_coordinator w) = Some stage →
  (stage, cmd)
  ∈ [(ParamUpdate.await_stop, "stop"); (ParamUpdate.await_wrk, "wrk")] →
  EntryData.protocol (World.entry_data w) = true →
  result_line lib line "NAK" "2" →
  (step lib (HubLine line) w).2 = World.set_wire (World.wire w ++ [cmd]) w.
Proof.
  unfold deletion_busy, Deletion.busy.
  intros Hd Hf Hs Hin Hp Hl.
  apply bool_decide_eq_false in Hd. apply dec_stable in Hd.
  destruct (hub_line_world lib line "NAK" "2" w Hl) as (ev & (Ht & Hst & Hc) & ->).
  repeat (apply elem_of_cons in Hin as [[= -> ->]|Hin]);
    [| |by apply elem_of_nil in Hin].
  all: mrun; reflexivity.
Qed.

(** Replies that change nothing but the wire can be repeated at will. *)
Lemma resend_forever (I : World.t → Prop) cmd line :
  (∀ w, I w → (step lib (HubLine line) w).2
               = World.set_wire (World.wire w ++ [cmd]) w) →
  (∀ w l, I w → I (World.set_wire l w)) →
  ∀ n w, I w →
    run lib w (replicate n (HubLine line))
    = World.set_wire (World.wire w ++ replicate n cmd) w.
Proof.
  intros Hstep Hkeep n. induction n as [|n IH]; intros w Hw.
  - cbn. rewrite app_nil_r. by destruct w.
  - cbn [replicate]. rewrite (run_cons lib), (Hstep w Hw).
    rewrite IH by by apply Hkeep.
    destruct w; cbn. by rewrite <- app_assoc.
Qed.

Lemma hub_line_event line w :
  PyStr.strip line ≠ "" →
  ∀ ev, Parser.parse_line (float_ok lib) (PyStr.strip line) = Ok ev →
  (step lib (HubLine line) w).2 = (_handle_event lib ev w).2.
Proof.
  intros Hne ev Hp. cbn. unfold data_received.
  rewrite bool_decide_eq_false_2 by done.
  unfold mbind at 1, M_bind, lift. rewrite Hp. unfold try_except.
  destruct (_handle_event lib ev w) as [[[]|e] w']; [done|]. by destruct e.
Qed.

Ltac refreshing_facts Hr :=
  unfold refreshing, deletion_busy, parameter_busy, Deletion.busy,
    ParamUpdate.busy in Hr;
  let Hd := fresh "Hd" in
  let Hp := fresh "Hp" in
  destruct Hr as (? & ? & ? & ? & Hd & Hp & ? & ?);
  apply bool_decide_eq_false in Hd, Hp; apply dec_stable in Hd, Hp.

Lemma times_sent_resent cmd n w :
  times_sent cmd (World.set_wire (World.wire w ++ replicate n cmd) w)
  = (times_sent cmd w + n)%nat.
Proof.
  unfold times_sent. destruct w; cbn.
  rewrite filter_app, length_app. f_equal.
  induction n as [|n IH]; [done|].
  cbn [replicate]. rewrite filter_cons_True by done. cbn. by rewrite IH.
Qed.

Lemma resends_unbounded cmd line w :
  (∀ n, run lib w (replicate n (HubLine line))
        = World.set_wire (World.wire w ++ replicate n cmd) w) →
  ¬ resends_bounded lib cmd line w.
Proof.
  intros Hrun (max & Hmax). specialize (Hmax (S max)).
  rewrite Hrun, times_sent_resent in Hmax. lia.
Qed.

(** A deletion has no retry maximum: in the stages [await_stop] and
    [await_wrk] each RESULT NAK 2 makes the coordinator send the command
    of the stage again and changes nothing else, so [n] such replies give
    [n] resends with the session still waiting, and no number bounds the
    resends. *)
Theorem deletion_busy_replies_resend w fut stage cmd line :
  Deletion._future (World.delete_manager w) = Some fut →
  Deletion._stage (World.delete_manager w) = Some stage →
  (stage, cmd) ∈ [(Deletion.await_stop, "stop"); (Deletion.await_wrk, "wrk")] →
  EntryData.protocol (World.entry_data w) = true →
  result_line lib line "NAK" "2" →
  (∀ n, run lib w (replicate n (HubLine line))
        = World.set_wire (World.wire w ++ replicate n cmd) w)
  ∧ ¬ resends_bounded lib cmd line w.
Proof.
  intros Hf Hs Hin Hp Hl.
  assert (Hrun : ∀ n, run lib w (replicate n (HubLine line))
                      = World.set_wire (World.wire w ++ replicate n cmd) w).
  { intros n.
    apply (resend_forever
             (λ w, Deletion._future (World.delete_manager w) = Some fut
                   ∧ Deletion._stage (World.delete_manager w) = Some stage
                   ∧ EntryData.protocol (World.entry_data w) = true)).
    - intros w' (? & ? & ?). by eapply deletion_busy_reply.
    - intros w' l H. by destruct w'.
    - done. }
  split; [done|]. by apply resends_unbounded.
Qed.

(** A parameter update has no retry maximum either: with no deletion
    running, each RESULT NAK 2 in its stages [await_stop] and [await_wrk]
    makes the coordinator send the command of the stage again and changes
    nothing else. *)
Theorem parameter_busy_replies_resend w fut stage cmd line :
  deletion_busy w = false →
  ParamUpdate._future (World.parameter_coordinator w) = Some fut →
  ParamUpdate._stage (World.parameter_coordinator w) = Some stage →
  (stage, cmd)
  ∈ [(ParamUpdate.await_stop, "stop"); (ParamUpdate.await_wrk, "wrk")] →
  EntryData.protocol (World.entry_data w) = true →
  result_line lib line "NAK" "2" →
  (∀ n, run lib w (replicate n (HubLine line))
        = World.set_wire (World.wire w ++ replicate n cmd) w)
  ∧ ¬ resends_bounded lib cmd line w.
Proof.
  intros Hd Hf Hs Hin Hp Hl.
  assert (Hrun : ∀ n, run lib w (replicate n (HubLine line))
                      = World.set_wire (World.wire w ++ replicate n cmd) w).
  { intros n.
    apply (resend_forever
             (λ w, deletion_busy w = false
                   ∧ ParamUpdate._future (World.parameter_coordinator w)
                     = Some fut
                   ∧ ParamUpdate._stage (World.parameter_coordinator w)
                     = Some stage
                   ∧ EntryData.protocol (World.entry_data w) = true)).
    - intros w' (? & ? & ? & ?). by eapply parameter_busy_reply.
    - intros w' l H. by destruct w'.
    - done. }
  split; [done|]. by apply resends_unbounded.
Qed.


(** In every state the bridge can reach, the stop retries counted by
    pairing are at most 3 and those counted by the device-list refresh at
    most 5. *)
Theorem retry_counters_bounded w :
  reachable lib w →
  (Pairing._stop_retries (World.pairing_manager w) ≤ 3)%nat
  ∧ (EntryData.list_retries (World.entry_data w) ≤ 5)%nat.
Proof.
  intros Hw. change (retries_bounded w).
  induction Hw as [|w a Hw IH].
  - unfold retries_bounded, LIST_MAX_RETRIES. cbn. lia.
  - by apply bounded_step.
Qed.

End RetryMaxima.

Lemma sample_nak_line : nak_line sample_library "RESULT;NAK;0" "0".
Proof.
  split; [intros E; discriminate E|].
  eexists; split; [reflexivity|]. repeat split; reflexivity.
Qed.

Lemma deletion_busy_replies_resend_witness :
  (∀ n, run sample_library sample_deleting (replicate n (HubLine "RESULT;NAK;2"))
        = World.set_wire
            (World.wire sample_deleting ++ replicate n "stop") sample_deleting)
  ∧ ¬ resends_bounded sample_library "stop" "RESULT;NAK;2" sample_deleting.
Proof.
  apply (deletion_busy_replies_resend sample_library sample_deleting 0%nat
           Deletion.await_stop "stop" "RESULT;NAK;2").
  - reflexivity.
  - reflexivity.
  - set_solver.
  - reflexivity.
  - apply (sample_result_line "NAK" "2"). set_solver.
Defined.

Lemma parameter_busy_replies_resend_witness :
  (∀ n, run sample_library sample_updating (replicate n (HubLine "RESULT;NAK;2"))
        = World.set_wire
            (World.wire sample_updating ++ replicate n "stop") sample_updating)
  ∧ ¬ resends_bounded sample_library "stop" "RESULT;NAK;2" sample_updating.
Proof.
  apply (parameter_busy_replies_resend sample_library sample_updating 0%nat
           ParamUpdate.await_stop "stop" "RESULT;NAK;2").
  - reflexivity.
  - reflexivity.
  - reflexivity.
  - set_solver.
  - reflexivity.
  - apply (sample_result_line "NAK" "2"). set_solver.
Defined.


Lemma retry_counters_bounded_witness :
  (Pairing._stop_retries (World.pairing_manager two_sessions) ≤ 3)%nat
  ∧ (EntryData.list_retries (World.entry_data two_sessions) ≤ 5)%nat.
Proof.
  apply (retry_counters_bounded sample_library two_sessions).
  apply run_reachable. constructor.
Defined.

(** ** Futures are settled once *)

Lemma futures_kept_refl w : futures_kept w w.
Proof. intros i f Hf. by exists f. Qed.

Lemma kept_cancel w0 w j :
  futures_kept w0 w →
  futures_kept w0
    (World.set_futures
       (alter (λ f, if done f then f else mkFuture (f_owner f) FCancelled) j
          (World.futures w)) w).
Proof.
  intros Hw i f Hf. destruct (Hw i f Hf) as (f' & Hf' & Ho & Hd).
  cbn [World.futures World.set_futures].
  destruct (decide (i = j)) as [->|Hne].
  - rewrite list_lookup_alter_eq, Hf'.
    exists (if done f' then f' else mkFuture (f_owner f') FCancelled).
    split; [done|]. split; [by destruct (done f')|].
    intros Hdf. specialize (Hd Hdf). subst f'. by rewrite Hdf.
  - rewrite list_lookup_alter_ne by done. by exists f'.
Qed.

Lemma kept_create w0 w o :
  futures_kept w0 w →
  futures_kept w0
    (World.set_futures (World.futures w ++ [mkFuture o FPending]) w).
Proof.
  intros Hw i f Hf. destruct (Hw i f Hf) as (f' & Hf' & Ho & Hd).
  cbn [World.futures World.set_futures].
  exists f'. split_and!; [|done|done].
  rewrite lookup_app_l; [done|by eapply lookup_lt_Some].
Qed.

Lemma kept_resolve w0 w j g st :
  futures_kept w0 w →
  World.futures w !! j = Some g → done g = false →
  futures_kept w0
    (World.set_futures (<[j := mkFuture (f_owner g) st]> (World.futures w)) w).
Proof.
  intros Hw Hg Hp i f Hf. destruct (Hw i f Hf) as (f' & Hf' & Ho & Hd).
  cbn [World.futures World.set_futures].
  destruct (decide (i = j)) as [->|Hne].
  - rewrite list_lookup_insert_eq by by eapply lookup_lt_Some.
    rewrite Hg in Hf'. injection Hf' as <-.
    eexists; split_and!; [done|done|].
    intros Hdf. rewrite (Hd Hdf) in Hp. congruence.
  - rewrite list_lookup_insert_ne by done. by exists f'.
Qed.

Ltac kept_frame :=
  let w := fresh "w" in
  let Hw := fresh "Hw" in
  intros w Hw; exact Hw.

Ltac kept_side :=
  first
    [ kept_frame
    | intros; by apply kept_cancel
    | intros; by apply kept_create
    | intros; by eapply kept_resolve ].

Create HintDb kept.

Section FuturesKept.

Variable lib : Library.
Variable w0 : World.t.

Lemma kept_cancel_exit_command :
  preserves (futures_kept w0) (AjaxPairingCoordinator._cancel_exit_command).
Proof.
  unfold AjaxPairingCoordinator._cancel_exit_command.
  repeat preserves_step ltac:(kept_side) ltac:(auto with kept nocore).
Qed.

#[local] Hint Resolve kept_cancel_exit_command : kept.

Lemma kept_reset_timeout :
  preserves (futures_kept w0) (AjaxPairingCoordinator._reset_timeout).
Proof.
  unfold AjaxPairingCoordinator._reset_timeout.
  repeat preserves_step ltac:(kept_side) ltac:(auto with kept nocore).
Qed.

#[local] Hint Resolve kept_reset_timeout : kept.

Lemma kept_send_exit_command command stage :
  preserves (futures_kept w0) (AjaxPairingCoordinator._send_exit_command command stage).
Proof.
  unfold AjaxPairingCoordinator._send_exit_command.
  repeat preserves_step ltac:(kept_side) ltac:(auto with kept nocore).
Qed.

#[local] Hint Resolve kept_send_exit_command : kept.

Lemma kept_restart_wrk_fallback_timer :
  preserves (futures_kept w0) (AjaxPairingCoordinator._restart_wrk_fallback_timer).
Proof.
  unfold AjaxPairingCoordinator._restart_wrk_fallback_timer.
  repeat preserves_step ltac:(kept_side) ltac:(auto with kept nocore).
Qed.

#[local] Hint Resolve kept_restart_wrk_fallback_timer : kept.

Lemma kept_complete_exit_success :
  preserves (futures_kept w0) (AjaxPairingCoordinator._complete_exit_success).
Proof.
  unfold AjaxPairingCoordinator._complete_exit_success.
  repeat preserves_step ltac:(kept_side) ltac:(auto with kept nocore).
Qed.

#[local] Hint Resolve kept_complete_exit_success : kept.

Lemma kept_cleanup send_wrk force_exit :
  preserves (futures_kept w0) (AjaxPairingCoordinator._cleanup send_wrk force_exit).
Proof.
  unfold AjaxPairingCoordinator._cleanup.
  repeat preserves_step ltac:(kept_side) ltac:(auto with kept nocore).
Qed.

#[local] Hint Resolve kept_cleanup : kept.

Lemma kept_start_search flow_id :
  preserves (futures_kept w0) (AjaxPairingCoordinator.start_search flow_id).
Proof.
  unfold AjaxPairingCoordinator.start_search.
  repeat preserves_step ltac:(kept_side) ltac:(auto with kept nocore).
Qed.

#[local] Hint Resolve kept_start_search : kept.

Lemma kept_pairing_cancel reason immediate :
  preserves (futures_kept w0) (AjaxPairingCoordinator.cancel reason immediate).
Proof.
  unfold AjaxPairingCoordinator.cancel.
  repeat preserves_step ltac:(kept_side) ltac:(auto with kept nocore).
Qed.

#[local] Hint Resolve kept_pairing_cancel : kept.

Lemma kept_confirm_candidate flow_id :
  preserves (futures_kept w0) (AjaxPairingCoordinator.confirm_candidate flow_id).
Proof.
  unfold AjaxPairingCoordinator.confirm_candidate.
  repeat preserves_step ltac:(kept_side) ltac:(auto with kept nocore).
Qed.

#[local] Hint Resolve kept_confirm_candidate : kept.

Lemma kept_force_cleanup :
  preserves (futures_kept w0) (AjaxPairingCoordinator.force_cleanup).
Proof.
  unfold AjaxPairingCoordinator.force_cleanup.
  repeat preserves_step ltac:(kept_side) ltac:(auto with kept nocore).
Qed.

#[local] Hint Resolve kept_force_cleanup : kept.

Lemma kept_pairing_fail reason :
  preserves (futures_kept w0) (AjaxPairingCoordinator._fail reason).
Proof.
  unfold AjaxPairingCoordinator._fail.
  repeat preserves_step ltac:(kept_side) ltac:(auto with kept nocore).
Qed.

#[local] Hint Resolve kept_pairing_fail : kept.

Lemma kept_on_timeout :
  preserves (futures_kept w0) (AjaxPairingCoordinator._on_timeout).
Proof.
  unfold AjaxPairingCoordinator._on_timeout.
  repeat preserves_step ltac:(kept_side) ltac:(auto with kept nocore).
Qed.

#[local] Hint Resolve kept_on_timeout : kept.

Lemma kept_finalize_success refresh :
  preserves (futures_kept w0) (AjaxPairingCoordinator._finalize_success refresh).
Proof.
  unfold AjaxPairingCoordinator._finalize_success.
  repeat preserves_step ltac:(kept_side) ltac:(auto with kept nocore).
Qed.

#[local] Hint Resolve kept_finalize_success : kept.

Lemma kept_finalize_success_without_refresh :
  preserves (futures_kept w0) (AjaxPairingCoordinator._finalize_success_without_refresh).
Proof.
  unfold AjaxPairingCoordinator._finalize_success_without_refresh.
  repeat preserves_step ltac:(kept_side) ltac:(auto with kept nocore).
Qed.

#[local] Hint Resolve kept_finalize_success_without_refresh : kept.

Lemma kept_handle_exit_result status code :
  preserves (futures_kept w0) (AjaxPairingCoordinator._handle_exit_result status code).
Proof.
  unfold AjaxPairingCoordinator._handle_exit_result.
  repeat preserves_step ltac:(kept_side) ltac:(auto with kept nocore).
Qed.

#[local] Hint Resolve kept_handle_exit_result : kept.

Lemma kept_send_wrk_fallback :
  preserves (futures_kept w0) (AjaxPairingCoordinator._send_wrk_fallback).
Proof.
  unfold AjaxPairingCoordinator._send_wrk_fallback.
  repeat preserves_step ltac:(kept_side) ltac:(auto with kept nocore).
Qed.

#[local] Hint Resolve kept_send_wrk_fallback : kept.

Lemma kept_exit_send command :
  preserves (futures_kept w0) (AjaxPairingCoordinator.exit_send command).
Proof.
  unfold AjaxPairingCoordinator.exit_send.
  repeat preserves_step ltac:(kept_side) ltac:(auto with kept nocore).
Qed.

#[local] Hint Resolve kept_exit_send : kept.

Lemma kept_handle_exit_event event :
  preserves (futures_kept w0) (AjaxPairingCoordinator._handle_exit_event event).
Proof.
  unfold AjaxPairingCoordinator._handle_exit_event.
  repeat preserves_step ltac:(kept_side) ltac:(auto with kept nocore).
Qed.

#[local] Hint Resolve kept_handle_exit_event : kept.

Lemma kept_handle_result event :
  preserves (futures_kept w0) (AjaxPairingCoordinator._handle_result event).
Proof.
  unfold AjaxPairingCoordinator._handle_result.
  repeat preserves_step ltac:(kept_side) ltac:(auto with kept nocore).
Qed.

#[local] Hint Resolve kept_handle_result : kept.

Lemma kept_handle_event_line event :
  preserves (futures_kept w0) (AjaxPairingCoordinator._handle_event_line lib event).
Proof.
  unfold AjaxPairingCoordinator._handle_event_line.
  repeat preserves_step ltac:(kept_side) ltac:(auto with kept nocore).
Qed.

#[local] Hint Resolve kept_handle_event_line : kept.

Lemma kept_dispatch_tokens event tokens current consumed :
  preserves (futures_kept w0)
    (AjaxPairingCoordinator.dispatch_tokens lib event tokens current consumed).
Proof.
  revert current consumed.
  induction tokens as [|token rest IH]; intros current consumed; cbn.
  - repeat preserves_step ltac:(kept_side) ltac:(auto with kept nocore).
  - repeat preserves_step ltac:(kept_side) ltac:(auto with kept nocore || apply IH).
Qed.

#[local] Hint Resolve kept_dispatch_tokens : kept.

Lemma kept_handle_event_dispatch event :
  preserves (futures_kept w0) (AjaxPairingCoordinator._handle_event_dispatch lib event).
Proof.
  unfold AjaxPairingCoordinator._handle_event_dispatch.
  repeat preserves_step ltac:(kept_side) ltac:(auto with kept nocore).
Qed.

#[local] Hint Resolve kept_handle_event_dispatch : kept.

Lemma kept_pairing_handle_event event :
  preserves (futures_kept w0) (AjaxPairingCoordinator.handle_event lib event).
Proof.
  unfold AjaxPairingCoordinator.handle_event.
  repeat preserves_step ltac:(kept_side) ltac:(auto with kept nocore).
Qed.

#[local] Hint Resolve kept_pairing_handle_event : kept.

Lemma kept_schedule_wrk_cancel :
  preserves (futures_kept w0) (_schedule_wrk_cancel).
Proof.
  unfold _schedule_wrk_cancel.
  repeat preserves_step ltac:(kept_side) ltac:(auto with kept nocore).
Qed.

#[local] Hint Resolve kept_schedule_wrk_cancel : kept.

Lemma kept_schedule_wrk_send :
  preserves (futures_kept w0) (_schedule_wrk_send).
Proof.
  unfold _schedule_wrk_send.
  repeat preserves_step ltac:(kept_side) ltac:(auto with kept nocore).
Qed.

#[local] Hint Resolve kept_schedule_wrk_send : kept.

Lemma kept_send_wrk : preserves (futures_kept w0) (_send_wrk).
Proof.
  unfold _send_wrk.
  repeat preserves_step ltac:(kept_side) ltac:(auto with kept nocore).
Qed.

#[local] Hint Resolve kept_send_wrk : kept.

Lemma kept_async_refresh_device_list :
  preserves (futures_kept w0) (_async_refresh_device_list).
Proof.
  unfold _async_refresh_device_list.
  repeat preserves_step ltac:(kept_side) ltac:(auto with kept nocore).
Qed.

#[local] Hint Resolve kept_async_refresh_device_list : kept.

Lemma kept_delayed_stop : preserves (futures_kept w0) (_delayed_stop).
Proof.
  unfold _delayed_stop.
  repeat preserves_step ltac:(kept_side) ltac:(auto with kept nocore).
Qed.

#[local] Hint Resolve kept_delayed_stop : kept.

Lemma kept_handle_list_entry event :
  preserves (futures_kept w0) (_handle_list_entry lib event).
Proof.
  unfold _handle_list_entry.
  repeat preserves_step ltac:(kept_side) ltac:(auto with kept nocore).
Qed.

#[local] Hint Resolve kept_handle_list_entry : kept.

Lemma kept_finalize_device_list success :
  preserves (futures_kept w0) (_finalize_device_list lib success).
Proof.
  unfold _finalize_device_list.
  repeat preserves_step ltac:(kept_side) ltac:(auto with kept nocore).
Qed.

#[local] Hint Resolve kept_finalize_device_list : kept.

Lemma kept_process_list_result event :
  preserves (futures_kept w0) (_process_list_result lib event).
Proof.
  unfold _process_list_result.
  repeat preserves_step ltac:(kept_side) ltac:(auto with kept nocore).
Qed.

#[local] Hint Resolve kept_process_list_result : kept.

Lemma kept_async_device_list_timeout :
  preserves (futures_kept w0) (_async_device_list_timeout lib).
Proof.
  unfold _async_device_list_timeout.
  repeat preserves_step ltac:(kept_side) ltac:(auto with kept nocore).
Qed.

#[local] Hint Resolve kept_async_device_list_timeout : kept.

Lemma kept_handle_hub_rstate event :
  preserves (futures_kept w0) (_handle_hub_rstate lib event).
Proof.
  unfold _handle_hub_rstate.
  repeat preserves_step ltac:(kept_side) ltac:(auto with kept nocore).
Qed.

#[local] Hint Resolve kept_handle_hub_rstate : kept.

Lemma kept_deletion_cancel :
  preserves (futures_kept w0) (AjaxDeletionCoordinator.cancel).
Proof.
  unfold AjaxDeletionCoordinator.cancel.
  repeat preserves_step ltac:(kept_side) ltac:(auto with kept nocore).
Qed.

#[local] Hint Resolve kept_deletion_cancel : kept.

Lemma kept_deletion_fail reason :
  preserves (futures_kept w0) (AjaxDeletionCoordinator._fail reason).
Proof.
  unfold AjaxDeletionCoordinator._fail.
  repeat preserves_step ltac:(kept_side) ltac:(auto with kept nocore).
Qed.

#[local] Hint Resolve kept_deletion_fail : kept.

Lemma kept_async_delete device_id :
  preserves (futures_kept w0) (AjaxDeletionCoordinator.async_delete device_id).
Proof.
  unfold AjaxDeletionCoordinator.async_delete.
  repeat preserves_step ltac:(kept_side) ltac:(auto with kept nocore).
Qed.

#[local] Hint Resolve kept_async_delete : kept.

Lemma kept_deletion_leave :
  preserves (futures_kept w0) (AjaxDeletionCoordinator.leave).
Proof.
  unfold AjaxDeletionCoordinator.leave.
  repeat preserves_step ltac:(kept_side) ltac:(auto with kept nocore).
Qed.

#[local] Hint Resolve kept_deletion_leave : kept.

Lemma kept_after_delete device_id :
  preserves (futures_kept w0) (AjaxDeletionCoordinator.after_delete device_id).
Proof.
  unfold AjaxDeletionCoordinator.after_delete.
  repeat preserves_step ltac:(kept_side) ltac:(auto with kept nocore).
Qed.

#[local] Hint Resolve kept_after_delete : kept.

Lemma kept_deletion_resume :
  preserves (futures_kept w0) (AjaxDeletionCoordinator.resume).
Proof.
  unfold AjaxDeletionCoordinator.resume.
  repeat preserves_step ltac:(kept_side) ltac:(auto with kept nocore).
Qed.

#[local] Hint Resolve kept_deletion_resume : kept.

Lemma kept_deletion_wait_timeout :
  preserves (futures_kept w0) (AjaxDeletionCoordinator.wait_timeout).
Proof.
  unfold AjaxDeletionCoordinator.wait_timeout.
  repeat preserves_step ltac:(kept_side) ltac:(auto with kept nocore).
Qed.

#[local] Hint Resolve kept_deletion_wait_timeout : kept.

Lemma kept_deletion_handle_event event :
  preserves (futures_kept w0) (AjaxDeletionCoordinator.handle_event event).
Proof.
  unfold AjaxDeletionCoordinator.handle_event.
  repeat preserves_step ltac:(kept_side) ltac:(auto with kept nocore).
Qed.

#[local] Hint Resolve kept_deletion_handle_event : kept.

Lemma kept_parameter_cancel :
  preserves (futures_kept w0) (AjaxParameterCoordinator.cancel).
Proof.
  unfold AjaxParameterCoordinator.cancel.
  repeat preserves_step ltac:(kept_side) ltac:(auto with kept nocore).
Qed.

#[local] Hint Resolve kept_parameter_cancel : kept.

Lemma kept_parameter_fail reason :
  preserves (futures_kept w0) (AjaxParameterCoordinator._fail reason).
Proof.
  unfold AjaxParameterCoordinator._fail.
  repeat preserves_step ltac:(kept_side) ltac:(auto with kept nocore).
Qed.

#[local] Hint Resolve kept_parameter_fail : kept.

Lemma kept_async_set device_id command :
  preserves (futures_kept w0) (AjaxParameterCoordinator.async_set device_id command).
Proof.
  unfold AjaxParameterCoordinator.async_set.
  repeat preserves_step ltac:(kept_side) ltac:(auto with kept nocore).
Qed.

#[local] Hint Resolve kept_async_set : kept.

Lemma kept_parameter_leave :
  preserves (futures_kept w0) (AjaxParameterCoordinator.leave).
Proof.
  unfold AjaxParameterCoordinator.leave.
  repeat preserves_step ltac:(kept_side) ltac:(auto with kept nocore).
Qed.

#[local] Hint Resolve kept_parameter_leave : kept.

Lemma kept_parameter_resume :
  preserves (futures_kept w0) (AjaxParameterCoordinator.resume).
Proof.
  unfold AjaxParameterCoordinator.resume.
  repeat preserves_step ltac:(kept_side) ltac:(auto with kept nocore).
Qed.

#[local] Hint Resolve kept_parameter_resume : kept.

Lemma kept_parameter_wait_timeout :
  preserves (futures_kept w0) (AjaxParameterCoordinator.wait_timeout).
Proof.
  unfold AjaxParameterCoordinator.wait_timeout.
  repeat preserves_step ltac:(kept_side) ltac:(auto with kept nocore).
Qed.

#[local] Hint Resolve kept_parameter_wait_timeout : kept.

Lemma kept_parameter_handle_event event :
  preserves (futures_kept w0) (AjaxParameterCoordinator.handle_event event).
Proof.
  unfold AjaxParameterCoordinator.handle_event.
  repeat preserves_step ltac:(kept_side) ltac:(auto with kept nocore).
Qed.

#[local] Hint Resolve kept_parameter_handle_event : kept.

Lemma kept_refresh_then_exit :
  preserves (futures_kept w0) (_refresh_then_exit).
Proof.
  unfold _refresh_then_exit.
  repeat preserves_step ltac:(kept_side) ltac:(auto with kept nocore).
Qed.

#[local] Hint Resolve kept_refresh_then_exit : kept.

Lemma kept_handle_event event :
  preserves (futures_kept w0) (_handle_event lib event).
Proof.
  unfold _handle_event.
  repeat preserves_step ltac:(kept_side) ltac:(auto with kept nocore).
Qed.

#[local] Hint Resolve kept_handle_event : kept.

Lemma kept_data_received line :
  preserves (futures_kept w0) (data_received lib line).
Proof.
  unfold data_received.
  repeat preserves_step ltac:(kept_side) ltac:(auto with kept nocore).
Qed.

#[local] Hint Resolve kept_data_received : kept.

Lemma kept_run_callback cb :
  preserves (futures_kept w0) (run_callback lib cb).
Proof.
  unfold run_callback.
  repeat preserves_step ltac:(kept_side) ltac:(auto with kept nocore).
Qed.

#[local] Hint Resolve kept_run_callback : kept.

Lemma kept_fire h : preserves (futures_kept w0) (fire lib h).
Proof.
  intros w Hw. unfold fire.
  destruct (World.timers w !! h) as [t|]; [|done].
  destruct (t_live t); [|done].
  apply kept_run_callback. revert w Hw. kept_side.
Qed.

#[local] Hint Resolve kept_fire : kept.

Lemma kept_async_start_bridge :
  preserves (futures_kept w0) (_async_start_bridge).
Proof.
  unfold _async_start_bridge.
  repeat preserves_step ltac:(kept_side) ltac:(auto with kept nocore).
Qed.

#[local] Hint Resolve kept_async_start_bridge : kept.

Lemma kept_drop_handle fut : preserves (futures_kept w0) (drop_handle fut).
Proof.
  intros w Hw. unfold drop_handle.
  destruct (World.futures w !! fut) as [f|]; [|done].
  destruct (bool_decide (f_owner f = OwnPairing)); [|done].
  revert w Hw. unfold future_cancel. apply preserves_modify. kept_side.
Qed.

#[local] Hint Resolve kept_drop_handle : kept.

Lemma kept_step a : preserves (futures_kept w0) (step lib a).
Proof.
  unfold step.
  repeat preserves_step ltac:(kept_side) ltac:(auto with kept nocore).
Qed.

#[local] Hint Resolve kept_step : kept.

Lemma kept_run w actions : futures_kept w0 w → futures_kept w0 (run lib w actions).
Proof.
  revert w. induction actions as [|a l IH]; intros w Hw; [done|].
  cbn. apply IH. by apply kept_step.
Qed.

End FuturesKept.



(** ** A handle runs at most once *)

Lemma timers_kept_refl w : timers_kept w w.
Proof. intros h t Ht. by exists t. Qed.

Lemma tkept_later w0 w cb :
  timers_kept w0 w →
  timers_kept w0 (World.set_timers (World.timers w ++ [mkTimer cb true]) w).
Proof.
  intros Hw h t Ht. destruct (Hw h t Ht) as (t' & Ht' & Hc & Hl).
  cbn [World.timers World.set_timers].
  exists t'. split_and!; [|done|done].
  rewrite lookup_app_l; [done|by eapply lookup_lt_Some].
Qed.

Lemma tkept_cancel w0 w j :
  timers_kept w0 w →
  timers_kept w0
    (World.set_timers
       (alter (λ t, mkTimer (t_callback t) false) j (World.timers w)) w).
Proof.
  intros Hw h t Ht. destruct (Hw h t Ht) as (t' & Ht' & Hc & Hl).
  cbn [World.timers World.set_timers].
  destruct (decide (h = j)) as [->|Hne].
  - rewrite list_lookup_alter_eq, Ht'.
    exists (mkTimer (t_callback t') false).
    split; [done|]. split; [done|].
    intros Hd. specialize (Hl Hd). subst t'. destruct t; cbn in *. by subst.
  - rewrite list_lookup_alter_ne by done. by exists t'.
Qed.

Lemma tkept_fire w0 w j u :
  timers_kept w0 w →
  World.timers w !! j = Some u →
  timers_kept w0
    (World.set_timers (<[j := mkTimer (t_callback u) false]> (World.timers w)) w).
Proof.
  intros Hw Hu h t Ht. destruct (Hw h t Ht) as (t' & Ht' & Hc & Hl).
  cbn [World.timers World.set_timers].
  destruct (decide (h = j)) as [->|Hne].
  - rewrite list_lookup_insert_eq by by eapply lookup_lt_Some.
    rewrite Hu in Ht'. injection Ht' as <-.
    eexists. split; [done|]. split; [done|].
    intros Hd. specialize (Hl Hd). subst u. destruct t; cbn in *. by subst.
  - rewrite list_lookup_insert_ne by done. by exists t'.
Qed.

Ltac tkept_frame :=
  let w := fresh "w" in
  let Hw := fresh "Hw" in
  intros w Hw; exact Hw.

Ltac tkept_side :=
  first
    [ tkept_frame
    | intros; assumption
    | intros; by apply tkept_later
    | intros; by apply tkept_cancel ].

Create HintDb tkept.

Section TimersKept.

Variable lib : Library.
Variable w0 : World.t.

Lemma tkept_cancel_exit_command :
  preserves (timers_kept w0) (AjaxPairingCoordinator._cancel_exit_command).
Proof.
  unfold AjaxPairingCoordinator._cancel_exit_command.
  repeat preserves_step ltac:(tkept_side) ltac:(auto with tkept nocore).
Qed.

#[local] Hint Resolve tkept_cancel_exit_command : tkept.

Lemma tkept_reset_timeout :
  preserves (timers_kept w0) (AjaxPairingCoordinator._reset_timeout).
Proof.
  unfold AjaxPairingCoordinator._reset_timeout.
  repeat preserves_step ltac:(tkept_side) ltac:(auto with tkept nocore).
Qed.

#[local] Hint Resolve tkept_reset_timeout : tkept.

Lemma tkept_send_exit_command command stage :
  preserves (timers_kept w0) (AjaxPairingCoordinator._send_exit_command command stage).
Proof.
  unfold AjaxPairingCoordinator._send_exit_command.
  repeat preserves_step ltac:(tkept_side) ltac:(auto with tkept nocore).
Qed.

#[local] Hint Resolve tkept_send_exit_command : tkept.

Lemma tkept_restart_wrk_fallback_timer :
  preserves (timers_kept w0) (AjaxPairingCoordinator._restart_wrk_fallback_timer).
Proof.
  unfold AjaxPairingCoordinator._restart_wrk_fallback_timer.
  repeat preserves_step ltac:(tkept_side) ltac:(auto with tkept nocore).
Qed.

#[local] Hint Resolve tkept_restart_wrk_fallback_timer : tkept.

Lemma tkept_complete_exit_success :
  preserves (timers_kept w0) (AjaxPairingCoordinator._complete_exit_success).
Proof.
  unfold AjaxPairingCoordinator._complete_exit_success.
  repeat preserves_step ltac:(tkept_side) ltac:(auto with tkept nocore).
Qed.

#[local] Hint Resolve tkept_complete_exit_success : tkept.

Lemma tkept_cleanup send_wrk force_exit :
  preserves (timers_kept w0) (AjaxPairingCoordinator._cleanup send_wrk force_exit).
Proof.
  unfold AjaxPairingCoordinator._cleanup.
  repeat preserves_step ltac:(tkept_side) ltac:(auto with tkept nocore).
Qed.

#[local] Hint Resolve tkept_cleanup : tkept.

Lemma tkept_start_search flow_id :
  preserves (timers_kept w0) (AjaxPairingCoordinator.start_search flow_id).
Proof.
  unfold AjaxPairingCoordinator.start_search.
  repeat preserves_step ltac:(tkept_side) ltac:(auto with tkept nocore).
Qed.

#[local] Hint Resolve tkept_start_search : tkept.

Lemma tkept_pairing_cancel reason immediate :
  preserves (timers_kept w0) (AjaxPairingCoordinator.cancel reason immediate).
Proof.
  unfold AjaxPairingCoordinator.cancel.
  repeat preserves_step ltac:(tkept_side) ltac:(auto with tkept nocore).
Qed.

#[local] Hint Resolve tkept_pairing_cancel : tkept.

Lemma tkept_confirm_candidate flow_id :
  preserves (timers_kept w0) (AjaxPairingCoordinator.confirm_candidate flow_id).
Proof.
  unfold AjaxPairingCoordinator.confirm_candidate.
  repeat preserves_step ltac:(tkept_side) ltac:(auto with tkept nocore).
Qed.

#[local] Hint Resolve tkept_confirm_candidate : tkept.

Lemma tkept_force_cleanup :
  preserves (timers_kept w0) (AjaxPairingCoordinator.force_cleanup).
Proof.
  unfold AjaxPairingCoordinator.force_cleanup.
  repeat preserves_step ltac:(tkept_side) ltac:(auto with tkept nocore).
Qed.

#[local] Hint Resolve tkept_force_cleanup : tkept.

Lemma tkept_pairing_fail reason :
  preserves (timers_kept w0) (AjaxPairingCoordinator._fail reason).
Proof.
  unfold AjaxPairingCoordinator._fail.
  repeat preserves_step ltac:(tkept_side) ltac:(auto with tkept nocore).
Qed.

#[local] Hint Resolve tkept_pairing_fail : tkept.

Lemma tkept_on_timeout :
  preserves (timers_kept w0) (AjaxPairingCoordinator._on_timeout).
Proof.
  unfold AjaxPairingCoordinator._on_timeout.
  repeat preserves_step ltac:(tkept_side) ltac:(auto with tkept nocore).
Qed.

#[local] Hint Resolve tkept_on_timeout : tkept.

Lemma tkept_finalize_success refresh :
  preserves (timers_kept w0) (AjaxPairingCoordinator._finalize_success refresh).
Proof.
  unfold AjaxPairingCoordinator._finalize_success.
  repeat preserves_step ltac:(tkept_side) ltac:(auto with tkept nocore).
Qed.

#[local] Hint Resolve tkept_finalize_success : tkept.

Lemma tkept_finalize_success_without_refresh :
  preserves (timers_kept w0) (AjaxPairingCoordinator._finalize_success_without_refresh).
Proof.
  unfold AjaxPairingCoordinator._finalize_success_without_refresh.
  repeat preserves_step ltac:(tkept_side) ltac:(auto with tkept nocore).
Qed.

#[local] Hint Resolve tkept_finalize_success_without_refresh : tkept.

Lemma tkept_handle_exit_result status code :
  preserves (timers_kept w0) (AjaxPairingCoordinator._handle_exit_result status code).
Proof.
  unfold AjaxPairingCoordinator._handle_exit_result.
  repeat preserves_step ltac:(tkept_side) ltac:(auto with tkept nocore).
Qed.

#[local] Hint Resolve tkept_handle_exit_result : tkept.

Lemma tkept_send_wrk_fallback :
  preserves (timers_kept w0) (AjaxPairingCoordinator._send_wrk_fallback).
Proof.
  unfold AjaxPairingCoordinator._send_wrk_fallback.
  repeat preserves_step ltac:(tkept_side) ltac:(auto with tkept nocore).
Qed.

#[local] Hint Resolve tkept_send_wrk_fallback : tkept.

Lemma tkept_exit_send command :
  preserves (timers_kept w0) (AjaxPairingCoordinator.exit_send command).
Proof.
  unfold AjaxPairingCoordinator.exit_send.
  repeat preserves_step ltac:(tkept_side) ltac:(auto with tkept nocore).
Qed.

#[local] Hint Resolve tkept_exit_send : tkept.

Lemma tkept_handle_exit_event event :
  preserves (timers_kept w0) (AjaxPairingCoordinator._handle_exit_event event).
Proof.
  unfold AjaxPairingCoordinator._handle_exit_event.
  repeat preserves_step ltac:(tkept_side) ltac:(auto with tkept nocore).
Qed.

#[local] Hint Resolve tkept_handle_exit_event : tkept.

Lemma tkept_handle_result event :
  preserves (timers_kept w0) (AjaxPairingCoordinator._handle_result event).
Proof.
  unfold AjaxPairingCoordinator._handle_result.
  repeat preserves_step ltac:(tkept_side) ltac:(auto with tkept nocore).
Qed.

#[local] Hint Resolve tkept_handle_result : tkept.

Lemma tkept_handle_event_line event :
  preserves (timers_kept w0) (AjaxPairingCoordinator._handle_event_line lib event).
Proof.
  unfold AjaxPairingCoordinator._handle_event_line.
  repeat preserves_step ltac:(tkept_side) ltac:(auto with tkept nocore).
Qed.

#[local] Hint Resolve tkept_handle_event_line : tkept.

Lemma tkept_dispatch_tokens event tokens current consumed :
  preserves (timers_kept w0)
    (AjaxPairingCoordinator.dispatch_tokens lib event tokens current consumed).
Proof.
  revert current consumed.
  induction tokens as [|token rest IH]; intros current consumed; cbn.
  - repeat preserves_step ltac:(tkept_side) ltac:(auto with tkept nocore).
  - repeat preserves_step ltac:(tkept_side) ltac:(auto with tkept nocore || apply IH).
Qed.

#[local] Hint Resolve tkept_dispatch_tokens : tkept.

Lemma tkept_handle_event_dispatch event :
  preserves (timers_kept w0) (AjaxPairingCoordinator._handle_event_dispatch lib event).
Proof.
  unfold AjaxPairingCoordinator._handle_event_dispatch.
  repeat preserves_step ltac:(tkept_side) ltac:(auto with tkept nocore).
Qed.

#[local] Hint Resolve tkept_handle_event_dispatch : tkept.

Lemma tkept_pairing_handle_event event :
  preserves (timers_kept w0) (AjaxPairingCoordinator.handle_event lib event).
Proof.
  unfold AjaxPairingCoordinator.handle_event.
  repeat preserves_step ltac:(tkept_side) ltac:(auto with tkept nocore).
Qed.

#[local] Hint Resolve tkept_pairing_handle_event : tkept.

Lemma tkept_schedule_wrk_cancel :
  preserves (timers_kept w0) (_schedule_wrk_cancel).
Proof.
  unfold _schedule_wrk_cancel.
  repeat preserves_step ltac:(tkept_side) ltac:(auto with tkept nocore).
Qed.

#[local] Hint Resolve tkept_schedule_wrk_cancel : tkept.

Lemma tkept_schedule_wrk_send :
  preserves (timers_kept w0) (_schedule_wrk_send).
Proof.
  unfold _schedule_wrk_send.
  repeat preserves_step ltac:(tkept_side) ltac:(auto with tkept nocore).
Qed.

#[local] Hint Resolve tkept_schedule_wrk_send : tkept.

Lemma tkept_send_wrk : preserves (timers_kept w0) (_send_wrk).
Proof.
  unfold _send_wrk.
  repeat preserves_step ltac:(tkept_side) ltac:(auto with tkept nocore).
Qed.

#[local] Hint Resolve tkept_send_wrk : tkept.

Lemma tkept_async_refresh_device_list :
  preserves (timers_kept w0) (_async_refresh_device_list).
Proof.
  unfold _async_refresh_device_list.
  repeat preserves_step ltac:(tkept_side) ltac:(auto with tkept nocore).
Qed.

#[local] Hint Resolve tkept_async_refresh_device_list : tkept.

Lemma tkept_delayed_stop : preserves (timers_kept w0) (_delayed_stop).
Proof.
  unfold _delayed_stop.
  repeat preserves_step ltac:(tkept_side) ltac:(auto with tkept nocore).
Qed.

#[local] Hint Resolve tkept_delayed_stop : tkept.

Lemma tkept_handle_list_entry event :
  preserves (timers_kept w0) (_handle_list_entry lib event).
Proof.
  unfold _handle_list_entry.
  repeat preserves_step ltac:(tkept_side) ltac:(auto with tkept nocore).
Qed.

#[local] Hint Resolve tkept_handle_list_entry : tkept.

Lemma tkept_finalize_device_list success :
  preserves (timers_kept w0) (_finalize_device_list lib success).
Proof.
  unfold _finalize_device_list.
  repeat preserves_step ltac:(tkept_side) ltac:(auto with tkept nocore).
Qed.

#[local] Hint Resolve tkept_finalize_device_list : tkept.

Lemma tkept_process_list_result event :
  preserves (timers_kept w0) (_process_list_result lib event).
Proof.
  unfold _process_list_result.
  repeat preserves_step ltac:(tkept_side) ltac:(auto with tkept nocore).
Qed.

#[local] Hint Resolve tkept_process_list_result : tkept.

Lemma tkept_async_device_list_timeout :
  preserves (timers_kept w0) (_async_device_list_timeout lib).
Proof.
  unfold _async_device_list_timeout.
  repeat preserves_step ltac:(tkept_side) ltac:(auto with tkept nocore).
Qed.

#[local] Hint Resolve tkept_async_device_list_timeout : tkept.

Lemma tkept_handle_hub_rstate event :
  preserves (timers_kept w0) (_handle_hub_rstate lib event).
Proof.
  unfold _handle_hub_rstate.
  repeat preserves_step ltac:(tkept_side) ltac:(auto with tkept nocore).
Qed.

#[local] Hint Resolve tkept_handle_hub_rstate : tkept.

Lemma tkept_deletion_cancel :
  preserves (timers_kept w0) (AjaxDeletionCoordinator.cancel).
Proof.
  unfold AjaxDeletionCoordinator.cancel.
  repeat preserves_step ltac:(tkept_side) ltac:(auto with tkept nocore).
Qed.

#[local] Hint Resolve tkept_deletion_cancel : tkept.

Lemma tkept_deletion_fail reason :
  preserves (timers_kept w0) (AjaxDeletionCoordinator._fail reason).
Proof.
  unfold AjaxDeletionCoordinator._fail.
  repeat preserves_step ltac:(tkept_side) ltac:(auto with tkept nocore).
Qed.

#[local] Hint Resolve tkept_deletion_fail : tkept.

Lemma tkept_async_delete device_id :
  preserves (timers_kept w0) (AjaxDeletionCoordinator.async_delete device_id).
Proof.
  unfold AjaxDeletionCoordinator.async_delete.
  repeat preserves_step ltac:(tkept_side) ltac:(auto with tkept nocore).
Qed.

#[local] Hint Resolve tkept_async_delete : tkept.

Lemma tkept_deletion_leave :
  preserves (timers_kept w0) (AjaxDeletionCoordinator.leave).
Proof.
  unfold AjaxDeletionCoordinator.leave.
  repeat preserves_step ltac:(tkept_side) ltac:(auto with tkept nocore).
Qed.

#[local] Hint Resolve tkept_deletion_leave : tkept.

Lemma tkept_after_delete device_id :
  preserves (timers_kept w0) (AjaxDeletionCoordinator.after_delete device_id).
Proof.
  unfold AjaxDeletionCoordinator.after_delete.
  repeat preserves_step ltac:(tkept_side) ltac:(auto with tkept nocore).
Qed.

#[local] Hint Resolve tkept_after_delete : tkept.

Lemma tkept_deletion_resume :
  preserves (timers_kept w0) (AjaxDeletionCoordinator.resume).
Proof.
  unfold AjaxDeletionCoordinator.resume.
  repeat preserves_step ltac:(tkept_side) ltac:(auto with tkept nocore).
Qed.

#[local] Hint Resolve tkept_deletion_resume : tkept.

Lemma tkept_deletion_wait_timeout :
  preserves (timers_kept w0) (AjaxDeletionCoordinator.wait_timeout).
Proof.
  unfold AjaxDeletionCoordinator.wait_timeout.
  repeat preserves_step ltac:(tkept_side) ltac:(auto with tkept nocore).
Qed.

#[local] Hint Resolve tkept_deletion_wait_timeout : tkept.

Lemma tkept_deletion_handle_event event :
  preserves (timers_kept w0) (AjaxDeletionCoordinator.handle_event event).
Proof.
  unfold AjaxDeletionCoordinator.handle_event.
  repeat preserves_step ltac:(tkept_side) ltac:(auto with tkept nocore).
Qed.

#[local] Hint Resolve tkept_deletion_handle_event : tkept.

Lemma tkept_parameter_cancel :
  preserves (timers_kept w0) (AjaxParameterCoordinator.cancel).
Proof.
  unfold AjaxParameterCoordinator.cancel.
  repeat preserves_step ltac:(tkept_side) ltac:(auto with tkept nocore).
Qed.

#[local] Hint Resolve tkept_parameter_cancel : tkept.

Lemma tkept_parameter_fail reason :
  preserves (timers_kept w0) (AjaxParameterCoordinator._fail reason).
Proof.
  unfold AjaxParameterCoordinator._fail.
  repeat preserves_step ltac:(tkept_side) ltac:(auto with tkept nocore).
Qed.

#[local] Hint Resolve tkept_parameter_fail : tkept.

Lemma tkept_async_set device_id command :
  preserves (timers_kept w0) (AjaxParameterCoordinator.async_set device_id command).
Proof.
  unfold AjaxParameterCoordinator.async_set.
  repeat preserves_step ltac:(tkept_side) ltac:(auto with tkept nocore).
Qed.

#[local] Hint Resolve tkept_async_set : tkept.

Lemma tkept_parameter_leave :
  preserves (timers_kept w0) (AjaxParameterCoordinator.leave).
Proof.
  unfold AjaxParameterCoordinator.leave.
  repeat preserves_step ltac:(tkept_side) ltac:(auto with tkept nocore).
Qed.

#[local] Hint Resolve tkept_parameter_leave : tkept.

Lemma tkept_parameter_resume :
  preserves (timers_kept w0) (AjaxParameterCoordinator.resume).
Proof.
  unfold AjaxParameterCoordinator.resume.
  repeat preserves_step ltac:(tkept_side) ltac:(auto with tkept nocore).
Qed.

#[local] Hint Resolve tkept_parameter_resume : tkept.

Lemma tkept_parameter_wait_timeout :
  preserves (timers_kept w0) (AjaxParameterCoordinator.wait_timeout).
Proof.
  unfold AjaxParameterCoordinator.wait_timeout.
  repeat preserves_step ltac:(tkept_side) ltac:(auto with tkept nocore).
Qed.

#[local] Hint Resolve tkept_parameter_wait_timeout : tkept.

Lemma tkept_parameter_handle_event event :
  preserves (timers_kept w0) (AjaxParameterCoordinator.handle_event event).
Proof.
  unfold AjaxParameterCoordinator.handle_event.
  repeat preserves_step ltac:(tkept_side) ltac:(auto with tkept nocore).
Qed.

#[local] Hint Resolve tkept_parameter_handle_event : tkept.

Lemma tkept_refresh_then_exit :
  preserves (timers_kept w0) (_refresh_then_exit).
Proof.
  unfold _refresh_then_exit.
  repeat preserves_step ltac:(tkept_side) ltac:(auto with tkept nocore).
Qed.

#[local] Hint Resolve tkept_refresh_then_exit : tkept.

Lemma tkept_handle_event event :
  preserves (timers_kept w0) (_handle_event lib event).
Proof.
  unfold _handle_event.
  repeat preserves_step ltac:(tkept_side) ltac:(auto with tkept nocore).
Qed.

#[local] Hint Resolve tkept_handle_event : tkept.

Lemma tkept_data_received line :
  preserves (timers_kept w0) (data_received lib line).
Proof.
  unfold data_received.
  repeat preserves_step ltac:(tkept_side) ltac:(auto with tkept nocore).
Qed.

#[local] Hint Resolve tkept_data_received : tkept.

Lemma tkept_run_callback cb :
  preserves (timers_kept w0) (run_callback lib cb).
Proof.
  unfold run_callback.
  repeat preserves_step ltac:(tkept_side) ltac:(auto with tkept nocore).
Qed.

#[local] Hint Resolve tkept_run_callback : tkept.

Lemma tkept_fire_handle h : preserves (timers_kept w0) (fire lib h).
Proof.
  intros w Hw. unfold fire.
  destruct (World.timers w !! h) as [t|] eqn:Ht; [|done].
  destruct (t_live t); [|done].
  apply tkept_run_callback. by apply tkept_fire.
Qed.

#[local] Hint Resolve tkept_fire_handle : tkept.

Lemma tkept_async_start_bridge :
  preserves (timers_kept w0) (_async_start_bridge).
Proof.
  unfold _async_start_bridge.
  repeat preserves_step ltac:(tkept_side) ltac:(auto with tkept nocore).
Qed.

#[local] Hint Resolve tkept_async_start_bridge : tkept.

Lemma tkept_drop_handle fut : preserves (timers_kept w0) (drop_handle fut).
Proof.
  intros w Hw. unfold drop_handle.
  destruct (World.futures w !! fut) as [f|]; [|done].
  destruct (bool_decide (f_owner f = OwnPairing)); [|done].
  revert w Hw. unfold future_cancel. apply preserves_modify. tkept_side.
Qed.

#[local] Hint Resolve tkept_drop_handle : tkept.

Lemma tkept_step a : preserves (timers_kept w0) (step lib a).
Proof.
  unfold step.
  repeat preserves_step ltac:(tkept_side) ltac:(auto with tkept nocore).
Qed.

#[local] Hint Resolve tkept_step : tkept.

Lemma tkept_run w actions : timers_kept w0 w → timers_kept w0 (run lib w actions).
Proof.
  revert w. induction actions as [|a l IH]; intros w Hw; [done|].
  cbn. apply IH. by apply tkept_step.
Qed.

End TimersKept.



(** ** Ends of a pairing session *)

Lemma lookup_alter_dead (l : list timer) (j h : nat) (cb : callback) :
  l !! h = Some (mkTimer cb false) →
  alter (λ t, mkTimer (t_callback t) false) j l !! h = Some (mkTimer cb false).
Proof.
  intros Hl. destruct (decide (j = h)) as [->|Hne].
  - by rewrite list_lookup_alter_eq, Hl.
  - by rewrite list_lookup_alter_ne.
Qed.

(** What is left to show of a bridge after a run: lookups in the tables
    of futures and handles, and the lengths of these. *)
Ltac close_tables :=
  unfold cancel_exception;
  repeat use_fact;
  split_and!;
  first
    [ reflexivity
    | by rewrite list_lookup_insert_eq by list_len
    | f_equal; list_len
    | apply lookup_snoc_at; list_len
    | repeat apply lookup_alter_dead;
      repeat (rewrite lookup_app_l by list_len; repeat apply lookup_alter_dead);
      by rewrite list_lookup_insert_eq by list_len ].

Section PairingEnds.

Variable lib : Library.

(** In the stage [waiting_finalize] a RESULT OK of the hub changes nothing:
    [_handle_result] calls [_finalize_success()] without the keyword
    [refresh], the call raises TypeError, and [data_received] logs and drops
    the exception; the finalize future stays pending. *)
Theorem finalize_ok_reply_is_dropped w fut line code :
  finalizing w fut →
  result_line lib line "OK" code →
  (step lib (HubLine line) w).2 = w.
Proof.
  intros Hf Hl.
  destruct (hub_line_world lib line "OK" code w Hl) as (ev & (Ht & Hst & Hc) & ->).
  unfold finalizing, deletion_busy, parameter_busy, Deletion.busy,
    ParamUpdate.busy in Hf.
  destruct Hf as (? & ? & ? & ? & Hd & Hp & ?).
  apply bool_decide_eq_false in Hd, Hp. apply dec_stable in Hd, Hp.
  mrun. reflexivity.
Qed.

(** [cancel] during a search fails the search future with the exception of
    the reason (the timeout error for the reason timeout, the cancelled
    error otherwise), ends the session, sends nothing at once and starts
    the exit from engineering mode: [stt] is scheduled as the next callback
    of the loop. *)
Theorem cancel_fails_search w fut retries stage reason immediate :
  searching w fut retries stage →
  let w' := (step lib (Cancel reason immediate) w).2 in
  f_state <$> World.futures w' !! fut = Some (FException (cancel_exception reason))
  ∧ Pairing._active (World.pairing_manager w') = false
  ∧ Pairing._search_future (World.pairing_manager w') = None
  ∧ Pairing._exit_pending (World.pairing_manager w') = true
  ∧ Pairing._exit_stage (World.pairing_manager w')
    = Some Pairing.await_stt_result
  ∧ World.wire w' = World.wire w
  ∧ Pairing._exit_command_handle (World.pairing_manager w')
    = Some (S (length (World.timers w)))
  ∧ World.timers w' !! S (length (World.timers w))
    = Some (mkTimer (PairingExitSend "stt") true).
Proof.
  intros Hs w'. subst w'. cbn [step].
  searching_facts Hs.
  match goal with H : World.futures w !! fut = _ |- _ =>
    pose proof (lookup_lt_Some _ _ _ H) as Hlt end.
  destruct immediate.
  all: mrun.
  all: close_tables.
Qed.

(** When the timeout of a search is due, [_on_timeout] fails the search
    future with the timeout error, ends the session, sends nothing at once
    and starts the exit from engineering mode. *)
Theorem timeout_fails_search w fut retries stage h :
  searching w fut retries stage →
  Pairing._timeout_handle (World.pairing_manager w) = Some h →
  World.timers w !! h = Some (mkTimer PairingOnTimeout true) →
  let w' := (step lib (Due h) w).2 in
  f_state <$> World.futures w' !! fut
  = Some (FException (PairingTimeoutError "timeout"))
  ∧ Pairing._active (World.pairing_manager w') = false
  ∧ Pairing._search_future (World.pairing_manager w') = None
  ∧ Pairing._exit_pending (World.pairing_manager w') = true
  ∧ Pairing._exit_stage (World.pairing_manager w')
    = Some Pairing.await_stt_result
  ∧ World.wire w' = World.wire w
  ∧ World.timers w' !! h = Some (mkTimer PairingOnTimeout false).
Proof.
  intros Hs Hh Ht w'. subst w'. cbn [step].
  searching_facts Hs.
  match goal with H : World.futures w !! fut = _ |- _ =>
    pose proof (lookup_lt_Some _ _ _ H) as Hlt end.
  pose proof (lookup_lt_Some _ _ _ Ht) as Hlt'.
  mrun.
  all: close_tables.
Qed.

End PairingEnds.

Lemma sample_searching_is_searching :
  searching sample_searching 0 0 Pairing.await_stop_result.
Proof. repeat split; reflexivity. Qed.

Lemma finalize_ok_reply_is_dropped_witness :
  (step sample_library (HubLine "RESULT;OK;0") sample_confirmed).2
  = sample_confirmed.
Proof.
  apply (finalize_ok_reply_is_dropped sample_library sample_confirmed 1%nat
           "RESULT;OK;0" "0").
  - repeat split; reflexivity.
  - apply (sample_result_line "OK" "0"). set_solver.
Defined.

Lemma cancel_fails_search_witness :
  let w' := (step sample_library (Cancel "cancelled" false) sample_searching).2 in
  f_state <$> World.futures w' !! 0%nat
  = Some (FException (cancel_exception "cancelled"))
  ∧ Pairing._active (World.pairing_manager w') = false
  ∧ Pairing._search_future (World.pairing_manager w') = None
  ∧ Pairing._exit_pending (World.pairing_manager w') = true
  ∧ Pairing._exit_stage (World.pairing_manager w')
    = Some Pairing.await_stt_result
  ∧ World.wire w' = World.wire sample_searching
  ∧ Pairing._exit_command_handle (World.pairing_manager w')
    = Some (S (length (World.timers sample_searching)))
  ∧ World.timers w' !! S (length (World.timers sample_searching))
    = Some (mkTimer (PairingExitSend "stt") true).
Proof.
  apply (cancel_fails_search sample_library sample_searching 0%nat 0%nat
           Pairing.await_stop_result "cancelled" false).
  apply sample_searching_is_searching.
Defined.

Lemma timeout_fails_search_witness :
  let w' := (step sample_library (Due 0) sample_searching).2 in
  f_state <$> World.futures w' !! 0%nat
  = Some (FException (PairingTimeoutError "timeout"))
  ∧ Pairing._active (World.pairing_manager w') = false
  ∧ Pairing._search_future (World.pairing_manager w') = None
  ∧ Pairing._exit_pending (World.pairing_manager w') = true
  ∧ Pairing._exit_stage (World.pairing_manager w')
    = Some Pairing.await_stt_result
  ∧ World.wire w' = World.wire sample_searching
  ∧ World.timers w' !! 0%nat = Some (mkTimer PairingOnTimeout false).
Proof.
  apply (timeout_fails_search sample_library sample_searching 0%nat 0%nat
           Pairing.await_stop_result 0%nat).
  - apply sample_searching_is_searching.
  - reflexivity.
  - reflexivity.
Defined.

(** ** The device-list refresh *)

Ltac listing_facts H :=
  unfold listing, idle, deletion_busy, parameter_busy, Deletion.busy,
    ParamUpdate.busy in H;
  let Hd := fresh "Hd" in
  let Hp := fresh "Hp" in
  first
    [ destruct H as (? & ? & ? & Hd & Hp & ? & ? & ? & ? & ? & ?)
    | destruct H as (? & ? & Hd & Hp & ? & ?) ];
  apply bool_decide_eq_false in Hd, Hp; apply dec_stable in Hd, Hp.

Ltac close_listing :=
  unfold listing, deletion_busy, parameter_busy, Deletion.busy,
    ParamUpdate.busy;
  simpl_goal;
  repeat use_fact;
  split_and!;
  first
    [ reflexivity | done | by apply bool_decide_eq_false_2; auto
    | by rewrite <- ?app_assoc ].

Section RefreshSteps.

Variable lib : Library.

Lemma refresh_starts w :
  idle w →
  listing (_async_refresh_device_list w).2 None
    (EntryData.devices (World.entry_data w)) ∅ (World.wire w)
    (World.registry_removed w)
  ∧ World.timers (_async_refresh_device_list w).2
    = (World.timers w ++ [mkTimer ListTimeout true; mkTimer DelayedStop true])%list.
Proof.
  intros Hi. listing_facts Hi.
  mrun. close_listing.
Qed.

Lemma refresh_stop_sent w snapshot pending wire removed h :
  listing w None snapshot pending wire removed →
  World.timers w !! h = Some (mkTimer DelayedStop true) →
  listing (step lib (Due h) w).2 (Some stage_stop) snapshot pending
    (wire ++ ["stop"]) removed.
Proof.
  intros Hl Ht. listing_facts Hl. cbn [step].
  mrun. close_listing.
Qed.

Lemma refresh_stop_accepted w snapshot pending wire removed line code :
  listing w (Some stage_stop) snapshot pending wire removed →
  result_line lib line "OK" code →
  listing (step lib (HubLine line) w).2 (Some stage_lst) snapshot pending
    (wire ++ ["lst"]) removed.
Proof.
  intros Hl Hr. listing_facts Hl.
  destruct (hub_line_world lib line "OK" code w Hr) as (ev & (Ht & Hst & Hc) & ->).
  mrun; close_listing.
Qed.

Lemma refresh_entry w snapshot pending wire removed line id :
  listing w (Some stage_lst) snapshot pending wire removed →
  list_line lib line id → id ≠ "" →
  ∃ entry,
    listing (step lib (HubLine line) w).2 (Some stage_lst) snapshot
      (<[id := entry]> pending) wire removed.
Proof.
  intros Hl (Hne & ev & Hp & Ht & Hid) Hid'. listing_facts Hl.
  rewrite (hub_line_event lib line w Hne ev Hp).
  mrun.
  all: eexists; close_listing.
Qed.

Lemma refresh_list_accepted w snapshot pending wire removed line code :
  listing w (Some stage_lst) snapshot pending wire removed →
  result_line lib line "OK" code →
  listing (step lib (HubLine line) w).2 (Some stage_wrk) snapshot pending
    (wire ++ ["wrk"]) removed.
Proof.
  intros Hl Hr. listing_facts Hl.
  destruct (hub_line_world lib line "OK" code w Hr) as (ev & (Ht & Hst & Hc) & ->).
  mrun; close_listing.
Qed.

Lemma refresh_finalized w snapshot pending wire removed line code :
  listing w (Some stage_wrk) snapshot pending wire removed →
  pending ≠ ∅ →
  result_line lib line "OK" code →
  let w' := (step lib (HubLine line) w).2 in
  EntryData.list_active (World.entry_data w') = false
  ∧ dom (EntryData.devices (World.entry_data w')) = dom pending
  ∧ EntryData.allowed_ids (World.entry_data w') = dom pending
  ∧ World.wire w' = wire
  ∧ World.registry_removed w'
    = removed ∪ registry_removals snapshot (removed_ids snapshot pending).
Proof.
  intros Hl Hne Hr w'. subst w'. listing_facts Hl.
  destruct (hub_line_world lib line "OK" code w Hr) as (ev & (Ht & Hst & Hc) & ->).
  mrun.
  all: repeat use_fact; simpl_goal; rewrite dom_map_imap_total.
  all: by split_and!.
Qed.

Lemma refresh_entries lines ids snapshot wire removed :
  Forall2 (list_line lib) lines ids → Forall (λ id, id ≠ "") ids →
  ∀ w pending,
    listing w (Some stage_lst) snapshot pending wire removed →
    ∃ pending',
      listing (run lib w (HubLine <$> lines)) (Some stage_lst) snapshot
        pending' wire removed
      ∧ dom pending' = dom pending ∪ list_to_set ids.
Proof.
  induction 1 as [|line id lines ids Hline _ IH]; intros Hids w pending Hl.
  - exists pending. split; [done|]. cbn. set_solver.
  - apply Forall_cons in Hids as [Hid Hids].
    destruct (refresh_entry w snapshot pending wire removed line id Hl Hline Hid)
      as (entry & Hl').
    destruct (IH Hids _ _ Hl') as (pending' & Hl'' & Hdom).
    exists pending'. split; [done|].
    rewrite Hdom, dom_insert_L. cbn. set_solver.
Qed.

Lemma run_app w l1 l2 : run lib w (l1 ++ l2) = run lib (run lib w l1) l2.
Proof. apply foldl_app. Qed.

(** The device-list refresh takes over what the hub lists.  From an idle
    bridge the refresh sends [stop], [lst] and [wrk] as the hub accepts
    them; when LIST lines for the non-empty ids [ids], and no others, arrive
    during [lst], the refresh ends with exactly these ids as devices and as
    allowed ids, and every device of the previous dictionary that was not
    listed is in the removed set, and is removed from the registry when its
    entry holds a registry id. *)
Theorem refresh_takes_over_list w ok1 ok2 ok3 c1 c2 c3 lines ids :
  idle w →
  result_line lib ok1 "OK" c1 →
  result_line lib ok2 "OK" c2 →
  result_line lib ok3 "OK" c3 →
  Forall2 (list_line lib) lines ids →
  Forall (λ id, id ≠ "") ids →
  ids ≠ [] →
  let previous := EntryData.devices (World.entry_data w) in
  let w' := run lib (_async_refresh_device_list w).2
              ([Due (S (length (World.timers w))); HubLine ok1]
               ++ (HubLine <$> lines) ++ [HubLine ok2; HubLine ok3]) in
  dom (EntryData.devices (World.entry_data w')) = list_to_set ids
  ∧ EntryData.allowed_ids (World.entry_data w') = list_to_set ids
  ∧ EntryData.list_active (World.entry_data w') = false
  ∧ World.wire w' = (World.wire w ++ ["stop"; "lst"; "wrk"])%list
  ∧ ∀ c, c ∈ dom previous → c ∉ ids →
      c ∈ removed_ids previous (EntryData.devices (World.entry_data w'))
      ∧ (nonempty (previous !! c ≫= Meta.device_registry_id) = true →
         c ∈ World.registry_removed w').
Proof.
  intros Hi H1 H2 H3 Hlines Hids Hne previous w'. subst w'.
  destruct (refresh_starts w Hi) as [L0 T0].
  assert (Ht : World.timers (_async_refresh_device_list w).2
               !! S (length (World.timers w))
               = Some (mkTimer DelayedStop true)).
  { rewrite T0. rewrite lookup_app_r by lia.
    by replace (S (length (World.timers w)) - length (World.timers w))%nat
      with 1%nat by lia. }
  pose proof (refresh_stop_sent _ _ _ _ _ _ L0 Ht) as L1.
  pose proof (refresh_stop_accepted _ _ _ _ _ ok1 c1 L1 H1) as L2.
  destruct (refresh_entries lines ids _ _ _ Hlines Hids _ _ L2)
    as (pending & L3 & Hdom).
  pose proof (refresh_list_accepted _ _ _ _ _ ok2 c2 L3 H2) as L4.
  rewrite dom_empty_L, (left_id_L ∅ (∪)) in Hdom.
  assert (Hpend : pending ≠ ∅).
  { intros ->. rewrite dom_empty_L in Hdom.
    destruct ids as [|id ids']; [done|]. cbn in Hdom. set_solver. }
  destruct (refresh_finalized _ _ _ _ _ ok3 c3 L4 Hpend H3)
    as (Ha & Hdev & Hall & Hw & Hreg).
  cbn [app]. rewrite !(run_cons lib), run_app, !(run_cons lib), (run_nil lib).
  rewrite Hdom in Hdev, Hall.
  split_and!; [done|done|done| |].
  - rewrite Hw. by rewrite <- !app_assoc.
  - intros c Hc Hnot. split.
    + unfold removed_ids. rewrite Hdev.
      apply elem_of_difference. split; [done|].
      by rewrite elem_of_list_to_set.
    + intros Hreg'. rewrite Hreg. apply elem_of_union_r.
      unfold registry_removals. apply elem_of_filter. split; [done|].
      unfold removed_ids. apply elem_of_difference. split; [done|].
      by rewrite Hdom, elem_of_list_to_set.
Qed.


End RefreshSteps.

Lemma sample_list_line id :
  id ∈ ["ab12ef"; "cd34gh"] →
  list_line sample_library ("LIST;1;2;" +:+ id +:+ ";FE") (PyStr.upper id).
Proof.
  intros H. repeat (apply elem_of_cons in H as [->|H]);
    [| |by apply elem_of_nil in H].
  all: split; [intros E; discriminate E|];
    eexists; split; [reflexivity|]; split; reflexivity.
Qed.

Lemma refresh_takes_over_list_witness :
  let previous := EntryData.devices (World.entry_data sample_ready) in
  let w' := run sample_library (_async_refresh_device_list sample_ready).2
              ([Due (S (length (World.timers sample_ready)));
                HubLine "RESULT;OK;0"]
               ++ (HubLine <$> ["LIST;1;2;ab12ef;FE"; "LIST;1;2;cd34gh;FE"])
               ++ [HubLine "RESULT;OK;0"; HubLine "RESULT;OK;0"]) in
  dom (EntryData.devices (World.entry_data w'))
  = list_to_set ["AB12EF"; "CD34GH"]
  ∧ EntryData.allowed_ids (World.entry_data w')
    = list_to_set ["AB12EF"; "CD34GH"]
  ∧ EntryData.list_active (World.entry_data w') = false
  ∧ World.wire w' = (World.wire sample_ready ++ ["stop"; "lst"; "wrk"])%list
  ∧ ∀ c, c ∈ dom previous → c ∉ ["AB12EF"; "CD34GH"] →
      c ∈ removed_ids previous (EntryData.devices (World.entry_data w'))
      ∧ (nonempty (previous !! c ≫= Meta.device_registry_id) = true →
         c ∈ World.registry_removed w').
Proof.
  apply (refresh_takes_over_list sample_library sample_ready
           "RESULT;OK;0" "RESULT;OK;0" "RESULT;OK;0" "0" "0" "0"
           ["LIST;1;2;ab12ef;FE"; "LIST;1;2;cd34gh;FE"] ["AB12EF"; "CD34GH"]).
  - repeat split; reflexivity.
  - apply (sample_result_line "OK" "0"). set_solver.
  - apply (sample_result_line "OK" "0"). set_solver.
  - apply (sample_result_line "OK" "0"). set_solver.
  - constructor; [|constructor; [|constructor]].
    + apply (sample_list_line "ab12ef"). set_solver.
    + apply (sample_list_line "cd34gh"). set_solver.
  - constructor; [|constructor; [|constructor]]; discriminate.
  - discriminate.
Defined.


(** ** The parameter update and the timeouts of the two coordinators *)

Ltac updating_facts H :=
  unfold updating, deleting, deletion_busy, Deletion.busy in H;
  first
    [ let Hd := fresh "Hd" in
      destruct H as (? & ? & ? & ? & Hd & ? & ? & ?);
      apply bool_decide_eq_false in Hd; apply dec_stable in Hd
    | destruct H as (? & ? & ? & ? & ? & ? & ?) ];
  repeat match goal with
  | H : World.futures _ !! _ = Some _ |- _ =>
      lazymatch goal with
      | _ : context [length (World.futures _)] |- _ => fail
      | _ => pose proof (lookup_lt_Some _ _ _ H)
      end
  end.

Ltac close_updating :=
  unfold updating, deleting, deletion_busy, Deletion.busy, ParamUpdate.busy,
    ParamUpdate.locked, Deletion.locked;
  simpl_goal;
  repeat use_fact;
  split_and!;
  first
    [ reflexivity | done | by apply bool_decide_eq_false_2; auto
    | by rewrite <- ?app_assoc
    | by rewrite list_lookup_insert_eq by list_len
    | apply lookup_snoc_at; list_len
    | by rewrite lookup_app_l by list_len
    | rewrite list_lookup_alter_eq; repeat use_fact; reflexivity ].

Section ParameterSession.

Variable lib : Library.

Lemma async_set_updating w device_id command fut w0 :
  AjaxParameterCoordinator.async_set device_id command w
  = (Ok (AwaitingFuture fut), w0) →
  updating w0 fut (length (World.timers w)) ParamUpdate.await_stop command
  ∧ World.wire w0 = (World.wire w ++ ["stop"])%list.
Proof.
  repeat mrun_step.
  all: try discriminate.
  all: intros [= <- <-].
  all: unfold Deletion.busy in *; close_updating.
Qed.

Lemma updating_stop_ok w fut h command line code :
  updating w fut h ParamUpdate.await_stop command →
  command ≠ "" →
  result_line lib line "OK" code → code ∈ ok_codes →
  updating (step lib (HubLine line) w).2 fut h ParamUpdate.await_command command
  ∧ World.wire (step lib (HubLine line) w).2 = (World.wire w ++ [command])%list.
Proof.
  intros Hu Hne Hl Hcode. updating_facts Hu.
  destruct (hub_line_world lib line "OK" code w Hl) as (ev & (Ht & Hst & Hc) & ->).
  apply ok_code_is_in in Hcode.
  assert (Hn : nonempty (Some command) = true).
  { cbn. by rewrite bool_decide_eq_false_2. }
  mrun. close_updating.
Qed.

Lemma updating_command_ok w fut h command line code :
  updating w fut h ParamUpdate.await_command command →
  result_line lib line "OK" code → code ∈ ok_codes →
  updating (step lib (HubLine line) w).2 fut h ParamUpdate.await_wrk command
  ∧ World.wire (step lib (HubLine line) w).2 = (World.wire w ++ ["wrk"])%list.
Proof.
  intros Hu Hl Hcode. updating_facts Hu.
  destruct (hub_line_world lib line "OK" code w Hl) as (ev & (Ht & Hst & Hc) & ->).
  apply ok_code_is_in in Hcode.
  mrun. close_updating.
Qed.

Lemma updating_command_refused w fut h command line status code :
  updating w fut h ParamUpdate.await_command command →
  result_line lib line status code →
  bool_decide (status = "OK") && is_in code ok_codes = false →
  let w' := (step lib (HubLine line) w).2 in
  f_state <$> World.futures w' !! fut
  = Some (FException (HomeAssistantError
            ("par_failed status=" +:+ status +:+ " code=" +:+ code)))
  ∧ ParamUpdate.busy (World.parameter_coordinator w') = false
  ∧ World.wire w' = (World.wire w ++ ["wrk"])%list.
Proof.
  intros Hu Hl Hcode w'. subst w'. updating_facts Hu.
  destruct (hub_line_world lib line status code w Hl)
    as (ev & (Ht & Hst & Hc) & ->).
  mrun. close_updating.
Qed.

Lemma updating_wrk_ok w fut h command line code :
  updating w fut h ParamUpdate.await_wrk command →
  result_line lib line "OK" code → code ∈ ok_codes →
  let w' := (step lib (HubLine line) w).2 in
  let w'' := (step lib SetParametersResumes w').2 in
  f_state <$> World.futures w' !! fut = Some (FResult VTrue)
  ∧ World.wire w' = World.wire w
  ∧ World.wire w'' = World.wire w
  ∧ ParamUpdate.busy (World.parameter_coordinator w'') = false
  ∧ ParamUpdate.locked (World.parameter_coordinator w'') = false
  ∧ World.timers w'' !! h = Some (mkTimer ParameterWaitTimeout false).
Proof.
  intros Hu Hl Hcode w'. subst w'. updating_facts Hu.
  destruct (hub_line_world lib line "OK" code w Hl) as (ev & (Ht & Hst & Hc) & ->).
  apply ok_code_is_in in Hcode.
  cbn [step].
  mrun. mrun. close_updating.
Qed.

(** A parameter update that starts runs to its end as the hub accepts each
    command: [async_set] sends [stop]; after RESULT OK it sends the
    command, after the next [wrk], and the third resolves the future with
    True; the caller then resumes, and the coordinator is idle and its lock
    free.  When the hub refuses the command, the future fails with
    par_failed and the refusal, and [wrk] is sent. *)
Theorem parameter_session w device_id command fut w0 l1 l2 l3 n1 c1 c2 c3 :
  AjaxParameterCoordinator.async_set device_id command w
  = (Ok (AwaitingFuture fut), w0) →
  command ≠ "" →
  result_line lib l1 "OK" c1 → c1 ∈ ok_codes →
  result_line lib l2 "OK" c2 → c2 ∈ ok_codes →
  result_line lib l3 "OK" c3 → c3 ∈ ok_codes →
  result_line lib n1 "NAK" "1" →
  (let w3 := run lib w0 [HubLine l1; HubLine l2; HubLine l3] in
   let w4 := run lib w3 [SetParametersResumes] in
   World.wire w3 = (World.wire w ++ ["stop"; command; "wrk"])%list
   ∧ f_state <$> World.futures w3 !! fut = Some (FResult VTrue)
   ∧ World.wire w4 = World.wire w3
   ∧ ParamUpdate.busy (World.parameter_coordinator w4) = false
   ∧ ParamUpdate.locked (World.parameter_coordinator w4) = false)
  ∧ (let w2 := run lib w0 [HubLine l1; HubLine n1] in
     World.wire w2 = (World.wire w ++ ["stop"; command; "wrk"])%list
     ∧ f_state <$> World.futures w2 !! fut
       = Some (FException
                 (HomeAssistantError "par_failed status=NAK code=1"))
     ∧ ParamUpdate.busy (World.parameter_coordinator w2) = false).
Proof.
  intros Hs Hne H1 Hc1 H2 Hc2 H3 Hc3 Hn1.
  destruct (async_set_updating _ _ _ _ _ Hs) as [U0 W0].
  destruct (updating_stop_ok _ _ _ _ l1 c1 U0 Hne H1 Hc1) as [U1 W1].
  split.
  - destruct (updating_command_ok _ _ _ _ l2 c2 U1 H2 Hc2) as [U2 W2].
    destruct (updating_wrk_ok _ _ _ _ l3 c3 U2 H3 Hc3)
      as (F3 & W3 & W4 & B4 & L4 & _).
    cbv zeta. rewrite !(run_cons lib), !(run_nil lib).
    split_and!; [|done|by rewrite W4, W3|done|done].
    rewrite W3, W2, W1, W0. by rewrite <- !app_assoc.
  - destruct (updating_command_refused _ _ _ _ n1 "NAK" "1" U1 Hn1 eq_refl)
      as (F2 & B2 & W2).
    cbv zeta. rewrite !(run_cons lib), !(run_nil lib).
    split_and!; [|done|done].
    rewrite W2, W1, W0. by rewrite <- !app_assoc.
Qed.

(** When the 15 seconds of a parameter update are over, the future is
    cancelled (no exception is set on it), [wrk] is sent and the
    coordinator is idle again with its lock free. *)
Theorem parameter_update_times_out w fut h stage command :
  updating w fut h stage command →
  let w' := (step lib (Due h) w).2 in
  f_state <$> World.futures w' !! fut = Some FCancelled
  ∧ World.wire w' = (World.wire w ++ ["wrk"])%list
  ∧ ParamUpdate.busy (World.parameter_coordinator w') = false
  ∧ ParamUpdate.locked (World.parameter_coordinator w') = false.
Proof.
  intros Hu w'. subst w'. updating_facts Hu. cbn [step].
  mrun. close_updating.
Qed.

(** When the 15 seconds of a deletion are over, the future is cancelled
    (no exception is set on it), [wrk] is sent and the coordinator is idle
    again with its lock free; the device stays in the dictionary. *)
Theorem deletion_times_out w fut h stage device_id :
  deleting w fut h stage device_id →
  let w' := (step lib (Due h) w).2 in
  f_state <$> World.futures w' !! fut = Some FCancelled
  ∧ World.wire w' = (World.wire w ++ ["wrk"])%list
  ∧ Deletion.busy (World.delete_manager w') = false
  ∧ Deletion.locked (World.delete_manager w') = false
  ∧ EntryData.devices (World.entry_data w')
    = EntryData.devices (World.entry_data w).
Proof.
  intros Hu w'. subst w'. updating_facts Hu. cbn [step].
  mrun. close_updating.
Qed.

End ParameterSession.

Lemma sample_updating_is_updating :
  updating sample_updating 0 0 ParamUpdate.await_stop "par AB12CD,1".
Proof. repeat split; reflexivity. Qed.

Lemma sample_deleting_is_deleting :
  deleting sample_deleting 0 0 Deletion.await_stop "AB12CD".
Proof. repeat split; reflexivity. Qed.

Lemma parameter_session_witness :
  ∃ w0,
    AjaxParameterCoordinator.async_set "ab12cd" "par AB12CD,1" sample_ready
    = (Ok (AwaitingFuture 0), w0)
    ∧ World.wire
        (run sample_library w0
           [HubLine "RESULT;OK;0"; HubLine "RESULT;OK;0"; HubLine "RESULT;OK;0"])
      = (World.wire sample_ready ++ ["stop"; "par AB12CD,1"; "wrk"])%list.
Proof.
  eexists. split; [vm_compute; reflexivity|].
  refine (proj1 (proj1 (parameter_session sample_library sample_ready
    "ab12cd" "par AB12CD,1" 0 _
    "RESULT;OK;0" "RESULT;OK;0" "RESULT;OK;0" "RESULT;NAK;1"
    "0" "0" "0" _ _ _ _ _ _ _ _ _))).
  - vm_compute; reflexivity.
  - discriminate.
  - apply (sample_result_line "OK" "0"). set_solver.
  - apply sample_ok_code.
  - apply (sample_result_line "OK" "0"). set_solver.
  - apply sample_ok_code.
  - apply (sample_result_line "OK" "0"). set_solver.
  - apply sample_ok_code.
  - apply (sample_result_line "NAK" "1"). set_solver.
Defined.

Lemma parameter_update_times_out_witness :
  let w' := (step sample_library (Due 0) sample_updating).2 in
  f_state <$> World.futures w' !! 0%nat = Some FCancelled
  ∧ World.wire w' = (World.wire sample_updating ++ ["wrk"])%list
  ∧ ParamUpdate.busy (World.parameter_coordinator w') = false
  ∧ ParamUpdate.locked (World.parameter_coordinator w') = false.
Proof.
  apply (parameter_update_times_out sample_library sample_updating 0%nat 0%nat
           ParamUpdate.await_stop "par AB12CD,1").
  apply sample_updating_is_updating.
Defined.

Lemma deletion_times_out_witness :
  let w' := (step sample_library (Due 0) sample_deleting).2 in
  f_state <$> World.futures w' !! 0%nat = Some FCancelled
  ∧ World.wire w' = (World.wire sample_deleting ++ ["wrk"])%list
  ∧ Deletion.busy (World.delete_manager w') = false
  ∧ Deletion.locked (World.delete_manager w') = false
  ∧ EntryData.devices (World.entry_data w')
    = EntryData.devices (World.entry_data sample_deleting).
Proof.
  apply (deletion_times_out sample_library sample_deleting 0%nat 0%nat
           Deletion.await_stop "AB12CD").
  apply sample_deleting_is_deleting.
Defined.

(** ** A pairing that succeeds *)

Ltac close_pairing :=
  unfold confirmable, finalizing, searching, deletion_busy, parameter_busy,
    Deletion.busy, ParamUpdate.busy;
  simpl_goal;
  repeat use_fact;
  split_and!;
  first
    [ reflexivity | done | by apply bool_decide_eq_false_2; auto
    | by rewrite <- ?app_assoc
    | by rewrite list_lookup_insert_eq by list_len
    | apply lookup_snoc_at; list_len
    | by rewrite lookup_app_l by list_len
    | f_equal; list_len
    | by rewrite last_snoc ].

Ltac confirmable_facts H :=
  unfold confirmable, finalizing, deletion_busy, parameter_busy,
    Deletion.busy, ParamUpdate.busy in H;
  let Hd := fresh "Hd" in
  let Hp := fresh "Hp" in
  first
    [ destruct H as (? & ? & ? & ? & ? & ? & ? & Hd & Hp & ?)
    | destruct H as (? & ? & ? & ? & Hd & Hp & ?) ];
  apply bool_decide_eq_false in Hd, Hp; apply dec_stable in Hd, Hp.

Section PairingSucceeds.

Variable lib : Library.

Lemma start_search_flow w flow_id fut w0 :
  AjaxPairingCoordinator.start_search flow_id w = (Ok fut, w0) →
  Pairing._flow_id (World.pairing_manager w0) = Some flow_id.
Proof.
  repeat mrun_step.
  all: try discriminate.
  all: by intros [= <- <-].
Qed.

Lemma searching_stop_accepted w fut r line code :
  searching w fut r Pairing.await_stop_result →
  result_line lib line "OK" code → code ∈ ok_codes →
  let w' := (step lib (HubLine line) w).2 in
  searching w' fut r Pairing.await_add_result
  ∧ World.wire w' = (World.wire w ++ ["add"])%list
  ∧ Pairing._flow_id (World.pairing_manager w')
    = Pairing._flow_id (World.pairing_manager w).
Proof.
  intros Hs Hl Hcode w'. subst w'.
  destruct (hub_line_world lib line "OK" code w Hl) as (ev & (Ht & Hst & Hc) & ->).
  apply ok_code_is_in in Hcode.
  searching_facts Hs.
  mrun; close_searching.
Qed.

Lemma searching_add_accepted w fut r line code :
  searching w fut r Pairing.await_add_result →
  result_line lib line "OK" code →
  let w' := (step lib (HubLine line) w).2 in
  searching w' fut r Pairing.await_device
  ∧ World.wire w' = World.wire w
  ∧ Pairing._flow_id (World.pairing_manager w')
    = Pairing._flow_id (World.pairing_manager w).
Proof.
  intros Hs Hl w'. subst w'.
  destruct (hub_line_world lib line "OK" code w Hl) as (ev & (Ht & Hst & Hc) & ->).
  searching_facts Hs.
  mrun; close_searching.
Qed.

Lemma searching_device_announced w fut r flow_id line first rest :
  searching w fut r Pairing.await_device →
  Pairing._flow_id (World.pairing_manager w) = Some flow_id →
  event_line lib line (first :: rest) →
  "EVENT" ∉ first :: rest →
  PyStr.upper (PyStr.strip first) ≠ "" →
  event_attributes ∅ rest !! "NEW" = Some "1" →
  attr_set (event_attributes ∅ rest) "WFA" = true →
  let c := _build_candidate_details lib (PyStr.upper (PyStr.strip first))
             (event_attributes ∅ rest) in
  let w' := (step lib (HubLine line) w).2 in
  confirmable w' flow_id c
  ∧ f_state <$> World.futures w' !! fut = Some (FResult (VCandidate (Some c)))
  ∧ World.wire w' = World.wire w.
Proof.
  intros Hs Hflow (Hne & ev & Hp & Ht & Hev) Hnot Hid Hnew Hwfa c w'.
  subst c w'.
  rewrite (hub_line_event lib line w Hne ev Hp).
  assert (Hit : iter_tokens ev = Ok (first :: rest)).
  { unfold iter_tokens. by rewrite Hev. }
  assert (Hpt : _parse_event_tokens (first :: rest)
                = (Some (PyStr.upper (PyStr.strip first)),
                   event_attributes ∅ rest)) by reflexivity.
  searching_facts Hs.
  match goal with H : World.futures w !! fut = _ |- _ =>
    pose proof (lookup_lt_Some _ _ _ H) end.
  mrun; close_pairing.
Qed.

(** A search finds its candidate.  After [start_search], when the hub
    accepts [stop] and then [add] and announces a device by an EVENT line
    whose first token is the id and whose attributes hold NEW=1 and a
    non-empty WFA, the search future is resolved with the candidate built
    from the line, the commands sent are [stop] and [add], and pairing
    waits for the confirmation of the caller. *)
Theorem search_finds_candidate w flow_id fut w0 ok1 c1 ok2 c2 line first rest :
  deletion_busy w = false → parameter_busy w = false →
  AjaxPairingCoordinator.start_search flow_id w = (Ok fut, w0) →
  result_line lib ok1 "OK" c1 → c1 ∈ ok_codes →
  result_line lib ok2 "OK" c2 →
  event_line lib line (first :: rest) →
  "EVENT" ∉ first :: rest →
  PyStr.upper (PyStr.strip first) ≠ "" →
  event_attributes ∅ rest !! "NEW" = Some "1" →
  attr_set (event_attributes ∅ rest) "WFA" = true →
  let c := _build_candidate_details lib (PyStr.upper (PyStr.strip first))
             (event_attributes ∅ rest) in
  let w3 := run lib w0 [HubLine ok1; HubLine ok2; HubLine line] in
  confirmable w3 flow_id c
  ∧ f_state <$> World.futures w3 !! fut = Some (FResult (VCandidate (Some c)))
  ∧ World.wire w3 = (World.wire w ++ ["stop"; "add"])%list.
Proof.
  intros Hd Hp Hstart H1 Hc1 H2 Hev Hnot Hid Hnew Hwfa c w3. subst c w3.
  destruct (start_search_searching w flow_id fut w0 Hd Hp Hstart) as [S0 W0].
  pose proof (start_search_flow w flow_id fut w0 Hstart) as F0.
  destruct (searching_stop_accepted _ _ _ ok1 c1 S0 H1 Hc1) as (S1 & W1 & F1).
  destruct (searching_add_accepted _ _ _ ok2 c2 S1 H2) as (S2 & W2 & F2).
  rewrite F1, F0 in F2.
  destruct (searching_device_announced _ _ _ flow_id line first rest S2 F2
              Hev Hnot Hid Hnew Hwfa) as (C3 & R3 & W3).
  rewrite !(run_cons lib), (run_nil lib).
  split_and!; [done|done|].
  rewrite W3, W2, W1, W0. by rewrite <- !app_assoc.
Qed.

Lemma confirm_candidate_sends_y w flow_id c :
  confirmable w flow_id c →
  let fut := length (World.futures w) in
  (AjaxPairingCoordinator.confirm_candidate flow_id w).1 = Ok fut
  ∧ finalizing (AjaxPairingCoordinator.confirm_candidate flow_id w).2 fut
  ∧ Pairing._candidate
      (World.pairing_manager
         (AjaxPairingCoordinator.confirm_candidate flow_id w).2) = Some c
  ∧ Pairing._search_future
      (World.pairing_manager
         (AjaxPairingCoordinator.confirm_candidate flow_id w).2)
    = Pairing._search_future (World.pairing_manager w)
  ∧ Pairing._requested_stop
      (World.pairing_manager
         (AjaxPairingCoordinator.confirm_candidate flow_id w).2) = true
  ∧ EntryData.protocol
      (World.entry_data
         (AjaxPairingCoordinator.confirm_candidate flow_id w).2) = true
  ∧ World.wire (AjaxPairingCoordinator.confirm_candidate flow_id w).2
    = (World.wire w ++ ["y"])%list.
Proof.
  intros Hc fut. subst fut. confirmable_facts Hc.
  mrun_call; close_pairing.
Qed.

Lemma finalizing_device_reports w fut c line first rest :
  finalizing w fut →
  Pairing._candidate (World.pairing_manager w) = Some c →
  Pairing._requested_stop (World.pairing_manager w) = true →
  EntryData.protocol (World.entry_data w) = true →
  event_line lib line (first :: rest) →
  "EVENT" ∉ first :: rest →
  PyStr.upper (PyStr.strip first) = c_device_id c →
  c_device_id c ≠ "" →
  let attrs := event_attributes ∅ rest in
  let w' := (step lib (HubLine line) w).2 in
  (attr_set attrs "STR" && attr_set attrs "SLT" = true →
   f_state <$> World.futures w' !! fut = Some (FResult (VCandidate (Some c)))
   ∧ Pairing._active (World.pairing_manager w') = false
   ∧ Pairing._candidate (World.pairing_manager w') = Some c
   ∧ Pairing._exit_pending (World.pairing_manager w') = false
   ∧ last (World.timers w') = Some (mkTimer RefreshThenExit true)
   ∧ World.wire w' = World.wire w)
  ∧ (attr_set attrs "STR" && attr_set attrs "SLT" = false →
     attrs !! "NEW" = Some "1" → attr_set attrs "WFA" = false →
     f_state <$> World.futures w' !! fut = Some (FResult (VCandidate (Some c)))
     ∧ Pairing._active (World.pairing_manager w') = false
     ∧ Pairing._candidate (World.pairing_manager w') = None
     ∧ Pairing._exit_pending (World.pairing_manager w') = true
     ∧ Pairing._exit_stage (World.pairing_manager w')
       = Some Pairing.await_stt_result
     ∧ World.wire w' = World.wire w).
Proof.
  intros Hf Hcand Hreq Hprot (Hne & ev & Hp & Ht & Hev) Hnot Hid Hid' attrs w'.
  subst attrs w'.
  rewrite (hub_line_event lib line w Hne ev Hp).
  assert (Hit : iter_tokens ev = Ok (first :: rest)).
  { unfold iter_tokens. by rewrite Hev. }
  assert (Hpt : _parse_event_tokens (first :: rest)
                = (Some (c_device_id c), event_attributes ∅ rest)).
  { cbn. by rewrite Hid. }
  confirmable_facts Hf.
  match goal with H : World.futures w !! fut = _ |- _ =>
    pose proof (lookup_lt_Some _ _ _ H) end.
  split.
  - intros Hs. mrun. close_pairing.
  - intros Hs Hnew Hwfa.
    assert (Hn : bool_decide (event_attributes ∅ rest !! "NEW" = Some "1")
                 = true) by by apply bool_decide_eq_true_2.
    mrun; close_pairing.
Qed.

(** A confirmed pairing completes.  [confirm_candidate] of the session's
    flow sends [y] and returns a new pending future.  When the device of
    the candidate then reports its slot (EVENT with non-empty STR and SLT),
    the future is resolved with the candidate, the session ends and the
    refresh that precedes the exit is scheduled; when it reports NEW=1
    without WFA instead, the future is resolved with the candidate, the
    session ends and the exit from engineering mode starts. *)
Theorem confirmed_pairing_completes w flow_id c line first rest :
  confirmable w flow_id c →
  event_line lib line (first :: rest) →
  "EVENT" ∉ first :: rest →
  PyStr.upper (PyStr.strip first) = c_device_id c →
  c_device_id c ≠ "" →
  let attrs := event_attributes ∅ rest in
  let fut := length (World.futures w) in
  let w1 := (AjaxPairingCoordinator.confirm_candidate flow_id w).2 in
  let w2 := (step lib (HubLine line) w1).2 in
  (AjaxPairingCoordinator.confirm_candidate flow_id w).1 = Ok fut
  ∧ World.futures w1 !! fut = Some (mkFuture OwnPairing FPending)
  ∧ World.wire w1 = (World.wire w ++ ["y"])%list
  ∧ (attr_set attrs "STR" && attr_set attrs "SLT" = true →
     f_state <$> World.futures w2 !! fut = Some (FResult (VCandidate (Some c)))
     ∧ Pairing._active (World.pairing_manager w2) = false
     ∧ Pairing._candidate (World.pairing_manager w2) = Some c
     ∧ Pairing._exit_pending (World.pairing_manager w2) = false
     ∧ last (World.timers w2) = Some (mkTimer RefreshThenExit true)
     ∧ World.wire w2 = World.wire w1)
  ∧ (attr_set attrs "STR" && attr_set attrs "SLT" = false →
     attrs !! "NEW" = Some "1" → attr_set attrs "WFA" = false →
     f_state <$> World.futures w2 !! fut = Some (FResult (VCandidate (Some c)))
     ∧ Pairing._active (World.pairing_manager w2) = false
     ∧ Pairing._candidate (World.pairing_manager w2) = None
     ∧ Pairing._exit_pending (World.pairing_manager w2) = true
     ∧ Pairing._exit_stage (World.pairing_manager w2)
       = Some Pairing.await_stt_result
     ∧ World.wire w2 = World.wire w1).
Proof.
  intros Hc Hev Hnot Hid Hid' attrs fut w1 w2. subst attrs fut w1 w2.
  destruct (confirm_candidate_sends_y w flow_id c Hc)
    as (R1 & F1 & C1 & _ & Q1 & P1 & W1).
  destruct (finalizing_device_reports _ _ c line first rest F1 C1 Q1 P1
              Hev Hnot Hid Hid') as [Ha Hb].
  split; [done|]. split; [by destruct F1 as (_ & _ & _ & _ & _ & _ & ?)|].
  split; [done|]. split; [exact Ha|exact Hb].
Qed.

End PairingSucceeds.

Lemma sample_event_line tokens :
  tokens ∈ [["ab12ef"; "NEW=1"; "WFA=1"]; ["ab12ef"; "NEW=1"];
            ["ab12ef"; "STR=1"; "SLT=2"]] →
  event_line sample_library
    (foldl (λ line token, line +:+ ";" +:+ token) "EVENT" tokens) tokens.
Proof.
  intros H. repeat (apply elem_of_cons in H as [->|H]);
    [| | |by apply elem_of_nil in H].
  all: split; [intros E; discriminate E|];
    eexists; split; [reflexivity|]; split; reflexivity.
Qed.

Lemma search_finds_candidate_witness :
  ∃ w0,
    AjaxPairingCoordinator.start_search "flow" sample_ready = (Ok 0%nat, w0)
    ∧ f_state <$>
        World.futures
          (run sample_library w0
             [HubLine "RESULT;OK;0"; HubLine "RESULT;OK;0";
              HubLine "EVENT;ab12ef;NEW=1;WFA=1"]) !! 0%nat
      = Some (FResult (VCandidate (Some sample_candidate))).
Proof.
  eexists. split; [vm_compute; reflexivity|].
  refine (proj1 (proj2 (search_finds_candidate sample_library sample_ready
    "flow" 0%nat _ "RESULT;OK;0" "0" "RESULT;OK;0" "0"
    "EVENT;ab12ef;NEW=1;WFA=1" "ab12ef" ["NEW=1"; "WFA=1"]
    _ _ _ _ _ _ _ _ _ _ _))).
  - reflexivity.
  - reflexivity.
  - vm_compute; reflexivity.
  - apply (sample_result_line "OK" "0"). set_solver.
  - apply sample_ok_code.
  - apply (sample_result_line "OK" "0"). set_solver.
  - apply (sample_event_line ["ab12ef"; "NEW=1"; "WFA=1"]). set_solver.
  - intros H. repeat (apply elem_of_cons in H as [[=]|H]).
    by apply elem_of_nil in H.
  - discriminate.
  - reflexivity.
  - reflexivity.
Defined.

Lemma sample_candidate_found_is_confirmable :
  confirmable sample_candidate_found "flow" sample_candidate.
Proof. repeat split; reflexivity. Qed.

Lemma confirmed_pairing_completes_witness :
  let attrs := event_attributes ∅ ["NEW=1"] in
  let fut := length (World.futures sample_candidate_found) in
  let w1 := (AjaxPairingCoordinator.confirm_candidate "flow"
               sample_candidate_found).2 in
  let w2 := (step sample_library (HubLine "EVENT;ab12ef;NEW=1") w1).2 in
  (AjaxPairingCoordinator.confirm_candidate "flow" sample_candidate_found).1
  = Ok fut
  ∧ World.futures w1 !! fut = Some (mkFuture OwnPairing FPending)
  ∧ World.wire w1 = (World.wire sample_candidate_found ++ ["y"])%list
  ∧ (attr_set attrs "STR" && attr_set attrs "SLT" = true →
     f_state <$> World.futures w2 !! fut
     = Some (FResult (VCandidate (Some sample_candidate)))
     ∧ Pairing._active (World.pairing_manager w2) = false
     ∧ Pairing._candidate (World.pairing_manager w2) = Some sample_candidate
     ∧ Pairing._exit_pending (World.pairing_manager w2) = false
     ∧ last (World.timers w2) = Some (mkTimer RefreshThenExit true)
     ∧ World.wire w2 = World.wire w1)
  ∧ (attr_set attrs "STR" && attr_set attrs "SLT" = false →
     attrs !! "NEW" = Some "1" → attr_set attrs "WFA" = false →
     f_state <$> World.futures w2 !! fut
     = Some (FResult (VCandidate (Some sample_candidate)))
     ∧ Pairing._active (World.pairing_manager w2) = false
     ∧ Pairing._candidate (World.pairing_manager w2) = None
     ∧ Pairing._exit_pending (World.pairing_manager w2) = true
     ∧ Pairing._exit_stage (World.pairing_manager w2)
       = Some Pairing.await_stt_result
     ∧ World.wire w2 = World.wire w1).
Proof.
  apply (confirmed_pairing_completes sample_library sample_candidate_found
           "flow" sample_candidate "EVENT;ab12ef;NEW=1" "ab12ef" ["NEW=1"]).
  - apply sample_candidate_found_is_confirmable.
  - apply (sample_event_line ["ab12ef"; "NEW=1"]). set_solver.
  - intros H. repeat (apply elem_of_cons in H as [[=]|H]).
    by apply elem_of_nil in H.
  - reflexivity.
  - discriminate.
Defined.

(** ** The exit from engineering mode *)

Ltac exiting_facts H :=
  unfold exiting, leaving, deletion_busy, parameter_busy, Deletion.busy,
    ParamUpdate.busy in H;
  let Hd := fresh "Hd" in
  let Hp := fresh "Hp" in
  let Ht := fresh "Ht" in
  first
    [ destruct H as (? & ? & ? & ? & Ht & Hd & Hp & ?);
      pose proof (lookup_lt_Some _ _ _ Ht)
    | destruct H as (? & ? & ? & Hd & Hp & ?) ];
  apply bool_decide_eq_false in Hd, Hp; apply dec_stable in Hd, Hp.

Ltac close_exiting :=
  unfold exiting, leaving, deletion_busy, parameter_busy, Deletion.busy,
    ParamUpdate.busy;
  simpl_goal;
  repeat use_fact;
  split_and!;
  first
    [ reflexivity | done | by apply bool_decide_eq_false_2; auto
    | by rewrite <- ?app_assoc
    | f_equal; list_len
    | list_len
    | apply lookup_snoc_at; list_len ].

Section ExitSequence.

Variable lib : Library.

Lemma exit_command_sent w stage command h :
  exiting w stage command h →
  let w' := (step lib (Due h) w).2 in
  leaving w' stage
  ∧ World.wire w' = (World.wire w ++ [command])%list
  ∧ length (World.timers w') = length (World.timers w)
  ∧ EntryData.list_active (World.entry_data w')
    = EntryData.list_active (World.entry_data w).
Proof.
  intros He w'. subst w'. exiting_facts He. cbn [step].
  mrun. close_exiting.
Qed.

Lemma exit_stt_accepted w line code :
  leaving w Pairing.await_stt_result →
  result_line lib line "OK" code → code ∈ ok_codes →
  let w' := (step lib (HubLine line) w).2 in
  exiting w' Pairing.await_wrk_result "wrk" (S (length (World.timers w)))
  ∧ World.wire w' = World.wire w
  ∧ EntryData.list_active (World.entry_data w')
    = EntryData.list_active (World.entry_data w).
Proof.
  intros He Hl Hcode w'. subst w'. exiting_facts He.
  destruct (hub_line_world lib line "OK" code w Hl) as (ev & (Ht & Hst & Hc) & ->).
  apply ok_code_is_in in Hcode.
  mrun; close_exiting.
Qed.

Lemma exit_stt_refused w line status code :
  leaving w Pairing.await_stt_result →
  result_line lib line status code →
  bool_decide (status = "OK") && is_in code ok_codes = false →
  let w' := (step lib (HubLine line) w).2 in
  exiting w' Pairing.await_stt_result "stt" (length (World.timers w))
  ∧ World.wire w' = World.wire w.
Proof.
  intros He Hl Hcode w'. subst w'. exiting_facts He.
  destruct (hub_line_world lib line status code w Hl)
    as (ev & (Ht & Hst & Hc) & ->).
  mrun; close_exiting.
Qed.

Lemma exit_wrk_refused w line status code :
  leaving w Pairing.await_wrk_result →
  result_line lib line status code →
  bool_decide (status = "OK") && is_in code ok_codes = false →
  let w' := (step lib (HubLine line) w).2 in
  exiting w' Pairing.await_wrk_result "wrk" (S (length (World.timers w)))
  ∧ World.wire w' = World.wire w.
Proof.
  intros He Hl Hcode w'. subst w'. exiting_facts He.
  destruct (hub_line_world lib line status code w Hl)
    as (ev & (Ht & Hst & Hc) & ->).
  mrun; close_exiting.
Qed.

Lemma exit_wrk_accepted w line code :
  leaving w Pairing.await_wrk_result →
  result_line lib line "OK" code → code ∈ ok_codes →
  let w' := (step lib (HubLine line) w).2 in
  Pairing._exit_pending (World.pairing_manager w') = false
  ∧ Pairing._exit_stage (World.pairing_manager w') = None
  ∧ Pairing._in_engineering (World.pairing_manager w') = false
  ∧ Pairing._requested_stop (World.pairing_manager w') = false
  ∧ Pairing._active (World.pairing_manager w') = false
  ∧ EntryData.protocol (World.entry_data w') = true
  ∧ EntryData.list_active (World.entry_data w')
    = EntryData.list_active (World.entry_data w)
  ∧ World.wire w' = World.wire w.
Proof.
  intros He Hl Hcode w'. subst w'. exiting_facts He.
  destruct (hub_line_world lib line "OK" code w Hl) as (ev & (Ht & Hst & Hc) & ->).
  apply ok_code_is_in in Hcode.
  mrun; close_exiting.
Qed.

Lemma start_search_starts w flow_id :
  Pairing._active (World.pairing_manager w) = false →
  Pairing._exit_pending (World.pairing_manager w) = false →
  EntryData.list_active (World.entry_data w) = false →
  EntryData.protocol (World.entry_data w) = true →
  (AjaxPairingCoordinator.start_search flow_id w).1
  = Ok (length (World.futures w)).
Proof.
  intros Ha He Hl Hp.
  mrun_call; reflexivity.
Qed.

Lemma start_search_refused_while_leaving w stage flow_id :
  leaving w stage →
  (AjaxPairingCoordinator.start_search flow_id w).1 = Raise (PairingError "busy").
Proof.
  intros He. exiting_facts He.
  mrun_call; reflexivity.
Qed.

(** The exit from engineering mode runs to its end as the hub accepts each
    command.  When the scheduled [stt] is due it is sent; the RESULT OK for
    it schedules [wrk]; when that is due it is sent, and the RESULT OK for
    it ends the exit: [_exit_pending], [_in_engineering] and
    [_requested_stop] are cleared.  A search is refused with the error
    busy until then and can start afterwards. *)
Theorem exit_completes w h ok1 c1 ok2 c2 flow_id :
  exiting w Pairing.await_stt_result "stt" h →
  EntryData.list_active (World.entry_data w) = false →
  result_line lib ok1 "OK" c1 → c1 ∈ ok_codes →
  result_line lib ok2 "OK" c2 → c2 ∈ ok_codes →
  let w2 := run lib w [Due h; HubLine ok1] in
  let w4 := run lib w2 [Due (S (length (World.timers w))); HubLine ok2] in
  World.wire w2 = (World.wire w ++ ["stt"])%list
  ∧ (AjaxPairingCoordinator.start_search flow_id w2).1
    = Raise (PairingError "busy")
  ∧ World.wire w4 = (World.wire w ++ ["stt"; "wrk"])%list
  ∧ Pairing._exit_pending (World.pairing_manager w4) = false
  ∧ Pairing._in_engineering (World.pairing_manager w4) = false
  ∧ Pairing._requested_stop (World.pairing_manager w4) = false
  ∧ (AjaxPairingCoordinator.start_search flow_id w4).1
    = Ok (length (World.futures w4)).
Proof.
  intros He Hla H1 Hc1 H2 Hc2 w2 w4. subst w2 w4.
  rewrite !(run_cons lib), !(run_nil lib).
  destruct (exit_command_sent w _ _ h He) as (L1 & W1 & T1 & A1).
  destruct (exit_stt_accepted _ ok1 c1 L1 H1 Hc1) as (E2 & W2 & A2).
  rewrite T1 in E2.
  destruct (exit_command_sent _ _ _ _ E2) as (L3 & W3 & T3 & A3).
  destruct (exit_wrk_accepted _ ok2 c2 L3 H2 Hc2)
    as (P4 & S4 & I4 & R4 & Ac4 & Pr4 & A4 & W4).
  assert (L2 : leaving (step lib (HubLine ok1) (step lib (Due h) w).2).2
                 Pairing.await_wrk_result).
  { destruct E2 as (? & ? & ? & ? & ? & ? & ? & ?). by repeat split. }
  split_and!; try done.
  - by rewrite W2, W1.
  - by eapply start_search_refused_while_leaving.
  - rewrite W4, W3, W2, W1. by rewrite <- !app_assoc.
  - apply start_search_starts; try done.
    by rewrite A4, A3, A2, A1.
Qed.


End ExitSequence.

Lemma sample_exiting_is_exiting :
  exiting sample_exiting Pairing.await_stt_result "stt" 2.
Proof. repeat split; reflexivity. Qed.

Lemma exit_completes_witness :
  let w2 := run sample_library sample_exiting [Due 2; HubLine "RESULT;OK;0"] in
  let w4 := run sample_library w2
              [Due (S (length (World.timers sample_exiting)));
               HubLine "RESULT;OK;0"] in
  World.wire w2 = (World.wire sample_exiting ++ ["stt"])%list
  ∧ (AjaxPairingCoordinator.start_search "next" w2).1
    = Raise (PairingError "busy")
  ∧ World.wire w4 = (World.wire sample_exiting ++ ["stt"; "wrk"])%list
  ∧ Pairing._exit_pending (World.pairing_manager w4) = false
  ∧ Pairing._in_engineering (World.pairing_manager w4) = false
  ∧ Pairing._requested_stop (World.pairing_manager w4) = false
  ∧ (AjaxPairingCoordinator.start_search "next" w4).1
    = Ok (length (World.futures w4)).
Proof.
  apply (exit_completes sample_library sample_exiting 2%nat
           "RESULT;OK;0" "0" "RESULT;OK;0" "0" "next").
  - apply sample_exiting_is_exiting.
  - reflexivity.
  - apply (sample_result_line "OK" "0"). set_solver.
  - apply sample_ok_code.
  - apply (sample_result_line "OK" "0"). set_solver.
  - apply sample_ok_code.
Defined.


(** ** What the dispatcher forwards to the entities *)

Section Dispatcher.

Variable lib : Library.

(** An idle bridge forwards a line to the entities unless the line names a
    device that is not listed.  For a line that is neither a LIST nor an
    RSTATE line: when the allowed ids are not empty and the device id of
    the event is not empty, not allowed and not the id of the hub, the
    line changes nothing; in every other case the event is appended to the
    events dispatched, and nothing else changes. *)
Theorem unlisted_events_are_dropped w line ev :
  idle w →
  PyStr.strip line ≠ "" →
  Parser.parse_line (float_ok lib) (PyStr.strip line) = Ok ev →
  ev !! "tag" ≠ Some (PStr "LIST") →
  ev !! "tag" ≠ Some (PStr "RSTATE") →
  let id := event_device_id lib ev in
  let allowed := EntryData.allowed_ids (World.entry_data w) in
  let hub := EntryData.hub_device_code (World.entry_data w) in
  (allowed ≠ ∅ → id ≠ "" → id ∉ allowed → Some id ≠ hub →
   (step lib (HubLine line) w).2 = w)
  ∧ (allowed = ∅ ∨ id = "" ∨ id ∈ allowed ∨ Some id = hub →
     (step lib (HubLine line) w).2
     = World.set_dispatched (World.dispatched w ++ [ev]) w).
Proof.
  intros Hi Hne Hp Hlist Hrstate id allowed hub. subst id allowed hub.
  rewrite (hub_line_event lib line w Hne ev Hp).
  listing_facts Hi.
  split.
  - intros Ha Hid Hnot Hhub.
    assert (Hcond :
      negb (bool_decide (EntryData.allowed_ids (World.entry_data w) = ∅))
      && negb (bool_decide (event_device_id lib ev = ""))
      && negb (bool_decide
                 (event_device_id lib ev
                  ∈ EntryData.allowed_ids (World.entry_data w)))
      && negb (bool_decide
                 (Some (event_device_id lib ev)
                  = EntryData.hub_device_code (World.entry_data w))) = true).
    { by rewrite !bool_decide_eq_false_2. }
    mrun; reflexivity.
  - intros Hor.
    assert (Hcond :
      negb (bool_decide (EntryData.allowed_ids (World.entry_data w) = ∅))
      && negb (bool_decide (event_device_id lib ev = ""))
      && negb (bool_decide
                 (event_device_id lib ev
                  ∈ EntryData.allowed_ids (World.entry_data w)))
      && negb (bool_decide
                 (Some (event_device_id lib ev)
                  = EntryData.hub_device_code (World.entry_data w))) = false).
    { apply not_true_is_false. intros Hc.
      apply andb_prop in Hc as [Hc G4]. apply andb_prop in Hc as [Hc G3].
      apply andb_prop in Hc as [G1 G2].
      apply negb_true_iff, bool_decide_eq_false in G1, G2, G3, G4.
      by destruct Hor as [?|[?|[?|?]]]. }
    mrun; reflexivity.
Qed.

End Dispatcher.

Lemma unlisted_events_are_dropped_witness :
  let ev := <["raw" := PStr "ALARM;FE;zz99zz;3"]>
            (<["tag" := PStr "ALARM"]>
             (<["code" := PStr "3"]>
              (<["device_id" := PStr "ZZ99ZZ"]>
               {[ "type_code" := PStr "FE" ]}))) in
  let id := event_device_id sample_library ev in
  let allowed := EntryData.allowed_ids (World.entry_data sample_ready) in
  let hub := EntryData.hub_device_code (World.entry_data sample_ready) in
  (allowed ≠ ∅ → id ≠ "" → id ∉ allowed → Some id ≠ hub →
   (step sample_library (HubLine "ALARM;FE;zz99zz;3") sample_ready).2
   = sample_ready)
  ∧ (allowed = ∅ ∨ id = "" ∨ id ∈ allowed ∨ Some id = hub →
     (step sample_library (HubLine "ALARM;FE;zz99zz;3") sample_ready).2
     = World.set_dispatched (World.dispatched sample_ready ++ [ev])
         sample_ready).
Proof.
  apply (unlisted_events_are_dropped sample_library sample_ready
           "ALARM;FE;zz99zz;3").
  - repeat split; reflexivity.
  - intros E; discriminate E.
  - reflexivity.
  - discriminate.
  - discriminate.
Defined.

(** ** The framing of the serial line *)

Section Framing.
Import AjaxProtocol.

Lemma append_cons x (a b : string) : String x a +:+ b = String x (a +:+ b).
Proof. reflexivity. Qed.

Lemma append_nil (b : string) : "" +:+ b = b.
Proof. reflexivity. Qed.

Lemma string_app_assoc (a b c : string) : (a +:+ b) +:+ c = a +:+ (b +:+ c).
Proof. induction a as [|x a IH]; [reflexivity|]. rewrite !append_cons. cbn [String.length]. by rewrite IH. Qed.

Lemma string_app_nil_r (a : string) : a +:+ "" = a.
Proof. induction a as [|x a IH]; [reflexivity|]. rewrite !append_cons. cbn [String.length]. by rewrite IH. Qed.

Lemma string_app_length (a b : string) :
  String.length (a +:+ b) = (String.length a + String.length b)%nat.
Proof. induction a as [|x a IH]; [reflexivity|]. rewrite !append_cons. cbn [String.length]. by rewrite IH. Qed.

Lemma split_crlf_cons c r :
  split_crlf (String c r) =
  match r with
  | String c' r' =>
      if bool_decide (c = CR) && bool_decide (c' = LF) then Some ("", r')
      else match split_crlf r with
           | Some (line, rest) => Some (String c line, rest)
           | None => None
           end
  | EmptyString => None
  end.
Proof. destruct r; reflexivity. Qed.

(** Where the buffer is cut: the line has no CR LF, and line, CR LF and
    rest make up the buffer. *)
Lemma split_crlf_some buf line rest :
  split_crlf buf = Some (line, rest) →
  buf = line +:+ CRLF +:+ rest ∧ split_crlf line = None.
Proof.
  revert line rest. induction buf as [|c r IH]; intros line rest; [done|].
  rewrite split_crlf_cons. destruct r as [|c' r']; [done|].
  destruct (bool_decide (c = CR) && bool_decide (c' = LF)) eqn:E.
  - intros [= <- <-]. apply andb_true_iff in E as [E1 E2].
    apply bool_decide_eq_true in E1, E2. subst. done.
  - destruct (split_crlf (String c' r')) as [[l0 r0]|] eqn:E'; [|done].
    intros [= <- <-]. destruct (IH _ _ eq_refl) as [Heq Hl].
    split; [by rewrite append_cons, <- Heq|].
    rewrite split_crlf_cons. destruct l0 as [|d l0]; [done|].
    rewrite append_cons in Heq. injection Heq as -> ->. rewrite E, Hl. done.
Qed.

Lemma split_crlf_length buf line rest :
  split_crlf buf = Some (line, rest) →
  String.length buf = (String.length line + 2 + String.length rest)%nat.
Proof.
  intros H. destruct (split_crlf_some _ _ _ H) as [-> _].
  rewrite !string_app_length. cbn. lia.
Qed.

(** What follows the buffer does not move the first cut. *)
Lemma split_crlf_app buf more line rest :
  split_crlf buf = Some (line, rest) →
  split_crlf (buf +:+ more) = Some (line, rest +:+ more).
Proof.
  revert line rest. induction buf as [|c r IH]; intros line rest; [done|].
  rewrite split_crlf_cons. destruct r as [|c' r']; [done|].
  rewrite !append_cons, (split_crlf_cons c (String c' (r' +:+ more))).
  destruct (bool_decide (c = CR) && bool_decide (c' = LF)) eqn:E.
  - by intros [= <- <-].
  - destruct (split_crlf (String c' r')) as [[l0 r0]|] eqn:E'; [|done].
    intros [= <- <-]. rewrite append_cons in IH. by rewrite (IH _ _ eq_refl).
Qed.

(** A framed command is cut where its frame ends. *)
Lemma split_crlf_frame cmd more :
  split_crlf cmd = None →
  split_crlf (frame cmd +:+ more) = Some (cmd, more).
Proof.
  unfold frame. induction cmd as [|c r IH]; [done|].
  rewrite split_crlf_cons. intros H. destruct r as [|c' r'].
  - change (split_crlf (String c (String CR (String LF more)))
            = Some (String c "", more)).
    rewrite split_crlf_cons. by destruct (bool_decide (c = CR)).
  - rewrite !append_cons, (split_crlf_cons c).
    destruct (bool_decide (c = CR) && bool_decide (c' = LF)); [done|].
    destruct (split_crlf (String c' r')) as [[l0 r0]|] eqn:E'; [done|].
    rewrite !append_cons in IH. by rewrite (IH eq_refl).
Qed.

(** More fuel than the length of the buffer changes nothing. *)
Lemma drain_fuel fuel fuel' buf :
  (String.length buf ≤ fuel)%nat → (String.length buf ≤ fuel')%nat →
  drain fuel buf = drain fuel' buf.
Proof.
  revert fuel' buf. induction fuel as [|fuel IH]; intros fuel' buf H H'.
  - destruct buf; [|cbn in H; lia]. by destruct fuel'.
  - destruct fuel' as [|fuel'].
    { destruct buf; [|cbn in H'; lia]. done. }
    cbn [drain]. destruct (split_crlf buf) as [[l r]|] eqn:E; [|done].
    apply split_crlf_length in E. by rewrite (IH fuel' r) by lia.
Qed.

(** The loop of [data_received], without the fuel. *)
Lemma lines_eq buf :
  lines buf =
  match split_crlf buf with
  | Some (line, rest) => ((line :: (lines rest).1), (lines rest).2)
  | None => ([], buf)
  end.
Proof.
  unfold lines. destruct buf as [|c r]; [done|].
  cbn [String.length drain].
  destruct (split_crlf (String c r)) as [[l r0]|] eqn:E; [|done].
  apply split_crlf_length in E. cbn [String.length] in E.
  rewrite (drain_fuel (String.length r) (String.length r0) r0) by lia.
  by destruct (drain _ r0).
Qed.

Lemma lines_ind (P : string → Prop) :
  (∀ buf, split_crlf buf = None → P buf) →
  (∀ buf line rest, split_crlf buf = Some (line, rest) → P rest → P buf) →
  ∀ buf, P buf.
Proof.
  intros Hn Hs buf. remember (String.length buf) as n eqn:Hlen.
  revert buf Hlen. induction (lt_wf n) as [n _ IH]. intros buf ->.
  destruct (split_crlf buf) as [[l r]|] eqn:E; [|by apply Hn].
  eapply Hs; [exact E|]. eapply IH; [|reflexivity].
  apply split_crlf_length in E. lia.
Qed.

(** The lines of a buffer that grows: those of the buffer, then those of
    what was left of it with what was added. *)
Lemma lines_app buf more :
  lines (buf +:+ more) =
  (((lines buf).1 ++ (lines ((lines buf).2 +:+ more)).1)%list,
   (lines ((lines buf).2 +:+ more)).2).
Proof.
  induction buf as [buf E|buf line rest E IH] using lines_ind.
  - rewrite (lines_eq buf), E. cbn [fst snd app]. by destruct (lines _).
  - rewrite (lines_eq (buf +:+ more)), (split_crlf_app _ more _ _ E).
    rewrite (lines_eq buf), E. cbn [fst snd]. by rewrite IH.
Qed.

(** What is left of the buffer holds no CR LF. *)
Lemma lines_rest buf : split_crlf (lines buf).2 = None.
Proof.
  induction buf as [buf E|buf line rest E IH] using lines_ind.
  - by rewrite lines_eq, E.
  - by rewrite lines_eq, E.
Qed.

(** The lines hold no CR LF, and framed again, with what is left, they are
    the buffer. *)
Lemma lines_join buf :
  buf = foldr (λ line s, frame line +:+ s) (lines buf).2 (lines buf).1
  ∧ Forall (λ line, split_crlf line = None) (lines buf).1.
Proof.
  induction buf as [buf E|buf line rest E IH] using lines_ind.
  - by rewrite lines_eq, E.
  - rewrite lines_eq, E. cbn [fst snd foldr].
    destruct (split_crlf_some _ _ _ E) as [-> Hl]. destruct IH as [IH1 IH2].
    split; [|by constructor]. rewrite <- IH1. unfold frame.
    by rewrite string_app_assoc.
Qed.

Lemma data_received_eq lib chunk state :
  data_received lib chunk state =
  ((lines (state.1 +:+ chunk)).2,
   run lib state.2 (HubLine <$> (lines (state.1 +:+ chunk)).1)).
Proof. unfold data_received, lines. by destruct (drain _ _). Qed.



(** What [send_cmd] writes is read back as one line: a framed command that
    holds no CR LF, received on an empty buffer, leaves the buffer empty
    and is handled as the one line it is. *)
Theorem framed_command_is_one_line lib cmd w :
  split_crlf cmd = None →
  data_received lib (frame cmd) ("", w) = ("", (step lib (HubLine cmd) w).2).
Proof.
  intros H. rewrite data_received_eq. cbn [fst snd]. rewrite ?append_cons, ?append_nil.
  rewrite lines_eq. rewrite <- (string_app_nil_r (frame cmd)).
  rewrite (split_crlf_frame _ _ H). rewrite (lines_eq ""). done.
Qed.

Lemma framed_command_is_one_line_witness :
  data_received sample_library (frame "RESULT;OK;0") ("", sample_ready)
  = ("", (step sample_library (HubLine "RESULT;OK;0") sample_ready).2).
Proof. apply (framed_command_is_one_line sample_library "RESULT;OK;0" sample_ready). reflexivity. Defined.

End Framing.

(** ** The RSTATE line of the hub *)

Section HubState.

Variable lib : Library.

(** An idle bridge takes the RSTATE line of the hub for itself.  When the
    event carries no device id the line changes nothing; otherwise the id
    becomes the hub's code and is added to the allowed ids.  In neither
    case is the event handed to the entities. *)
Theorem rstate_line_names_the_hub w line ev :
  idle w →
  PyStr.strip line ≠ "" →
  Parser.parse_line (float_ok lib) (PyStr.strip line) = Ok ev →
  ev !! "tag" = Some (PStr "RSTATE") →
  let id := event_device_id lib ev in
  let ed := World.entry_data w in
  (step lib (HubLine line) w).2
  = if bool_decide (id = "") then w
    else World.set_entry_data
           (EntryData.set_allowed_ids ({[id]} ∪ EntryData.allowed_ids ed)
              (EntryData.set_hub_device_code (Some id) ed)) w.
Proof.
  intros Hi Hne Hp Htag id ed. subst id ed.
  rewrite (hub_line_event lib line w Hne ev Hp).
  listing_facts Hi.
  destruct (bool_decide (event_device_id lib ev = "")) eqn:Hid.
  - mrun; reflexivity.
  - mrun; reflexivity.
Qed.

End HubState.

Lemma rstate_line_names_the_hub_witness :
  let ev := <["raw" := PStr "RSTATE;0a1b2c;VER=215"]>
            (<["tag" := PStr "RSTATE"]>
             (<["VER" := PStr "215"]> {[ "device_id" := PStr "0A1B2C" ]})) in
  let id := event_device_id sample_library ev in
  let ed := World.entry_data sample_ready in
  (step sample_library (HubLine "RSTATE;0a1b2c;VER=215") sample_ready).2
  = if bool_decide (id = "") then sample_ready
    else World.set_entry_data
           (EntryData.set_allowed_ids ({[id]} ∪ EntryData.allowed_ids ed)
              (EntryData.set_hub_device_code (Some id) ed)) sample_ready.
Proof.
  apply (rstate_line_names_the_hub sample_library sample_ready
           "RSTATE;0a1b2c;VER=215").
  - repeat split; reflexivity.
  - intros E; discriminate E.
  - reflexivity.
  - reflexivity.
Defined.

(** ** The lines the parser marks with an error *)

Lemma split_pieces_contains sep s :
  PyStr.contains sep s = true ↔ (PyStr.split_pieces sep s).2 ≠ [].
Proof.
  induction s as [|c r IH]; cbn [PyStr.contains PyStr.split_pieces].
  - split; [discriminate|done].
  - destruct (PyStr.split_pieces sep r) as [h t]. cbn [snd] in IH.
    destruct (decide (c = sep)) as [->|Hne].
    + rewrite bool_decide_eq_true_2 by done. cbn. split; done.
    + rewrite bool_decide_eq_false_2 by done. cbn. exact IH.
Qed.

Lemma split_length_contains sep s :
  PyStr.contains sep s = true ↔ (1 < List.length (PyStr.split sep s))%nat.
Proof.
  rewrite split_pieces_contains. unfold PyStr.split.
  destruct (PyStr.split_pieces sep s) as [h [|x t]]; cbn; split;
    try done; lia.
Qed.

(** The loop of [parse_rstate] raises exactly when a field holds two [=]
    or more. *)
Lemma rstate_pairs_raises kvs :
  (∃ kv, kv ∈ kvs ∧ (2 < List.length (PyStr.split "="%char kv))%nat) →
  ∀ out, Parser.rstate_pairs out kvs = Raise UnpackError.
Proof.
  induction kvs as [|kv rest IH]; intros (x & Hin & Hlen) out.
  - by apply elem_of_nil in Hin.
  - cbn [Parser.rstate_pairs].
    destruct (PyStr.contains "="%char kv) eqn:Hc.
    + destruct (PyStr.split "="%char kv) as [|a [|b [|c l]]] eqn:Hs; try done.
      apply elem_of_cons in Hin as [->|Hin].
      * rewrite Hs in Hlen. cbn in Hlen. lia.
      * apply IH. eauto.
    + apply elem_of_cons in Hin as [->|Hin].
      * assert (PyStr.contains "="%char kv = true) as Ht
          by (apply split_length_contains; lia).
        congruence.
      * apply IH. eauto.
Qed.

Lemma rstate_pairs_returns kvs :
  ¬ (∃ kv, kv ∈ kvs ∧ (2 < List.length (PyStr.split "="%char kv))%nat) →
  ∀ out, ∃ d, Parser.rstate_pairs out kvs = Ok d.
Proof.
  induction kvs as [|kv rest IH]; intros Hn out; [by eexists|].
  cbn [Parser.rstate_pairs].
  assert (Hrest : ¬ (∃ x, x ∈ rest
                     ∧ (2 < List.length (PyStr.split "="%char x))%nat)).
  { intros (x & Hin & Hlen). apply Hn. exists x. split; [|done].
    by apply elem_of_cons; right. }
  destruct (PyStr.contains "="%char kv) eqn:Hc; [|by apply IH].
  apply split_length_contains in Hc.
  destruct (PyStr.split "="%char kv) as [|a [|b [|c l]]] eqn:Hs.
  - cbn in Hc. lia.
  - cbn in Hc. lia.
  - by apply IH.
  - exfalso. apply Hn. exists kv. split; [by apply elem_of_cons; left|].
    rewrite Hs. cbn. lia.
Qed.

Section ParserErrors.

Variable float_ok : string → bool.


End ParserErrors.

(** ** The state of the hub *)

Lemma upper_char_not_lower c : PyStr.is_lower (PyStr.upper_char c) = false.
Proof. by destruct c as [[] [] [] [] [] [] [] []]. Qed.

(** No key of the state is [raw]: a key is in upper case. *)
Lemma upper_not_raw k : PyStr.upper k ≠ "raw".
Proof.
  destruct k as [|c k]; [done|]. cbn [PyStr.upper]. intros [= Hc _].
  pose proof (upper_char_not_lower c) as Hl. by rewrite Hc in Hl.
Qed.

Lemma rstate_values_raw kvs : rstate_values "raw" kvs = [].
Proof.
  induction kvs as [|kv rest IH]; [done|]. unfold rstate_values in *.
  cbn [omap list_omap]. rewrite IH.
  destruct (PyStr.contains "="%char kv); [|done].
  destruct (PyStr.split_first "="%char kv) as [k v].
  rewrite decide_False; [done|apply upper_not_raw].
Qed.

(** The loop stores, under every key, the values of the fields with this
    key one after the other. *)
Lemma convert_pairs_lookup kvs : ∀ data key,
  convert_pairs data kvs !! key
  = foldl (λ acc v, Some (rstate_store acc v)) (data !! key)
      (rstate_values key kvs).
Proof.
  induction kvs as [|kv rest IH]; intros data key; [done|].
  cbn [convert_pairs]. unfold rstate_values. cbn [omap list_omap].
  fold (rstate_values key rest).
  destruct (PyStr.contains "="%char kv); cbn [negb]; [|apply IH].
  destruct (PyStr.split_first "="%char kv) as [k v].
  rewrite IH. destruct (decide (PyStr.upper k = key)) as [<-|Hne].
  - by rewrite lookup_insert_eq.
  - by rewrite lookup_insert_ne.
Qed.

Lemma store_several l vs :
  foldl (λ acc v, Some (rstate_store acc v)) (Some (Several l)) vs
  = Some (Several (l ++ vs)).
Proof.
  revert l. induction vs as [|v vs IH]; intros l; cbn.
  - by rewrite app_nil_r.
  - by rewrite IH, <- app_assoc.
Qed.

(** Every field of the hub's RSTATE line is kept.  For an event with a
    raw line the result holds the raw line, and under each other key the
    values of the fields with this key, compared in upper case: nothing
    when there is none, the value when there is one, and the list of the
    values in the order of the line when there are several. *)
Theorem convert_rstate_keeps_every_value (event : pydict) (raw : string) :
  event !! "raw" = Some (PStr raw) →
  raw ≠ "" →
  ∃ d, _convert_rstate event = Ok d
    ∧ d !! "raw" = Some (PStr raw)
    ∧ ∀ key, key ≠ "raw" →
        d !! key
        = match rstate_values key (drop 2 (PyStr.split ";"%char raw)) with
          | [] => None
          | [v] => Some (PStr v)
          | vs => Some (PList vs)
          end.
Proof.
  intros Hraw Hne. unfold _convert_rstate. rewrite Hraw.
  rewrite bool_decide_eq_false_2 by done. eexists. split; [done|].
  split.
  - rewrite lookup_fmap, convert_pairs_lookup, rstate_values_raw.
    by rewrite lookup_singleton_eq.
  - intros key Hk. rewrite lookup_fmap, convert_pairs_lookup.
    rewrite lookup_singleton_ne by done.
    destruct (rstate_values key _) as [|v [|v' vs]]; [done|done|].
    cbn [foldl rstate_store]. change [v; v'] with ([v; v'] ++ [])%list.
    by rewrite store_several.
Qed.

Lemma convert_rstate_keeps_every_value_witness :
  ∃ d, _convert_rstate
         (<["raw" := PStr "RSTATE;0a1b2c;nsl=41;VER=215;NSL=38"]>
          {[ "tag" := PStr "RSTATE" ]}) = Ok d
    ∧ d !! "raw" = Some (PStr "RSTATE;0a1b2c;nsl=41;VER=215;NSL=38")
    ∧ ∀ key, key ≠ "raw" →
        d !! key
        = match rstate_values key
                  (drop 2 (PyStr.split ";"%char
                             "RSTATE;0a1b2c;nsl=41;VER=215;NSL=38")) with
          | [] => None
          | [v] => Some (PStr v)
          | vs => Some (PList vs)
          end.
Proof.
  apply (convert_rstate_keeps_every_value
           (<["raw" := PStr "RSTATE;0a1b2c;nsl=41;VER=215;NSL=38"]>
            {[ "tag" := PStr "RSTATE" ]})
           "RSTATE;0a1b2c;nsl=41;VER=215;NSL=38").
  - reflexivity.
  - intros E; discriminate E.
Defined.

(** ** The identity of a device *)

Lemma or_else_twice a b : or_else (or_else a b) b = or_else a b.
Proof. unfold or_else. destruct (nonempty a) eqn:E; [by rewrite E|]. by destruct (nonempty b). Qed.

(** The metadata of a device is derived once and for all: deriving it a
    second time for the same id changes nothing.  What is derived leaves
    the type code, the sequence, the slot and the registry id as they
    were, keeps a name the entry has, and stores a parameter state
    exactly when the library names a parameter template for the type. *)
Theorem ensure_device_identity_settles lib (entry : Meta.t)
    (device_id : string) :
  let entry' := _ensure_device_identity lib entry device_id in
  _ensure_device_identity lib entry' device_id = entry'
  ∧ Meta.type_code entry' = Meta.type_code entry
  ∧ Meta.sequence entry' = Meta.sequence entry
  ∧ Meta.slot entry' = Meta.slot entry
  ∧ Meta.device_registry_id entry' = Meta.device_registry_id entry
  ∧ (is_Some (Meta.name entry) → Meta.name entry' = Meta.name entry)
  ∧ is_Some (Meta.name entry') ∧ is_Some (Meta.unique_name entry')
  ∧ (is_Some (Meta.params_state entry')
     ↔ nonempty (params_template_name lib (Meta.type_code entry)) = true)
  ∧ (is_Some (Meta.params_template entry')
     ↔ is_Some (Meta.params_state entry')).
Proof.
  cbv zeta. destruct entry as [tc tn sq sl pt ps un nm rid].
  unfold _ensure_device_identity.
  cbn [Meta.type_code Meta.type_name Meta.sequence Meta.slot
       Meta.params_template Meta.params_state Meta.unique_name Meta.name
       Meta.device_registry_id Meta.set_type_name Meta.set_params_state
       Meta.set_params_template Meta.set_unique_name Meta.set_name].
  destruct (nonempty (params_template_name lib tc)) eqn:Ht;
    cbn [Meta.type_code Meta.type_name Meta.sequence Meta.slot
         Meta.params_template Meta.params_state Meta.unique_name Meta.name
         Meta.device_registry_id Meta.set_type_name Meta.set_params_state
         Meta.set_params_template Meta.set_unique_name Meta.set_name];
    destruct nm as [nm|];
    cbn [Meta.type_code Meta.type_name Meta.sequence Meta.slot
         Meta.params_template Meta.params_state Meta.unique_name Meta.name
         Meta.device_registry_id Meta.set_type_name Meta.set_params_state
         Meta.set_params_template Meta.set_unique_name Meta.set_name];
    rewrite ?Ht, ?or_else_twice;
    cbn [Meta.type_code Meta.type_name Meta.sequence Meta.slot
         Meta.params_template Meta.params_state Meta.unique_name Meta.name
         Meta.device_registry_id Meta.set_type_name Meta.set_params_state
         Meta.set_params_template Meta.set_unique_name Meta.set_name default];
    split_and!; try done; try (by eexists);
    try (split; [intros _|intros _]; try done; try (by eexists));
    try (by intros [? [=]]).
  all: destruct (params_template_name lib tc); try done; by eexists.
Qed.

(** ** The end of a deletion *)

Section DeletionEnds.

Variable lib : Library.

(** A deleted device is forgotten.  When the hub accepts the [wrk] that
    ends a deletion, the future is resolved with [True]; when the caller
    then resumes, the device is taken out of the devices and of the
    allowed ids, its registry entry is removed when its metadata hold a
    registry id, the coordinator is idle with its lock free, nothing more
    is sent, and the refresh of the device list is scheduled.  A device
    whose metadata are empty stays where it is. *)
Theorem deleted_device_is_forgotten w fut h device_id meta line code :
  deleting w fut h Deletion.await_wrk device_id →
  EntryData.devices (World.entry_data w) !! device_id = Some meta →
  result_line lib line "OK" code → code ∈ ok_codes →
  let ed := World.entry_data w in
  let w1 := (step lib (HubLine line) w).2 in
  let w2 := (step lib DeleteResumes w1).2 in
  f_state <$> World.futures w1 !! fut = Some (FResult VTrue)
  ∧ EntryData.devices (World.entry_data w2)
    = (if bool_decide (meta = Meta.empty) then EntryData.devices ed
       else delete device_id (EntryData.devices ed))
  ∧ EntryData.allowed_ids (World.entry_data w2)
    = (if bool_decide (meta = Meta.empty) then EntryData.allowed_ids ed
       else EntryData.allowed_ids ed ∖ {[device_id]})
  ∧ World.registry_removed w2
    = (if negb (bool_decide (meta = Meta.empty))
          && nonempty (Meta.device_registry_id meta)
       then {[device_id]} ∪ World.registry_removed w
       else World.registry_removed w)
  ∧ Deletion.busy (World.delete_manager w2) = false
  ∧ Deletion.locked (World.delete_manager w2) = false
  ∧ World.wire w2 = World.wire w
  ∧ last (World.timers w2) = Some (mkTimer PostDeleteRefresh true).
Proof.
  intros Hd Hm Hl Hc ed w1 w2. subst ed w1 w2.
  destruct (hub_line_world lib line "OK" code w Hl) as (ev & (Ht & Hs & Hco) & ->).
  apply ok_code_is_in in Hc.
  updating_facts Hd. cbn [step].
  destruct (bool_decide (meta = Meta.empty)) eqn:Hme;
    destruct (nonempty (Meta.device_registry_id meta)) eqn:Hreg.
  all: mrun.
  all: mrun.
  all: unfold Deletion.busy, Deletion.locked; simpl_goal; split_and!.
  all: try reflexivity.
  all: try (by rewrite list_lookup_insert_eq by done).
  all: by rewrite last_snoc.
Qed.

End DeletionEnds.

Lemma sample_delete_accepted_is_deleting :
  deleting sample_delete_accepted 0 0 Deletion.await_wrk "AB12CD".
Proof. repeat split; reflexivity. Qed.

Lemma deleted_device_is_forgotten_witness :
  let meta := Meta.set_device_registry_id (Some "entry-1")
                (Meta.set_type_code (Some "FE") Meta.empty) in
  let w := sample_delete_accepted in
  let ed := World.entry_data w in
  let w1 := (step sample_library (HubLine "RESULT;OK;0") w).2 in
  let w2 := (step sample_library DeleteResumes w1).2 in
  f_state <$> World.futures w1 !! 0 = Some (FResult VTrue)
  ∧ EntryData.devices (World.entry_data w2)
    = (if bool_decide (meta = Meta.empty) then EntryData.devices ed
       else delete "AB12CD" (EntryData.devices ed))
  ∧ EntryData.allowed_ids (World.entry_data w2)
    = (if bool_decide (meta = Meta.empty) then EntryData.allowed_ids ed
       else EntryData.allowed_ids ed ∖ {["AB12CD"]})
  ∧ World.registry_removed w2
    = (if negb (bool_decide (meta = Meta.empty))
          && nonempty (Meta.device_registry_id meta)
       then {["AB12CD"]} ∪ World.registry_removed w
       else World.registry_removed w)
  ∧ Deletion.busy (World.delete_manager w2) = false
  ∧ Deletion.locked (World.delete_manager w2) = false
  ∧ World.wire w2 = World.wire w
  ∧ last (World.timers w2) = Some (mkTimer PostDeleteRefresh true).
Proof.
  apply (deleted_device_is_forgotten sample_library sample_delete_accepted
           0 0 "AB12CD" _ "RESULT;OK;0" "0").
  - apply sample_delete_accepted_is_deleting.
  - vm_compute; reflexivity.
  - apply (sample_result_line "OK" "0"). set_solver.
  - apply sample_ok_code.
Defined.

(** ** The futures of pairing belong to the running session *)

Lemma done_settled o st : st ≠ FPending → done (mkFuture o st) = true.
Proof. by destruct st. Qed.

(** What keeps the property: the four attributes it reads are the same,
    no future of pairing becomes pending, a future that is done stays as
    it is, and the table does not shrink. *)
Lemma owned_advance w w' :
  Pairing._active (World.pairing_manager w')
  = Pairing._active (World.pairing_manager w) →
  Pairing._stage (World.pairing_manager w')
  = Pairing._stage (World.pairing_manager w) →
  Pairing._search_future (World.pairing_manager w')
  = Pairing._search_future (World.pairing_manager w) →
  Pairing._finalize_future (World.pairing_manager w')
  = Pairing._finalize_future (World.pairing_manager w) →
  (∀ k, pairing_pending w' k → pairing_pending w k) →
  (∀ k f, World.futures w !! k = Some f → done f = true →
          World.futures w' !! k = Some f) →
  (length (World.futures w) ≤ length (World.futures w'))%nat →
  futures_owned w → futures_owned w'.
Proof.
  intros Ha Hst Hs Hf Hp Hd Hl (I1 & I2 & I3 & I4).
  unfold futures_owned. cbv zeta. rewrite Ha, Hst, Hs, Hf.
  split_and!.
  - intros i Hi. apply I1. by apply Hp.
  - done.
  - intros Hstage i Hi. destruct (I3 Hstage i Hi) as (f & Hlk & Hdone).
    exists f. split; [by apply Hd|done].
  - intros i Hi. specialize (I4 i Hi). lia.
Qed.

Lemma owned_settle fut st w :
  st ≠ FPending →
  futures_owned w →
  futures_owned
    (World.set_futures (settle_at fut st (World.futures w)) w).
Proof.
  intros Hst. apply owned_advance; try reflexivity.
  - intros k (f' & Hlk & Ho & Hp). cbn [World.futures World.set_futures] in Hlk.
    destruct fut as [i|]; cbn [settle_at] in Hlk; [|by exists f'].
    destruct (decide (k = i)) as [->|Hne].
    + rewrite list_lookup_alter_eq in Hlk.
      destruct (World.futures w !! i) as [f|] eqn:Hf; [|done].
      cbn in Hlk. injection Hlk as <-.
      destruct (done f) eqn:Hd; [congruence|].
      by rewrite done_settled in Hp.
    + rewrite list_lookup_alter_ne in Hlk by done. by exists f'.
  - intros k f Hlk Hd. cbn [World.futures World.set_futures].
    destruct fut as [i|]; cbn [settle_at]; [|done].
    destruct (decide (k = i)) as [->|Hne].
    + by rewrite list_lookup_alter_eq, Hlk; cbn; rewrite Hd.
    + by rewrite list_lookup_alter_ne.
  - cbn [World.futures World.set_futures].
    destruct fut as [i|]; cbn [settle_at]; [|done]. by rewrite length_alter.
Qed.

Lemma settle_at_insert i st l f :
  l !! i = Some f → done f = false →
  <[i := mkFuture (f_owner f) st]> l = settle_at (Some i) st l.
Proof.
  intros Hf Hd. cbn [settle_at]. apply list_eq. intros k.
  destruct (decide (k = i)) as [->|Hne].
  - rewrite list_lookup_insert_eq by by eapply lookup_lt_Some.
    by rewrite list_lookup_alter_eq, Hf; cbn; rewrite Hd.
  - by rewrite list_lookup_insert_ne, list_lookup_alter_ne.
Qed.

Lemma owned_resolve i st f w :
  st ≠ FPending →
  futures_owned w →
  World.futures w !! i = Some f → done f = false →
  futures_owned
    (World.set_futures
       (<[i := mkFuture (f_owner f) st]> (World.futures w)) w).
Proof.
  intros Hst Hw Hf Hd. rewrite (settle_at_insert _ _ _ _ Hf Hd).
  by apply owned_settle.
Qed.

Lemma owned_create o w :
  o ≠ OwnPairing →
  futures_owned w →
  futures_owned
    (World.set_futures (World.futures w ++ [mkFuture o FPending]) w).
Proof.
  intros Ho. apply owned_advance; try reflexivity.
  - intros k (f' & Hlk & Hown & Hp). cbn [World.futures World.set_futures] in Hlk.
    apply lookup_app_Some in Hlk as [Hlk|[_ Hlk]]; [by exists f'|].
    apply list_lookup_singleton_Some in Hlk as [_ <-]. done.
  - intros k f Hlk Hd. cbn [World.futures World.set_futures].
    rewrite lookup_app_l; [done|by eapply lookup_lt_Some].
  - cbn [World.futures World.set_futures]. rewrite length_app. lia.
Qed.

(** The bridge is left without a session: nothing of pairing is pending
    and the two attributes are empty. *)
Lemma owned_idle w :
  Pairing._search_future (World.pairing_manager w) = None →
  Pairing._finalize_future (World.pairing_manager w) = None →
  (∀ k, ¬ pairing_pending w k) →
  futures_owned w.
Proof.
  intros Hs Hf Hn. unfold futures_owned. cbv zeta. rewrite Hs, Hf.
  split_and!.
  - intros i Hi. by destruct (Hn i).
  - done.
  - intros _ i [=].
  - intros i [[=]|[=]].
Qed.

(** *** The reads and the writes of a future, as equations *)

Lemma is_pending_eq fut w : is_pending fut w = (Ok (pending_at fut w), w).
Proof. by destruct fut. Qed.

Lemma set_futures_same w : World.set_futures (World.futures w) w = w.
Proof. by destruct w. Qed.

Lemma settle_at_idle fut st w :
  pending_at fut w = false →
  settle_at fut st (World.futures w) = World.futures w.
Proof.
  destruct fut as [i|]; [|done]. cbn [pending_at settle_at]. intros Hp.
  apply list_eq. intros k. destruct (decide (k = i)) as [->|Hne].
  - rewrite list_lookup_alter_eq.
    destruct (World.futures w !! i) as [f|]; [|done]. cbn in *.
    by destruct (done f).
  - by rewrite list_lookup_alter_ne.
Qed.

Lemma resolve_pending fut st w i :
  fut = Some i → pending_at fut w = true →
  resolve i st w
  = (Ok tt, World.set_futures (settle_at fut st (World.futures w)) w).
Proof.
  intros -> Hp. cbn [pending_at] in Hp. unfold resolve.
  destruct (World.futures w !! i) as [f|] eqn:Hf; [|done]. cbn in Hp.
  destruct (done f) eqn:Hd; [done|].
  by rewrite (settle_at_insert _ _ _ _ Hf Hd).
Qed.

Lemma set_exception_on_pending fut e w :
  pending_at fut w = true →
  set_exception_on fut e w
  = (Ok tt,
     World.set_futures (settle_at fut (FException e) (World.futures w)) w).
Proof.
  intros Hp. destruct fut as [i|]; [|done].
  by apply resolve_pending.
Qed.

Lemma set_result_on_pending fut v w :
  pending_at fut w = true →
  set_result_on fut v w
  = (Ok tt,
     World.set_futures (settle_at fut (FResult v) (World.futures w)) w).
Proof.
  intros Hp. destruct fut as [i|]; [|done].
  by apply resolve_pending.
Qed.

Lemma when_set_exception fut e w :
  when (pending_at fut w) (set_exception_on fut e) w
  = (Ok tt,
     World.set_futures (settle_at fut (FException e) (World.futures w)) w).
Proof.
  destruct (pending_at fut w) eqn:Hp; cbn [when].
  - by apply set_exception_on_pending.
  - by rewrite settle_at_idle, set_futures_same.
Qed.

Lemma when_set_result fut v w :
  when (pending_at fut w) (set_result_on fut v) w
  = (Ok tt,
     World.set_futures (settle_at fut (FResult v) (World.futures w)) w).
Proof.
  destruct (pending_at fut w) eqn:Hp; cbn [when].
  - by apply set_result_on_pending.
  - by rewrite settle_at_idle, set_futures_same.
Qed.

(** A future that was settled is not pending. *)
Lemma pending_settled fut st l k :
  st ≠ FPending →
  (∃ f, settle_at fut st l !! k = Some f
        ∧ f_owner f = OwnPairing ∧ done f = false) →
  fut ≠ Some k
  ∧ ∃ f, l !! k = Some f ∧ f_owner f = OwnPairing ∧ done f = false.
Proof.
  intros Hst (f' & Hlk & Ho & Hp).
  destruct fut as [i|]; cbn [settle_at] in Hlk.
  - destruct (decide (k = i)) as [->|Hne].
    + rewrite list_lookup_alter_eq in Hlk.
      destruct (l !! i) as [f|] eqn:Hf; [|done].
      cbn in Hlk. injection Hlk as <-.
      destruct (done f) eqn:Hd; [congruence|].
      by rewrite done_settled in Hp.
    + rewrite list_lookup_alter_ne in Hlk by done.
      split; [congruence|]. by exists f'.
  - split; [done|]. by exists f'.
Qed.

Lemma pending_same w w' k :
  World.futures w' = World.futures w →
  pairing_pending w' k → pairing_pending w k.
Proof. intros H. unfold pairing_pending. by rewrite H. Qed.

(** What is not pending as an attribute is not pending as a future. *)
Lemma pending_at_false fut w k :
  pending_at fut w = false → fut = Some k → ¬ pairing_pending w k.
Proof.
  intros Hp -> (f & Hlk & _ & Hd). cbn [pending_at] in Hp.
  rewrite Hlk in Hp. cbn in Hp. by rewrite Hd in Hp.
Qed.

Lemma settled_not_pending w fut k :
  future_settled w fut → fut = Some k → ¬ pairing_pending w k.
Proof.
  intros Hs Hk (f & Hlk & _ & Hd). destruct (Hs k Hk) as (f' & Hlk' & Hd').
  congruence.
Qed.

Lemma pending_at_some fut w : pending_at fut w = true → fut ≠ None.
Proof. by destruct fut. Qed.

(** A search starts on a bridge without a session. *)
Lemma owned_new_search w w' :
  World.futures w' = (World.futures w ++ [mkFuture OwnPairing FPending])%list →
  Pairing._active (World.pairing_manager w') = true →
  Pairing._search_future (World.pairing_manager w')
  = Some (length (World.futures w)) →
  Pairing._finalize_future (World.pairing_manager w') = None →
  Pairing._stage (World.pairing_manager w') = Some Pairing.await_stop_result →
  Pairing._active (World.pairing_manager w) = false →
  futures_owned w → futures_owned w'.
Proof.
  intros Hf Ha Hs Hfi Hst Hidle (I1 & I2 & I3 & I4).
  unfold futures_owned, pairing_pending, future_settled. cbv zeta.
  rewrite Hf, Ha, Hs, Hfi, Hst. split_and!.
  - intros k (f & Hlk & Ho & Hp).
    apply lookup_app_Some in Hlk as [Hlk|[Hge Hlk]].
    + destruct (I1 k) as [Hact _]; [by exists f|congruence].
    + apply list_lookup_singleton_Some in Hlk as [Hk _].
      split; [done|]. left. f_equal. lia.
  - done.
  - intros [[=]|[=]].
  - intros i [[= <-]|[=]]. rewrite length_app. cbn. lia.
Qed.

(** The candidate of a session is confirmed. *)
Lemma owned_new_finalize w w' :
  World.futures w' = (World.futures w ++ [mkFuture OwnPairing FPending])%list →
  Pairing._active (World.pairing_manager w') = true →
  Pairing._search_future (World.pairing_manager w')
  = Pairing._search_future (World.pairing_manager w) →
  Pairing._finalize_future (World.pairing_manager w')
  = Some (length (World.futures w)) →
  Pairing._stage (World.pairing_manager w') = Some Pairing.waiting_finalize →
  Pairing._stage (World.pairing_manager w) = Some Pairing.await_confirmation →
  futures_owned w → futures_owned w'.
Proof.
  intros Hf Ha Hs Hfi Hst Hconf (I1 & I2 & I3 & I4).
  unfold futures_owned, pairing_pending, future_settled. cbv zeta.
  rewrite Hf, Ha, Hs, Hfi, Hst. split_and!.
  - intros k (f & Hlk & Ho & Hp). split; [done|].
    apply lookup_app_Some in Hlk as [Hlk|[Hge Hlk]].
    + destruct (I1 k) as [_ [Hk|Hk]]; [by exists f|by left|].
      assert (Pairing._stage (World.pairing_manager w)
              = Some Pairing.waiting_finalize) by (apply I2; congruence).
      congruence.
    + apply list_lookup_singleton_Some in Hlk as [Hk _].
      right. f_equal. lia.
  - done.
  - intros _ i Hi. destruct (I3 (or_introl Hconf) i Hi) as (f & Hlk & Hd).
    exists f. split; [|done]. rewrite lookup_app_l; [done|].
    by eapply lookup_lt_Some.
  - intros i [Hi|[= <-]]; rewrite length_app; cbn; [|lia].
    specialize (I4 i (or_introl Hi)). lia.
Qed.

(** The session moves on to a stage in which there is no finalize future
    yet. *)
Lemma owned_early_stage w w' stage :
  World.futures w' = World.futures w →
  Pairing._active (World.pairing_manager w')
  = Pairing._active (World.pairing_manager w) →
  Pairing._search_future (World.pairing_manager w')
  = Pairing._search_future (World.pairing_manager w) →
  Pairing._finalize_future (World.pairing_manager w')
  = Pairing._finalize_future (World.pairing_manager w) →
  Pairing._stage (World.pairing_manager w') = Some stage →
  stage ≠ Pairing.await_confirmation → stage ≠ Pairing.waiting_finalize →
  Pairing._stage (World.pairing_manager w) ≠ Some Pairing.waiting_finalize →
  futures_owned w → futures_owned w'.
Proof.
  intros Hf Ha Hs Hfi Hst Hn1 Hn2 Hold (I1 & I2 & I3 & I4).
  unfold futures_owned, pairing_pending, future_settled. cbv zeta.
  rewrite Hf, Ha, Hs, Hfi, Hst. split_and!.
  - done.
  - intros Hsome. by destruct Hold; apply I2.
  - intros [[=]|[=]]; congruence.
  - done.
Qed.

(** Nothing the property reads has changed. *)
Lemma owned_same w w' :
  World.futures w' = World.futures w →
  Pairing._active (World.pairing_manager w')
  = Pairing._active (World.pairing_manager w) →
  Pairing._stage (World.pairing_manager w')
  = Pairing._stage (World.pairing_manager w) →
  Pairing._search_future (World.pairing_manager w')
  = Pairing._search_future (World.pairing_manager w) →
  Pairing._finalize_future (World.pairing_manager w')
  = Pairing._finalize_future (World.pairing_manager w) →
  futures_owned w → futures_owned w'.
Proof.
  intros Hf Ha Hst Hs Hfi. apply owned_advance; try done.
  - intros k. unfold pairing_pending. by rewrite Hf.
  - intros k f. by rewrite Hf.
  - by rewrite Hf.
Qed.

(** The search future is settled as the candidate is found. *)
Lemma owned_candidate w w' st :
  World.futures w'
  = settle_at (Pairing._search_future (World.pairing_manager w)) st
      (World.futures w) →
  st ≠ FPending →
  Pairing._active (World.pairing_manager w')
  = Pairing._active (World.pairing_manager w) →
  Pairing._search_future (World.pairing_manager w')
  = Pairing._search_future (World.pairing_manager w) →
  Pairing._finalize_future (World.pairing_manager w')
  = Pairing._finalize_future (World.pairing_manager w) →
  Pairing._stage (World.pairing_manager w')
  = Some Pairing.await_confirmation →
  Pairing._stage (World.pairing_manager w) = Some Pairing.await_device →
  futures_owned w → futures_owned w'.
Proof.
  intros Hf Hst Ha Hs Hfi Hstage Hold HI.
  pose proof (owned_settle (Pairing._search_future (World.pairing_manager w))
                st w Hst HI) as (J1 & J2 & J3 & J4).
  destruct HI as (I1 & I2 & I3 & I4).
  unfold futures_owned, pairing_pending, future_settled in *.
  cbv zeta in *. cbn [World.futures World.set_futures World.pairing_manager
                      World.set_pairing_manager] in J1, J4.
  rewrite Hf, Ha, Hs, Hfi, Hstage. split_and!.
  - exact J1.
  - intros Hsome. specialize (I2 Hsome). congruence.
  - intros _ i Hi. rewrite Hi. cbn [settle_at].
    rewrite list_lookup_alter_eq.
    destruct (World.futures w !! i) as [f|] eqn:Hlk.
    + cbn. destruct (done f) eqn:Hd; eexists; (split; [done|]);
        [done|by apply done_settled].
    + specialize (I4 i (or_introl Hi)). apply lookup_ge_None in Hlk. lia.
  - exact J4.
Qed.

(** *** What [_cleanup] leaves *)

Lemma cleanup_run a b w :
  AjaxPairingCoordinator._cleanup a b w = (Ok tt, cleaned a b w).
Proof.
  unfold cleaned.
  destruct (AjaxPairingCoordinator._cleanup a b w) as [r w'] eqn:E.
  cbn [snd]. f_equal.
  change r with (r, w').1. rewrite <- E. clear E.
  mrun_call; reflexivity.
Qed.

Lemma cleaned_view a b w :
  World.futures (cleaned a b w) = World.futures w
  ∧ Pairing._active (World.pairing_manager (cleaned a b w)) = false
  ∧ Pairing._stage (World.pairing_manager (cleaned a b w)) = None
  ∧ Pairing._search_future (World.pairing_manager (cleaned a b w)) = None
  ∧ Pairing._finalize_future (World.pairing_manager (cleaned a b w)) = None.
Proof.
  unfold cleaned. mrun; repeat split; reflexivity.
Qed.

Lemma owned_cleaned a b w :
  (∀ k, ¬ pairing_pending w k) → futures_owned (cleaned a b w).
Proof.
  intros Hn. destruct (cleaned_view a b w) as (Hf & Ha & Hst & Hs & Hfi).
  apply owned_idle; [done|done|].
  intros k Hk. apply (Hn k). by eapply pending_same.
Qed.

(** Running an operation on a bridge of which the property is known: the
    reads and writes of futures and [_cleanup] are taken as the equations
    above. *)
Ltac split_other :=
  match goal with
  | |- context [match ?r with Ok _ => _ | Raise _ => _ end] =>
      lazymatch type of r with
      | result _ => destruct r eqn:?
      end
  | |- context [match ?x with _ => _ end] => is_var x; destruct x
  | |- context [match ?x with pair _ _ => _ end] =>
      lazymatch type of x with
      | (result _ * World.t)%type => fail
      | _ => destruct x eqn:?
      end
  end.

Ltac irun_step :=
  first
    [ progress simpl_goal
    | rewrite is_pending_eq
    | rewrite when_set_exception
    | rewrite when_set_result
    | rewrite set_exception_on_pending by assumption
    | rewrite set_result_on_pending by assumption
    | rewrite cleanup_run
    | stuck_fact
    | table_lookup
    | closed_tests
    | unfold_head
    | settled_test
    | true_test
    | split_field
    | split_other ].

Ltac irun :=
  let Q := fresh "Q" in
  set_aside Q; repeat irun_step; subst Q; cbv beta; simpl_goal.

(** A future that is pending in the table written was pending before, and
    is none of those settled on the way. *)
Ltac was_pending Hk :=
  unfold pairing_pending in Hk; revert Hk; simpl_goal; intros Hk;
  repeat
    (let Hne := fresh "Hne" in
     apply pending_settled in Hk as [Hne Hk]; [|discriminate]).

(** No future of pairing is pending: one that were is the search future
    or the finalize future, and these are settled. *)
Ltac none_pending HI Hk :=
  let I1 := fresh "I1" in
  let I2 := fresh "I2" in
  let I3 := fresh "I3" in
  let I4 := fresh "I4" in
  let Hs := fresh "Hs" in
  destruct HI as (I1 & I2 & I3 & I4);
  destruct (I1 _ Hk) as [_ [Hs|Hs]];
  first
    [ congruence
    | by eapply pending_at_false; eauto
    | match goal with
      | H : pending_at (Pairing._finalize_future _) _ = true |- _ =>
          exact (settled_not_pending _ _ _
                   (I3 (or_intror (I2 (pending_at_some _ _ H)))) Hs Hk)
      end
    | match goal with
      | H : Pairing._stage _ = Some Pairing.waiting_finalize |- _ =>
          exact (settled_not_pending _ _ _ (I3 (or_intror H)) Hs Hk)
      | H : Pairing._stage _ = Some Pairing.await_confirmation |- _ =>
          exact (settled_not_pending _ _ _ (I3 (or_introl H)) Hs Hk)
      end ].

(** What the tests taken on the way say. *)
Ltac bool_facts :=
  repeat match goal with
  | H : _ || _ = false |- _ => apply orb_false_iff in H as [? ?]
  | H : _ && _ = true |- _ => apply andb_true_iff in H as [? ?]
  | H : negb _ = false |- _ => apply negb_false_iff in H
  | H : negb _ = true |- _ => apply negb_true_iff in H
  | H : bool_decide _ = true |- _ => apply bool_decide_eq_true in H
  | H : bool_decide _ = false |- _ => apply bool_decide_eq_false in H
  end.

(** The property of a bridge that was left without a session. *)
Ltac owned_end HI :=
  first
    [ apply owned_cleaned
    | apply owned_idle; simpl_goal; [reflexivity|reflexivity|] ];
  let k := fresh "k" in
  let Hk := fresh "Hk" in
  intros k Hk; was_pending Hk; none_pending HI Hk.

(** The property after an operation that has run. *)
Ltac owned_leaf HI :=
  first
    [ assumption
    | eapply owned_same; [..|exact HI]; simpl_goal; reflexivity
    | eapply owned_early_stage; [..|exact HI]; simpl_goal;
      first [reflexivity | discriminate | congruence]
    | eapply owned_candidate; [..|exact HI]; simpl_goal;
      first [reflexivity | discriminate | assumption]
    | owned_end HI ].


(** What a primitive write must keep. *)
Ltac owned_frame :=
  let w := fresh "w" in
  let Hw := fresh "Hw" in
  intros w Hw; exact Hw.

Ltac owned_side :=
  first
    [ owned_frame
    | let w := fresh "w" in
      let Hw := fresh "Hw" in
      intros w Hw; apply (owned_settle (Some _) FCancelled);
      [discriminate|exact Hw]
    | intros; apply owned_create; [discriminate|assumption]
    | intros; eapply owned_resolve; [discriminate|eassumption..] ].

Create HintDb owned.

Section Owned.

Variable lib : Library.

Lemma owned_cancel_exit_command :
  preserves futures_owned (AjaxPairingCoordinator._cancel_exit_command).
Proof.
  unfold AjaxPairingCoordinator._cancel_exit_command.
  repeat preserves_step ltac:(owned_side) ltac:(auto with owned nocore).
Qed.

#[local] Hint Resolve owned_cancel_exit_command : owned.

Lemma owned_reset_timeout :
  preserves futures_owned (AjaxPairingCoordinator._reset_timeout).
Proof.
  unfold AjaxPairingCoordinator._reset_timeout.
  repeat preserves_step ltac:(owned_side) ltac:(auto with owned nocore).
Qed.

#[local] Hint Resolve owned_reset_timeout : owned.

Lemma owned_send_exit_command command stage :
  preserves futures_owned (AjaxPairingCoordinator._send_exit_command command stage).
Proof.
  unfold AjaxPairingCoordinator._send_exit_command.
  repeat preserves_step ltac:(owned_side) ltac:(auto with owned nocore).
Qed.

#[local] Hint Resolve owned_send_exit_command : owned.

Lemma owned_restart_wrk_fallback_timer :
  preserves futures_owned (AjaxPairingCoordinator._restart_wrk_fallback_timer).
Proof.
  unfold AjaxPairingCoordinator._restart_wrk_fallback_timer.
  repeat preserves_step ltac:(owned_side) ltac:(auto with owned nocore).
Qed.

#[local] Hint Resolve owned_restart_wrk_fallback_timer : owned.

Lemma owned_complete_exit_success :
  preserves futures_owned (AjaxPairingCoordinator._complete_exit_success).
Proof.
  unfold AjaxPairingCoordinator._complete_exit_success.
  repeat preserves_step ltac:(owned_side) ltac:(auto with owned nocore).
Qed.

#[local] Hint Resolve owned_complete_exit_success : owned.

Lemma owned_start_search flow_id :
  preserves futures_owned (AjaxPairingCoordinator.start_search flow_id).
Proof.
  intros w HI. irun.
  all: try assumption.
  all: eapply owned_new_search; [..|exact HI]; simpl_goal;
    first [reflexivity | assumption].
Qed.

#[local] Hint Resolve owned_start_search : owned.

Lemma owned_pairing_cancel reason immediate :
  preserves futures_owned (AjaxPairingCoordinator.cancel reason immediate).
Proof.
  intros w HI. irun.
  all: try assumption.
  all: apply owned_cleaned; intros k Hk; was_pending Hk.
  all: none_pending HI Hk.
Qed.

#[local] Hint Resolve owned_pairing_cancel : owned.

Lemma owned_confirm_candidate flow_id :
  preserves futures_owned (AjaxPairingCoordinator.confirm_candidate flow_id).
Proof.
  intros w HI. irun.
  all: try assumption.
  all: bool_facts.
  all: eapply owned_new_finalize; [..|exact HI]; simpl_goal;
    first [reflexivity | assumption].
Qed.

#[local] Hint Resolve owned_confirm_candidate : owned.

Lemma owned_force_cleanup :
  preserves futures_owned AjaxPairingCoordinator.force_cleanup.
Proof.
  intros w HI. irun.
  all: apply owned_idle; simpl_goal; try reflexivity.
  all: intros k Hk; was_pending Hk.
  all: none_pending HI Hk.
Qed.

#[local] Hint Resolve owned_force_cleanup : owned.

Lemma owned_pairing_fail reason :
  preserves futures_owned (AjaxPairingCoordinator._fail reason).
Proof.
  intros w HI. irun. apply owned_cleaned. intros k Hk. was_pending Hk.
  destruct HI as (I1 & _). destruct (I1 k Hk) as [_ [?|?]]; congruence.
Qed.

#[local] Hint Resolve owned_pairing_fail : owned.

Lemma owned_on_timeout :
  preserves futures_owned AjaxPairingCoordinator._on_timeout.
Proof.
  intros w HI. irun.
  all: try assumption.
  all: apply owned_cleaned; intros k Hk; was_pending Hk.
  all: none_pending HI Hk.
Qed.

#[local] Hint Resolve owned_on_timeout : owned.

Lemma owned_finalize_success refresh :
  preserves futures_owned (AjaxPairingCoordinator._finalize_success refresh).
Proof.
  intros w HI. irun.
  all: owned_end HI.
Qed.

#[local] Hint Resolve owned_finalize_success : owned.

Lemma owned_finalize_success_without_refresh :
  preserves futures_owned (AjaxPairingCoordinator._finalize_success_without_refresh).
Proof.
  unfold AjaxPairingCoordinator._finalize_success_without_refresh.
  repeat preserves_step ltac:(owned_side) ltac:(auto with owned nocore).
Qed.

#[local] Hint Resolve owned_finalize_success_without_refresh : owned.

Lemma owned_handle_exit_result status code :
  preserves futures_owned (AjaxPairingCoordinator._handle_exit_result status code).
Proof.
  unfold AjaxPairingCoordinator._handle_exit_result.
  repeat preserves_step ltac:(owned_side) ltac:(auto with owned nocore).
Qed.

#[local] Hint Resolve owned_handle_exit_result : owned.

Lemma owned_send_wrk_fallback :
  preserves futures_owned (AjaxPairingCoordinator._send_wrk_fallback).
Proof.
  unfold AjaxPairingCoordinator._send_wrk_fallback.
  repeat preserves_step ltac:(owned_side) ltac:(auto with owned nocore).
Qed.

#[local] Hint Resolve owned_send_wrk_fallback : owned.

Lemma owned_exit_send command :
  preserves futures_owned (AjaxPairingCoordinator.exit_send command).
Proof.
  unfold AjaxPairingCoordinator.exit_send.
  repeat preserves_step ltac:(owned_side) ltac:(auto with owned nocore).
Qed.

#[local] Hint Resolve owned_exit_send : owned.

Lemma owned_handle_exit_event event :
  preserves futures_owned (AjaxPairingCoordinator._handle_exit_event event).
Proof.
  unfold AjaxPairingCoordinator._handle_exit_event.
  repeat preserves_step ltac:(owned_side) ltac:(auto with owned nocore).
Qed.

#[local] Hint Resolve owned_handle_exit_event : owned.

Lemma owned_handle_result event :
  preserves futures_owned (AjaxPairingCoordinator._handle_result event).
Proof.
  intros w HI. irun.
  all: owned_leaf HI.
Qed.

#[local] Hint Resolve owned_handle_result : owned.

Lemma owned_handle_event_line event :
  preserves futures_owned
    (AjaxPairingCoordinator._handle_event_line lib event).
Proof.
  intros w HI. irun.
  all: bool_facts.
  all: owned_leaf HI.
Qed.

#[local] Hint Resolve owned_handle_event_line : owned.

Lemma owned_dispatch_tokens event tokens current consumed :
  preserves futures_owned
    (AjaxPairingCoordinator.dispatch_tokens lib event tokens current consumed).
Proof.
  revert current consumed.
  induction tokens as [|token rest IH]; intros current consumed; cbn.
  - repeat preserves_step ltac:(owned_side) ltac:(auto with owned nocore).
  - repeat preserves_step ltac:(owned_side) ltac:(auto with owned nocore || apply IH).
Qed.

#[local] Hint Resolve owned_dispatch_tokens : owned.

Lemma owned_handle_event_dispatch event :
  preserves futures_owned (AjaxPairingCoordinator._handle_event_dispatch lib event).
Proof.
  unfold AjaxPairingCoordinator._handle_event_dispatch.
  repeat preserves_step ltac:(owned_side) ltac:(auto with owned nocore).
Qed.

#[local] Hint Resolve owned_handle_event_dispatch : owned.

Lemma owned_pairing_handle_event event :
  preserves futures_owned (AjaxPairingCoordinator.handle_event lib event).
Proof.
  unfold AjaxPairingCoordinator.handle_event.
  repeat preserves_step ltac:(owned_side) ltac:(auto with owned nocore).
Qed.

#[local] Hint Resolve owned_pairing_handle_event : owned.

Lemma owned_schedule_wrk_cancel :
  preserves futures_owned (_schedule_wrk_cancel).
Proof.
  unfold _schedule_wrk_cancel.
  repeat preserves_step ltac:(owned_side) ltac:(auto with owned nocore).
Qed.

#[local] Hint Resolve owned_schedule_wrk_cancel : owned.

Lemma owned_schedule_wrk_send : preserves futures_owned (_schedule_wrk_send).
Proof.
  unfold _schedule_wrk_send.
  repeat preserves_step ltac:(owned_side) ltac:(auto with owned nocore).
Qed.

#[local] Hint Resolve owned_schedule_wrk_send : owned.

Lemma owned_send_wrk : preserves futures_owned (_send_wrk).
Proof.
  unfold _send_wrk.
  repeat preserves_step ltac:(owned_side) ltac:(auto with owned nocore).
Qed.

#[local] Hint Resolve owned_send_wrk : owned.

Lemma owned_async_refresh_device_list :
  preserves futures_owned (_async_refresh_device_list).
Proof.
  unfold _async_refresh_device_list.
  repeat preserves_step ltac:(owned_side) ltac:(auto with owned nocore).
Qed.

#[local] Hint Resolve owned_async_refresh_device_list : owned.

Lemma owned_delayed_stop : preserves futures_owned (_delayed_stop).
Proof.
  unfold _delayed_stop.
  repeat preserves_step ltac:(owned_side) ltac:(auto with owned nocore).
Qed.

#[local] Hint Resolve owned_delayed_stop : owned.

Lemma owned_handle_list_entry event :
  preserves futures_owned (_handle_list_entry lib event).
Proof.
  unfold _handle_list_entry.
  repeat preserves_step ltac:(owned_side) ltac:(auto with owned nocore).
Qed.

#[local] Hint Resolve owned_handle_list_entry : owned.

Lemma owned_finalize_device_list success :
  preserves futures_owned (_finalize_device_list lib success).
Proof.
  unfold _finalize_device_list.
  repeat preserves_step ltac:(owned_side) ltac:(auto with owned nocore).
Qed.

#[local] Hint Resolve owned_finalize_device_list : owned.

Lemma owned_process_list_result event :
  preserves futures_owned (_process_list_result lib event).
Proof.
  unfold _process_list_result.
  repeat preserves_step ltac:(owned_side) ltac:(auto with owned nocore).
Qed.

#[local] Hint Resolve owned_process_list_result : owned.

Lemma owned_async_device_list_timeout :
  preserves futures_owned (_async_device_list_timeout lib).
Proof.
  unfold _async_device_list_timeout.
  repeat preserves_step ltac:(owned_side) ltac:(auto with owned nocore).
Qed.

#[local] Hint Resolve owned_async_device_list_timeout : owned.

Lemma owned_handle_hub_rstate event :
  preserves futures_owned (_handle_hub_rstate lib event).
Proof.
  unfold _handle_hub_rstate.
  repeat preserves_step ltac:(owned_side) ltac:(auto with owned nocore).
Qed.

#[local] Hint Resolve owned_handle_hub_rstate : owned.

Lemma owned_deletion_cancel :
  preserves futures_owned (AjaxDeletionCoordinator.cancel).
Proof.
  unfold AjaxDeletionCoordinator.cancel.
  repeat preserves_step ltac:(owned_side) ltac:(auto with owned nocore).
Qed.

#[local] Hint Resolve owned_deletion_cancel : owned.

Lemma owned_deletion_fail reason :
  preserves futures_owned (AjaxDeletionCoordinator._fail reason).
Proof.
  unfold AjaxDeletionCoordinator._fail.
  repeat preserves_step ltac:(owned_side) ltac:(auto with owned nocore).
Qed.

#[local] Hint Resolve owned_deletion_fail : owned.

Lemma owned_async_delete device_id :
  preserves futures_owned (AjaxDeletionCoordinator.async_delete device_id).
Proof.
  unfold AjaxDeletionCoordinator.async_delete.
  repeat preserves_step ltac:(owned_side) ltac:(auto with owned nocore).
Qed.

#[local] Hint Resolve owned_async_delete : owned.

Lemma owned_deletion_leave :
  preserves futures_owned (AjaxDeletionCoordinator.leave).
Proof.
  unfold AjaxDeletionCoordinator.leave.
  repeat preserves_step ltac:(owned_side) ltac:(auto with owned nocore).
Qed.

#[local] Hint Resolve owned_deletion_leave : owned.

Lemma owned_after_delete device_id :
  preserves futures_owned (AjaxDeletionCoordinator.after_delete device_id).
Proof.
  unfold AjaxDeletionCoordinator.after_delete.
  repeat preserves_step ltac:(owned_side) ltac:(auto with owned nocore).
Qed.

#[local] Hint Resolve owned_after_delete : owned.

Lemma owned_deletion_resume :
  preserves futures_owned (AjaxDeletionCoordinator.resume).
Proof.
  unfold AjaxDeletionCoordinator.resume.
  repeat preserves_step ltac:(owned_side) ltac:(auto with owned nocore).
Qed.

#[local] Hint Resolve owned_deletion_resume : owned.

Lemma owned_deletion_wait_timeout :
  preserves futures_owned (AjaxDeletionCoordinator.wait_timeout).
Proof.
  unfold AjaxDeletionCoordinator.wait_timeout.
  repeat preserves_step ltac:(owned_side) ltac:(auto with owned nocore).
Qed.

#[local] Hint Resolve owned_deletion_wait_timeout : owned.

Lemma owned_deletion_handle_event event :
  preserves futures_owned (AjaxDeletionCoordinator.handle_event event).
Proof.
  unfold AjaxDeletionCoordinator.handle_event.
  repeat preserves_step ltac:(owned_side) ltac:(auto with owned nocore).
Qed.

#[local] Hint Resolve owned_deletion_handle_event : owned.

Lemma owned_parameter_cancel :
  preserves futures_owned (AjaxParameterCoordinator.cancel).
Proof.
  unfold AjaxParameterCoordinator.cancel.
  repeat preserves_step ltac:(owned_side) ltac:(auto with owned nocore).
Qed.

#[local] Hint Resolve owned_parameter_cancel : owned.

Lemma owned_parameter_fail reason :
  preserves futures_owned (AjaxParameterCoordinator._fail reason).
Proof.
  unfold AjaxParameterCoordinator._fail.
  repeat preserves_step ltac:(owned_side) ltac:(auto with owned nocore).
Qed.

#[local] Hint Resolve owned_parameter_fail : owned.

Lemma owned_async_set device_id command :
  preserves futures_owned (AjaxParameterCoordinator.async_set device_id command).
Proof.
  unfold AjaxParameterCoordinator.async_set.
  repeat preserves_step ltac:(owned_side) ltac:(auto with owned nocore).
Qed.

#[local] Hint Resolve owned_async_set : owned.

Lemma owned_parameter_leave :
  preserves futures_owned (AjaxParameterCoordinator.leave).
Proof.
  unfold AjaxParameterCoordinator.leave.
  repeat preserves_step ltac:(owned_side) ltac:(auto with owned nocore).
Qed.

#[local] Hint Resolve owned_parameter_leave : owned.

Lemma owned_parameter_resume :
  preserves futures_owned (AjaxParameterCoordinator.resume).
Proof.
  unfold AjaxParameterCoordinator.resume.
  repeat preserves_step ltac:(owned_side) ltac:(auto with owned nocore).
Qed.

#[local] Hint Resolve owned_parameter_resume : owned.

Lemma owned_parameter_wait_timeout :
  preserves futures_owned (AjaxParameterCoordinator.wait_timeout).
Proof.
  unfold AjaxParameterCoordinator.wait_timeout.
  repeat preserves_step ltac:(owned_side) ltac:(auto with owned nocore).
Qed.

#[local] Hint Resolve owned_parameter_wait_timeout : owned.

Lemma owned_parameter_handle_event event :
  preserves futures_owned (AjaxParameterCoordinator.handle_event event).
Proof.
  unfold AjaxParameterCoordinator.handle_event.
  repeat preserves_step ltac:(owned_side) ltac:(auto with owned nocore).
Qed.

#[local] Hint Resolve owned_parameter_handle_event : owned.

Lemma owned_refresh_then_exit :
  preserves futures_owned (_refresh_then_exit).
Proof.
  intros w HI. irun.
  all: owned_leaf HI.
Qed.

#[local] Hint Resolve owned_refresh_then_exit : owned.

Lemma owned_handle_event event :
  preserves futures_owned (_handle_event lib event).
Proof.
  unfold _handle_event.
  repeat preserves_step ltac:(owned_side) ltac:(auto with owned nocore).
Qed.

#[local] Hint Resolve owned_handle_event : owned.

Lemma owned_data_received line :
  preserves futures_owned (data_received lib line).
Proof.
  unfold data_received.
  repeat preserves_step ltac:(owned_side) ltac:(auto with owned nocore).
Qed.

#[local] Hint Resolve owned_data_received : owned.

Lemma owned_run_callback cb : preserves futures_owned (run_callback lib cb).
Proof.
  unfold run_callback.
  repeat preserves_step ltac:(owned_side) ltac:(auto with owned nocore).
Qed.

#[local] Hint Resolve owned_run_callback : owned.

Lemma owned_fire h : preserves futures_owned (fire lib h).
Proof.
  intros w Hw. unfold fire.
  destruct (World.timers w !! h) as [t|]; [|done].
  destruct (t_live t); [|done].
  apply owned_run_callback. revert w Hw. owned_side.
Qed.

#[local] Hint Resolve owned_fire : owned.

Lemma owned_async_start_bridge :
  preserves futures_owned (_async_start_bridge).
Proof.
  unfold _async_start_bridge.
  repeat preserves_step ltac:(owned_side) ltac:(auto with owned nocore).
Qed.

#[local] Hint Resolve owned_async_start_bridge : owned.

Lemma owned_drop_handle fut : preserves futures_owned (drop_handle fut).
Proof.
  intros w Hw. unfold drop_handle.
  destruct (World.futures w !! fut) as [f|]; [|done].
  destruct (bool_decide (f_owner f = OwnPairing)); [|done].
  revert w Hw. unfold future_cancel. apply preserves_modify. owned_side.
Qed.

#[local] Hint Resolve owned_drop_handle : owned.

Lemma owned_step a : preserves futures_owned (step lib a).
Proof.
  unfold step.
  repeat preserves_step ltac:(owned_side) ltac:(auto with owned nocore).
Qed.

#[local] Hint Resolve owned_step : owned.

Lemma owned_init : futures_owned World.init.
Proof.
  apply owned_idle; [done|done|].
  intros k (f & Hlk & _). cbn in Hlk. by rewrite lookup_nil in Hlk.
Qed.

End Owned.

(** No future of pairing is left behind.  In every state the bridge can
    reach, a future of pairing that is pending is the search future or the
    finalize future of a session that is running: when a session has
    ended, by success, failure, timeout, cancellation or [force_cleanup],
    every future it handed out is done. *)
Theorem pairing_futures_have_a_session lib w :
  reachable lib w →
  ∀ i f,
    World.futures w !! i = Some f → f_owner f = OwnPairing →
    done f = false →
    Pairing._active (World.pairing_manager w) = true
    ∧ (Pairing._search_future (World.pairing_manager w) = Some i
       ∨ Pairing._finalize_future (World.pairing_manager w) = Some i).
Proof.
  intros Hw.
  assert (HI : futures_owned w).
  { induction Hw as [|w a Hw IH]; [apply owned_init|].
    by apply owned_step. }
  destruct HI as (I1 & _). intros i f Hlk Ho Hd. apply I1. by exists f.
Qed.

Lemma pairing_futures_have_a_session_witness :
  Pairing._active (World.pairing_manager two_sessions) = true
  ∧ (Pairing._search_future (World.pairing_manager two_sessions) = Some 1%nat
     ∨ Pairing._finalize_future (World.pairing_manager two_sessions)
       = Some 1%nat).
Proof.
  apply (pairing_futures_have_a_session sample_library two_sessions)
    with (f := mkFuture OwnPairing FPending).
  - apply run_reachable. constructor.
  - reflexivity.
  - reflexivity.
  - reflexivity.
Defined.

(** ** EVENT lines during the exit from engineering mode *)

Section ExitEvents.

Variable lib : Library.

(** While pairing leaves engineering mode it takes every EVENT line of the
    hub for itself: none is handed to the entities, nothing is sent and no
    future changes.  The line changes nothing at all, unless the exit
    waits for the result of [stt] and the first token of the line is
    SYSTEM: then [stt] is scheduled again, under a new handle. *)
Theorem exit_takes_event_lines w stage line tokens :
  leaving w stage →
  event_line lib line tokens →
  let w' := (step lib (HubLine line) w).2 in
  let system :=
    bool_decide (stage = Pairing.await_stt_result)
    && match tokens with
       | first :: _ => bool_decide (PyStr.upper (PyStr.strip first) = "SYSTEM")
       | [] => false
       end in
  World.dispatched w' = World.dispatched w
  ∧ World.wire w' = World.wire w
  ∧ World.futures w' = World.futures w
  ∧ World.entry_data w' = World.entry_data w
  ∧ (system = false → w' = w)
  ∧ (system = true →
     exiting w' Pairing.await_stt_result "stt" (length (World.timers w))).
Proof.
  intros Hl (Hne & ev & Hp & Htag & Hev) w' system. subst w' system.
  rewrite (hub_line_event lib line w Hne ev Hp).
  exiting_facts Hl.
  assert (Hfirst : AjaxPairingCoordinator.first_item ev = Ok (head tokens)).
  { unfold AjaxPairingCoordinator.first_item. by rewrite Hev. }
  destruct stage; destruct tokens as [|first rest]; cbn [head] in Hfirst.
  all: try destruct (bool_decide (PyStr.upper (PyStr.strip first) = "SYSTEM"))
         eqn:Hsys.
  all: mrun.
  all: cbn [andb bool_decide decide_rel]; simpl_goal.
  all: split_and!; try reflexivity; try done.
  all: intros _; close_exiting.
Qed.

End ExitEvents.

Lemma sample_exiting_is_leaving :
  leaving sample_exiting Pairing.await_stt_result.
Proof. repeat split; reflexivity. Qed.

Lemma exit_takes_event_lines_witness :
  let w := sample_exiting in
  let w' := (step sample_library (HubLine "EVENT;SYSTEM;MODE=1") w).2 in
  let system :=
    bool_decide (Pairing.await_stt_result = Pairing.await_stt_result)
    && match ["SYSTEM"; "MODE=1"] with
       | first :: _ => bool_decide (PyStr.upper (PyStr.strip first) = "SYSTEM")
       | [] => false
       end in
  World.dispatched w' = World.dispatched w
  ∧ World.wire w' = World.wire w
  ∧ World.futures w' = World.futures w
  ∧ World.entry_data w' = World.entry_data w
  ∧ (system = false → w' = w)
  ∧ (system = true →
     exiting w' Pairing.await_stt_result "stt" (length (World.timers w))).
Proof.
  apply (exit_takes_event_lines sample_library sample_exiting
           Pairing.await_stt_result "EVENT;SYSTEM;MODE=1" ["SYSTEM"; "MODE=1"]).
  - apply sample_exiting_is_leaving.
  - split; [intros E; discriminate E|].
    eexists. split; [reflexivity|]. split; reflexivity.
Defined.
